(** * Scrape-Leads: the grid-scan-and-aggregate pipeline of [app.py]

    A shallow embedding of [generate_grid], [get_state_bbox],
    [fetch_businesses], [send_email] and [run_scrape].  Python floats are IEEE
    binary64 numbers, modelled by Rocq's primitive floats; the outside world
    (the two HTTP services and the SMTP server) is an oracle indexed by the
    number of outbound calls made so far, and the libraries that build the
    message of a report are a parameter. *)

From Stdlib Require Import ZArith List Bool Lia String Ascii Uint63.
From Stdlib Require Import PrimFloat FloatOps SpecFloat FloatAxioms.
Import ListNotations.

Set Warnings "-inexact-float,-register-all".
Local Open Scope Z_scope.

(** ** Binary64 numbers *)

Module F64.

(** The four decimal digits of [round(x, 4)]. *)
Definition scale4 : Z := 10000.

(** [rne_shr n k]: the integer nearest to [n / 2^k], ties to the even one. *)
Definition rne_shr (n k : Z) : Z :=
  let q := n / 2 ^ k in
  let r := n mod 2 ^ k in
  match (2 * r) ?= 2 ^ k with
  | Lt => q
  | Gt => q + 1
  | Eq => if Z.even q then q else q + 1
  end.

(** [rne_div n d]: the integer nearest to [n / d], ties to the even one. *)
Definition rne_div (n d : Z) : Z :=
  let q := n / d in
  match (2 * (n mod d)) ?= d with
  | Lt => q
  | Gt => q + 1
  | Eq => if Z.even q then q else q + 1
  end.

(** [decimal4 m e]: the integer nearest to [m * 2^e * 10^4], ties to even:
    the digits Python's correctly rounded [round(x, 4)] keeps of [|x| = m * 2^e]. *)
Definition decimal4 (m : positive) (e : Z) : Z :=
  if 0 <=? e then Z.pos m * scale4 * 2 ^ e
  else rne_shr (Z.pos m * scale4) (- e).

(** The binary64 number nearest to [d / 10^4] for [0 <= d < 2^53]: both
    operands are exact, and IEEE division is correctly rounded. *)
Definition of_decimal4 (d : Z) : float :=
  PrimFloat.div (PrimFloat.of_uint63 (Uint63.of_Z d)) (PrimFloat.of_uint63 (Uint63.of_Z scale4)).

(** Python's [round(x, 4)] on a float: zeros, infinities and NaN round to
    themselves; a finite [x] is rounded half-even to four decimals on its exact
    value and converted back to the nearest float, keeping the sign.  From
    [2^53 / 10^4] on, floats are more than [10^-4] apart and the nearest float
    to the rounded decimal is [x] itself. *)
Definition round4 (x : float) : float :=
  match Prim2SF x with
  | S754_finite s m e =>
      let d := decimal4 m e in
      if d <? 2 ^ 53 then
        if s then PrimFloat.opp (of_decimal4 d) else of_decimal4 d
      else x
  | _ => x
  end.

(** *** The order of binary64 numbers

    [rank] sends every number that is not NaN to an integer, in order: the
    comparisons of the specification are those of the ranks. *)

Definition rank (x : spec_float) : Z :=
  match x with
  | S754_zero _ => 0
  | S754_nan => 0
  | S754_infinity s => if s then - 2 ^ 64 else 2 ^ 64
  | S754_finite s m e =>
      let r := (e + 1075) * 2 ^ 53 + Z.pos m in
      if s then - r else r
  end.

Definition is_nan (x : spec_float) : bool :=
  match x with S754_nan => true | _ => false end.

Definition frank (x : float) : Z := rank (Prim2SF x).
Definition fnan (x : float) : bool := is_nan (Prim2SF x).

(** The canonical exponent of binary64 for a number of magnitude [2^l]. *)
Definition fx (l : Z) : Z := Z.max (l - 53) (- 1074).

(** The outcome of rounding, for a mantissa [m1] at the canonical exponent [c]. *)
Definition rounded (s : bool) (m1 c : Z) (r : spec_float) : Prop :=
  (m1 = 0 /\ r = S754_zero s) \/
  (0 < m1 /\ exists (p : positive) (e : Z),
     Z.pos p * 2 ^ (e + 1074) = m1 * 2 ^ (c + 1074) /\
     c <= e <= c + 1 /\ (m1 < 2 ^ 53 -> e = c) /\
     r = if e <=? 971 then S754_finite s p e else S754_infinity s).

(** The magnitude of a finite number, in units of the smallest one. *)
Definition mag (m : positive) (e : Z) : Z := Z.pos m * 2 ^ (e + 1074).

End F64.

(** ** GENERATE GRID *)

Record bbox : Set := mk_bbox {
  min_lat : float;
  max_lat : float;
  min_lon : float;
  max_lon : float
}.

Definition point : Set := (float * float)%type.

(** The inner [while lon <= bbox["max_lon"]] loop.  [fuel] bounds the number of
    loop tests; [None] means the bound was reached before the loop ended. *)
Fixpoint lon_loop (fuel : nat) (b : bbox) (step lat lon : float)
    (points : list point) : option (list point) :=
  match fuel with
  | O => None
  | S fuel' =>
      if PrimFloat.leb lon (max_lon b) then
        lon_loop fuel' b step lat (PrimFloat.add lon step)
          (points ++ [(F64.round4 lat, F64.round4 lon)])
      else Some points
  end.

(** The outer [while lat <= bbox["max_lat"]] loop. *)
Fixpoint lat_loop (fuel : nat) (b : bbox) (step lat : float)
    (points : list point) : option (list point) :=
  match fuel with
  | O => None
  | S fuel' =>
      if PrimFloat.leb lat (max_lat b) then
        match lon_loop fuel' b step lat (min_lon b) points with
        | None => None
        | Some points' => lat_loop fuel' b step (PrimFloat.add lat step) points'
        end
      else Some points
  end.

Definition generate_grid (fuel : nat) (b : bbox) (step : float) : option (list point) :=
  lat_loop fuel b step (min_lat b) [].

(** *** Vocabulary for the properties of the grid *)

(** The values of the variable of [x = lo; while x <= hi: ...; x += step]. *)
Fixpoint sweep (fuel : nat) (hi step x : float) : option (list float) :=
  match fuel with
  | O => None
  | S fuel' =>
      if PrimFloat.leb x hi then
        option_map (cons x) (sweep fuel' hi step (PrimFloat.add x step))
      else Some []
  end.

(** The coordinates before rounding, row by row. *)
Definition raw_grid (lats lons : list float) : list point :=
  flat_map (fun lat => map (fun lon => (lat, lon)) lons) lats.

Definition round_point (p : point) : point := (F64.round4 (fst p), F64.round4 (snd p)).

Definition valid_bbox (b : bbox) : Prop :=
  PrimFloat.leb (min_lat b) (max_lat b) = true /\
  PrimFloat.leb (min_lon b) (max_lon b) = true.

(** [step] is never lost in the rounding of [x + step], for [x] from [lo] to [hi]. *)
Definition never_absorbed (lo hi step : float) : Prop :=
  forall x : float,
    PrimFloat.leb lo x = true -> PrimFloat.leb x hi = true -> PrimFloat.add x step <> x.

(** [r] is [x] rounded to four decimals: for a finite [x = +/- m * 2^e] there
    is an integer [d] with [|d / 10^4 - |x|| <= 10^-4 / 2], and [r] is the float
    nearest to [d / 10^4] with the sign of [x] (or [x] itself from [2^53 / 10^4]
    on, where floats are more than [10^-4] apart); zeros, infinities and NaN
    are kept. *)
Definition four_decimals (x r : float) : Prop :=
  match Prim2SF x with
  | S754_finite s m e =>
      exists d : Z,
        0 <= d /\
        2 * Z.abs (d * 2 ^ Z.max 0 (- e) - Z.pos m * 10000 * 2 ^ Z.max 0 e)
          <= 2 ^ Z.max 0 (- e) /\
        r = (if d <? 2 ^ 53
             then if s then PrimFloat.opp (F64.of_decimal4 d) else F64.of_decimal4 d
             else x)
  | _ => r = x
  end.

(** The box of the scenario of the specification, region "Tamil Nadu". *)
Definition tamil_nadu_box : bbox := mk_bbox 8.0 13.5 76.2 80.3.

Definition grid_terminates (b : bbox) (step : float) : Prop :=
  exists (fuel : nat) (pts : list point), generate_grid fuel b step = Some pts.


(** ** Python values and exceptions *)

Module Py.

(** What [response.json()] returns: [None], booleans, integers, floats,
    strings, lists and dictionaries (in insertion order, keys distinct). *)
Inductive json : Type :=
  | JNull
  | JBool (b : bool)
  | JInt (z : Z)
  | JFloat (f : float)
  | JStr (s : string)
  | JArr (l : list json)
  | JObj (d : list (string * json)).

(** The exceptions the modelled code can meet; all derive from [Exception]. *)
Inductive exn : Set :=
  | ConnectionError
  | Timeout
  | JSONDecodeError
  | AttributeError
  | TypeError
  | KeyError
  | IndexError
  | ValueError
  | OverflowError
  | SMTPAuthenticationError
  | SMTPServerDisconnected
  | UnicodeEncodeError.

Inductive result (A : Type) : Type :=
  | Ok (a : A)
  | Raise (e : exn).
Arguments Ok {A} a.
Arguments Raise {A} e.

Definition and_then {A B : Type} (r : result A) (k : A -> result B) : result B :=
  match r with
  | Ok a => k a
  | Raise e => Raise e
  end.

Fixpoint assoc (k : string) (d : list (string * json)) : option json :=
  match d with
  | [] => None
  | (k', v) :: d' => if String.eqb k k' then Some v else assoc k d'
  end.

(** [v.get(k, default)]: only dictionaries have the method. *)
Definition get (v : json) (k : string) (default : json) : result json :=
  match v with
  | JObj d => Ok (match assoc k d with Some x => x | None => default end)
  | _ => Raise AttributeError
  end.

Fixpoint chars (s : string) : list json :=
  match s with
  | EmptyString => []
  | String c s' => JStr (String c EmptyString) :: chars s'
  end.

(** [for x in v]: lists give their elements, strings their characters,
    dictionaries their keys; nothing else is iterable. *)
Definition iter (v : json) : result (list json) :=
  match v with
  | JArr l => Ok l
  | JStr s => Ok (chars s)
  | JObj d => Ok (map (fun kv => JStr (fst kv)) d)
  | _ => Raise TypeError
  end.

(** [v[i]] for a non-negative integer literal [i]. *)
Definition item (v : json) (i : nat) : result json :=
  match v with
  | JArr l => match nth_error l i with Some x => Ok x | None => Raise IndexError end
  | JStr s => match nth_error (chars s) i with Some x => Ok x | None => Raise IndexError end
  | JObj _ => Raise KeyError
  | _ => Raise TypeError
  end.

(** [v[k]] for a string literal [k]. *)
Definition field (v : json) (k : string) : result json :=
  match v with
  | JObj d => match assoc k d with Some x => Ok x | None => Raise KeyError end
  | _ => Raise TypeError
  end.

(** Truth value, as [if not v] tests it. *)
Definition truthy (v : json) : bool :=
  match v with
  | JNull => false
  | JBool b => b
  | JInt z => negb (z =? 0)
  | JFloat f => negb (PrimFloat.eqb f 0)
  | JStr s => negb (String.eqb s EmptyString)
  | JArr l => match l with [] => false | _ => true end
  | JObj d => match d with [] => false | _ => true end
  end.

(** [float(z)] for an integer: the nearest float, or [OverflowError]. *)
Definition float_of_int (z : Z) : result float :=
  match binary_normalize prec emax z 0 false with
  | S754_infinity _ => Raise OverflowError
  | f => Ok (SF2Prim f)
  end.

Section Float.
(** [float(s)] for a string is Python's parser; it is a parameter here. *)
Variable float_of_string : string -> option float.

Definition to_float (v : json) : result float :=
  match v with
  | JStr s => match float_of_string s with Some f => Ok f | None => Raise ValueError end
  | JInt z => float_of_int z
  | JFloat f => Ok f
  | JBool b => Ok (if b then 1 else 0)%float
  | _ => Raise TypeError
  end.
End Float.

End Py.

Import Py.

(** ** CONFIG *)

Definition GRID_STEP : float := 0.3%float.

Definition STATES : list string := ["Tamil Nadu"; "Karnataka"]%string.

(** ** The outside world and the program state *)

(** What one [requests.get(..., timeout=30)] followed by [response.json()]
    can meet: no connection, a timeout, or a response with a status code and a
    body, [None] when the body is not JSON. *)
Inductive http_outcome : Type :=
  | Unreachable
  | TimedOut
  | Response (status : Z) (body : option json).

(** One row of the report, as [rows.append({...})] builds it. *)
Record row : Type := mk_row {
  state : string;
  scan_lat : float;
  scan_lon : float;
  business_name : json;
  category : json;
  address : json;
  phone : json;
  business_lat : json;
  business_lon : json
}.

(** The services the worker talks to.  The first argument is the number of
    outbound calls made before this one, so the same request may be answered
    differently at different times.

    [compose] is not a service: it is what the libraries that build the
    report (the data frame of the rows, its CSV text and the message with its
    attachment) make of a state and its rows, the exception they raise if they
    reject them.  They are not modelled; a text with a lone surrogate, which
    cannot be encoded, is one they reject, with [UnicodeEncodeError]. *)
Record world : Type := mk_world {
  nominatim : nat -> string -> http_outcome;
  chotu : nat -> float -> float -> http_outcome;
  smtp : nat -> string -> list row -> option exn;
  compose : string -> list row -> option exn
}.

Inductive message : Type :=
  | Processing (state_name : string)
  | CouldNotFetchBoundingBox
  | GridPoints (n : nat)
  | Progress (state_name : string) (i total : nat) (lat lon : float)
  | Error (e : exn)
  | EmailSent (state_name : string)
  | NoDataFound (state_name : string)
  | AllStatesCompleted.

Inductive event : Type :=
  | Print (m : message)
  | Geocode (query : string)
  | Fetch (lat lon : float)
  | Sleep (seconds : float)
  | SendEmail (state_name : string) (rows : list row).

(** The store: the count of outbound calls, what was observed so far, and the
    list [rows] that the scan of a state appends to. *)
Record store : Type := mk_store {
  calls : nat;
  trace : list event;
  rows : list row
}.

(** Computations: [None] when the fuel for [generate_grid] ran out. *)
Definition M (A : Type) : Type := store -> option (result A * store).

Definition ret {A : Type} (a : A) : M A := fun s => Some (Ok a, s).

Definition raise {A : Type} (e : exn) : M A := fun s => Some (Raise e, s).

Definition bind {A B : Type} (m : M A) (k : A -> M B) : M B :=
  fun s =>
    match m s with
    | None => None
    | Some (Ok a, s') => k a s'
    | Some (Raise e, s') => Some (Raise e, s')
    end.

Declare Scope py_scope.
Delimit Scope py_scope with py.
Notation "x <- m ;; k" := (bind m (fun x => k))
  (at level 61, m at next level, right associativity) : py_scope.
Notation "m ;;; k" := (bind m (fun _ => k))
  (at level 61, right associativity) : py_scope.
Local Open Scope py_scope.

Definition lift {A : Type} (r : result A) : M A := fun s => Some (r, s).

Definition diverge {A : Type} : M A := fun _ => None.

(** [try: body except Exception as e: handler e]. *)
Definition try_except {A : Type} (body : M A) (handler : exn -> M A) : M A :=
  fun s =>
    match body s with
    | Some (Raise e, s') => handler e s'
    | r => r
    end.

Definition emit (ev : event) : M unit :=
  fun s => Some (Ok tt, mk_store (calls s) (trace s ++ [ev]) (rows s)).

(** An outbound call: observed, counted, and answered by the world. *)
Definition call {A : Type} (ev : event) (answer : nat -> A) : M A :=
  fun s => Some (Ok (answer (calls s)), mk_store (S (calls s)) (trace s ++ [ev]) (rows s)).

Definition get_rows : M (list row) := fun s => Some (Ok (rows s), s).

Definition set_rows (l : list row) : M unit :=
  fun s => Some (Ok tt, mk_store (calls s) (trace s) l).

Definition append_row (r : row) : M unit :=
  fun s => Some (Ok tt, mk_store (calls s) (trace s) (rows s ++ [r])).

(** [response.json()] after [requests.get]: the status code is not looked at. *)
Definition response_json (o : http_outcome) : result json :=
  match o with
  | Unreachable => Raise ConnectionError
  | TimedOut => Raise Timeout
  | Response _ None => Raise JSONDecodeError
  | Response _ (Some data) => Ok data
  end.

Section Scrape.
Variable float_of_string : string -> option float.
Variable w : world.

(** ** GET STATE BOUNDING BOX *)

Definition get_state_bbox (state_name : string) : M (option bbox) :=
  let q := (state_name ++ ", India")%string in
  o <- call (Geocode q) (fun n => nominatim w n q) ;;
  data <- lift (response_json o) ;;
  if negb (truthy data) then ret None
  else
    bbox <- lift (and_then (item data 0) (fun x => field x "boundingbox")) ;;
    a <- lift (and_then (item bbox 0) (to_float float_of_string)) ;;
    b <- lift (and_then (item bbox 1) (to_float float_of_string)) ;;
    c <- lift (and_then (item bbox 2) (to_float float_of_string)) ;;
    d <- lift (and_then (item bbox 3) (to_float float_of_string)) ;;
    ret (Some (mk_bbox a b c d)).

(** ** CALL CHOTU API

    The request carries the point with the constants [CATEGORY] and [RADIUS],
    the same for every call; only the point tells two requests apart. *)

Definition fetch_businesses (lat lon : float) : M json :=
  o <- call (Fetch lat lon) (fun n => chotu w n lat lon) ;;
  lift (response_json o).

(** ** SEND EMAIL WITH CSV

    The message is built first, headers, CSV text and attachment; an exception
    raised there leaves [send_email] before any connection is made.  Only then
    is the mail server contacted: connection, login and sending are one
    outbound call. *)

Definition send_email (state_name : string) (df : list row) : M unit :=
  match compose w state_name df with
  | Some e => raise e
  | None =>
      r <- call (SendEmail state_name df) (fun n => smtp w n state_name df) ;;
      match r with
      | Some e => raise e
      | None => ret tt
      end
  end.

(** ** MAIN WORKER *)

(** The dictionary appended for one business. *)
Definition make_row (state_name : string) (lat lon : float) (biz : json) : result row :=
  and_then (get biz "name" JNull) (fun name =>
  and_then (get biz "category" JNull) (fun cat =>
  and_then (get biz "address" JNull) (fun addr =>
  and_then (get biz "phone" JNull) (fun ph =>
  and_then (get biz "lat" JNull) (fun blat =>
  and_then (get biz "long" JNull) (fun blon =>
  Ok (mk_row state_name lat lon name cat addr ph blat blon))))))).

(** [for biz in ...: rows.append({...})]. *)
Fixpoint append_rows (state_name : string) (lat lon : float) (entries : list json) : M unit :=
  match entries with
  | [] => ret tt
  | biz :: rest =>
      r <- lift (make_row state_name lat lon biz) ;;
      append_row r ;;;
      append_rows state_name lat lon rest
  end.

(** The body of [for i, (lat, lon) in enumerate(grid_points)]. *)
Definition scan_point (state_name : string) (total i : nat) (p : point) : M unit :=
  let '(lat, lon) := p in
  emit (Print (Progress state_name (i + 1) total lat lon)) ;;;
  try_except
    (data <- fetch_businesses lat lon ;;
     entries <- lift (and_then (get data "data" (JArr [])) iter) ;;
     append_rows state_name lat lon entries)
    (fun e => emit (Print (Error e))) ;;;
  emit (Sleep 0.4%float).

Fixpoint scan_points (state_name : string) (total i : nat) (pts : list point) : M unit :=
  match pts with
  | [] => ret tt
  | p :: rest =>
      scan_point state_name total i p ;;;
      scan_points state_name total (S i) rest
  end.

(** The body of [for state_name in STATES]. *)
Definition scrape_state (fuel : nat) (state_name : string) : M unit :=
  emit (Print (Processing state_name)) ;;;
  bbox <- get_state_bbox state_name ;;
  match bbox with
  | None => emit (Print CouldNotFetchBoundingBox)
  | Some b =>
      match generate_grid fuel b GRID_STEP with
      | None => diverge
      | Some grid_points =>
          emit (Print (GridPoints (List.length grid_points))) ;;;
          set_rows [] ;;;
          scan_points state_name (List.length grid_points) 0 grid_points ;;;
          found <- get_rows ;;
          match found with
          | [] => emit (Print (NoDataFound state_name))
          | _ :: _ =>
              send_email state_name found ;;;
              emit (Print (EmailSent state_name))
          end
      end
  end.

Fixpoint scrape_states (fuel : nat) (states : list string) : M unit :=
  match states with
  | [] => ret tt
  | state_name :: rest =>
      scrape_state fuel state_name ;;;
      scrape_states fuel rest
  end.

Definition run_scrape (fuel : nat) : M unit :=
  scrape_states fuel STATES ;;;
  emit (Print AllStatesCompleted).

End Scrape.

Definition initial : store := mk_store 0 [] [].

(** *** Vocabulary for the properties of the worker *)

(** The rows the entries of one answer contribute, up to the first entry that
    is not a dictionary, and the exception met there, if any. *)
Fixpoint rows_of_entries (state_name : string) (lat lon : float) (entries : list json)
    : list row * option exn :=
  match entries with
  | [] => ([], None)
  | biz :: rest =>
      match make_row state_name lat lon biz with
      | Raise e => ([], Some e)
      | Ok r =>
          let '(rs, e) := rows_of_entries state_name lat lon rest in
          (r :: rs, e)
      end
  end.

(** What the [try] block of one grid point makes of the answer [o]. *)
Definition point_outcome (state_name : string) (lat lon : float) (o : http_outcome)
    : list row * option exn :=
  match response_json o with
  | Raise e => ([], Some e)
  | Ok data =>
      match and_then (get data "data" (JArr [])) iter with
      | Raise e => ([], Some e)
      | Ok entries => rows_of_entries state_name lat lon entries
      end
  end.

(** The grid points with the number of the outbound call that serves each. *)
Fixpoint numbered (n : nat) (pts : list point) : list (nat * point) :=
  match pts with
  | [] => []
  | p :: rest => (n, p) :: numbered (S n) rest
  end.

Definition fetched (w : world) (kp : nat * point) : result json :=
  response_json (chotu w (fst kp) (fst (snd kp)) (snd (snd kp))).

Definition fetch_succeeds (w : world) (kp : nat * point) : bool :=
  match fetched w kp with Ok _ => true | Raise _ => false end.

Definition point_rows (w : world) (state_name : string) (kp : nat * point) : list row :=
  fst (point_outcome state_name (fst (snd kp)) (snd (snd kp))
         (chotu w (fst kp) (fst (snd kp)) (snd (snd kp)))).

Definition point_error (w : world) (state_name : string) (kp : nat * point) : option exn :=
  snd (point_outcome state_name (fst (snd kp)) (snd (snd kp))
         (chotu w (fst kp) (fst (snd kp)) (snd (snd kp)))).

(** What the scan of one point leaves in the trace. *)
Definition point_trace (w : world) (state_name : string) (total i : nat) (kp : nat * point)
    : list event :=
  [Print (Progress state_name (i + 1) total (fst (snd kp)) (snd (snd kp)));
   Fetch (fst (snd kp)) (snd (snd kp))]
  ++ match point_error w state_name kp with
     | Some e => [Print (Error e)]
     | None => []
     end
  ++ [Sleep 0.4%float].

Fixpoint scan_trace (w : world) (state_name : string) (total i : nat)
    (kps : list (nat * point)) : list event :=
  match kps with
  | [] => []
  | kp :: rest => point_trace w state_name total i kp ++ scan_trace w state_name total (S i) rest
  end.

(** The directory requests of a trace, in order. *)
Fixpoint fetches (t : list event) : list point :=
  match t with
  | [] => []
  | Fetch lat lon :: t' => (lat, lon) :: fetches t'
  | _ :: t' => fetches t'
  end.

(** The pauses of a trace, in order. *)
Fixpoint sleeps (t : list event) : list float :=
  match t with
  | [] => []
  | Sleep d :: t' => d :: sleeps t'
  | _ :: t' => sleeps t'
  end.

(** [paced pending t]: in [t] every directory request is followed by a pause
    before the next request and before the end; [pending] tells that a
    request is still waiting for its pause. *)
Fixpoint paced (pending : bool) (t : list event) : bool :=
  match t with
  | [] => negb pending
  | Fetch _ _ :: t' => negb pending && paced true t'
  | Sleep _ :: t' => paced false t'
  | _ :: t' => paced pending t'
  end.

(** The store once [print(f"Processing {state_name}")] has run. *)
Definition announced (state_name : string) (st : store) : store :=
  mk_store (calls st) (trace st ++ [Print (Processing state_name)]) (rows st).

(** *** What an answer of the directory holds

    The businesses an answer lists and the reason a grid point fails on it,
    read off the answer itself and not through the code of the worker. *)

(** The row of a business given as a dictionary: each field is the entry of
    its key, [None] when the key is missing. *)
Definition row_of_dict (state_name : string) (lat lon : float) (d : list (string * json))
    : row :=
  let entry := fun k => match assoc k d with Some x => x | None => JNull end in
  mk_row state_name lat lon (entry "name"%string) (entry "category"%string)
         (entry "address"%string) (entry "phone"%string) (entry "lat"%string)
         (entry "long"%string).

Definition is_dict (v : json) : bool :=
  match v with JObj _ => true | _ => false end.

(** The answer to the request of a numbered grid point. *)
Definition answer (w : world) (kp : nat * point) : http_outcome :=
  chotu w (fst kp) (fst (snd kp)) (snd (snd kp)).

(** The businesses an answer lists: the list under ["data"] of a JSON object. *)
Definition listed (o : http_outcome) : list json :=
  match o with
  | Response _ (Some (JObj d)) =>
      match assoc "data" d with
      | Some (JArr l) => l
      | _ => []
      end
  | _ => []
  end.

(** The dictionaries of a list before its first entry that is not one. *)
Fixpoint leading_dicts (l : list json) : list (list (string * json)) :=
  match l with
  | JObj d :: rest => d :: leading_dicts rest
  | _ => []
  end.

(** The records of a grid point: one per business listed, as far as the
    entries are dictionaries. *)
Definition records (state_name : string) (p : point) (o : http_outcome) : list row :=
  map (row_of_dict state_name (fst p) (snd p)) (leading_dicts (listed o)).

(** A list field that can be gone through: a list of dictionaries, or a
    string or a dictionary with nothing in it. *)
Definition readable (v : json) : bool :=
  match v with
  | JArr l => forallb is_dict l
  | JStr s => String.eqb s EmptyString
  | JObj d => match d with [] => true | _ :: _ => false end
  | _ => false
  end.

(** A body of the expected structure: a JSON object whose list field, if
    there is one, can be gone through. *)
Definition expected_structure (data : json) : bool :=
  match data with
  | JObj d =>
      match assoc "data" d with
      | None => true
      | Some v => readable v
      end
  | _ => false
  end.

(** Why a grid point fails on an answer, if it does: the network, a body that
    is not JSON, or a JSON body that has not the expected structure (a list
    field that is no collection is a [TypeError], anything else without the
    method [get] an [AttributeError]). *)
Definition failure (o : http_outcome) : option exn :=
  match o with
  | Unreachable => Some ConnectionError
  | TimedOut => Some Timeout
  | Response _ None => Some JSONDecodeError
  | Response _ (Some data) =>
      if expected_structure data then None
      else
        match data with
        | JObj d =>
            match assoc "data" d with
            | Some (JNull | JBool _ | JInt _ | JFloat _) => Some TypeError
            | _ => Some AttributeError
            end
        | _ => Some AttributeError
        end
  end.

Definition diagnostics (o : http_outcome) : list exn :=
  match failure o with
  | Some e => [e]
  | None => []
  end.

(** *** Sample worlds *)

Definition digit (c : ascii) : option Z :=
  let n := Z.of_nat (nat_of_ascii c) in
  if (48 <=? n) && (n <=? 57) then Some (n - 48) else None.

(** Numerator, denominator and number of digits of [ddd.ddd]. *)
Fixpoint parse_decimal (s : string) (num den : Z) (digits : nat) (point : bool)
    : option (Z * Z * nat) :=
  match s with
  | EmptyString => Some (num, den, digits)
  | String c s' =>
      if Ascii.eqb c "." then
        if point then None else parse_decimal s' num den digits true
      else
        match digit c with
        | Some d => parse_decimal s' (10 * num + d) (if point then 10 * den else den)
                      (S digits) point
        | None => None
        end
  end.

(** A [float_of_string] for plain decimal literals of at most 15 digits, on
    which the quotient of the two exact integers is the nearest float, as
    Python's [float] returns it; other strings are rejected. *)
Definition plain_decimal (s : string) : option float :=
  let '(negative, body) :=
    match s with
    | String "-" s' => (true, s')
    | _ => (false, s)
    end in
  match parse_decimal body 0 1 0 false with
  | Some (num, den, digits) =>
      if ((0 <? digits) && (digits <=? 15))%nat then
        let f := PrimFloat.div (PrimFloat.of_uint63 (Uint63.of_Z num))
                               (PrimFloat.of_uint63 (Uint63.of_Z den)) in
        Some (if negative then PrimFloat.opp f else f)
      else None
  | None => None
  end.

Definition geocoded (bounds : list string) : http_outcome :=
  Response 200 (Some (JArr [JObj [("boundingbox"%string, JArr (map JStr bounds))]])).

Definition one_business : json :=
  JObj [("data"%string,
         JArr [JObj [("name"%string, JStr "Sri Balaji Stationery");
                     ("phone"%string, JStr "0000000000")]])].

(** No network at all. *)
Definition offline_world : world :=
  mk_world (fun _ _ => Unreachable) (fun _ _ _ => Unreachable) (fun _ _ _ => None)
           (fun _ _ => None).

(** Both services answer, the mail server refuses the login. *)
Definition undeliverable_world : world :=
  mk_world (fun _ _ => geocoded ["8.0"; "8.1"; "76.2"; "76.3"]%string)
           (fun _ _ _ => Response 200 (Some one_business))
           (fun _ _ _ => Some SMTPAuthenticationError) (fun _ _ => None).

(** Both services answer and the mail is delivered. *)
Definition friendly_world : world :=
  mk_world (fun _ _ => geocoded ["8.0"; "8.1"; "76.2"; "76.3"]%string)
           (fun _ _ _ => Response 200 (Some one_business))
           (fun _ _ _ => None) (fun _ _ => None).

(** The geocoder answers with bounds in the wrong order. *)
Definition inverted_world : world :=
  mk_world (fun _ _ => geocoded ["13.5"; "8.0"; "76.2"; "80.3"]%string)
           (fun _ _ _ => Response 200 (Some one_business))
           (fun _ _ _ => None) (fun _ _ => None).

(** A world in which the directory fails on the points served by an odd call
    number and answers with one business on the others. *)
Definition flaky_world : world :=
  mk_world (fun _ _ => geocoded ["8.0"; "8.5"; "76.2"; "76.7"]%string)
           (fun n _ _ => if Nat.even n then Response 200 (Some one_business) else TimedOut)
           (fun _ _ _ => None) (fun _ _ => None).

(** The directory lists a business, then [null], then another business. *)
Definition broken_list : json :=
  JObj [("data"%string,
         JArr [JObj [("name"%string, JStr "A")]; JNull; JObj [("name"%string, JStr "B")]])].

Definition broken_list_world : world :=
  mk_world (fun _ _ => geocoded ["8.0"; "8.1"; "76.2"; "76.3"]%string)
           (fun _ _ _ => Response 200 (Some broken_list))
           (fun _ _ _ => None) (fun _ _ => None).

(** The directory answers the first request of a scan with one business,
    times out on the second, lists a business, [null] and another business at
    the third, and sends a page that is not JSON from the fourth on. *)
Definition patchy_world : world :=
  mk_world (fun _ _ => geocoded ["8.0"; "8.5"; "76.2"; "76.7"]%string)
           (fun n _ _ =>
              match n with
              | 1%nat => Response 200 (Some one_business)
              | 2%nat => TimedOut
              | 3%nat => Response 200 (Some broken_list)
              | _ => Response 502 None
              end)
           (fun _ _ _ => None) (fun _ _ => None).

(** The rows found cannot be put in a message. *)
Definition unencodable_world : world :=
  mk_world (fun _ _ => geocoded ["8.0"; "8.1"; "76.2"; "76.3"]%string)
           (fun _ _ _ => Response 200 (Some one_business))
           (fun _ _ _ => None) (fun _ _ => Some UnicodeEncodeError).

(** The directory answers every request with the same outcome. *)
Definition directory_world (o : http_outcome) : world :=
  mk_world (fun _ _ => Unreachable) (fun _ _ _ => o) (fun _ _ _ => None) (fun _ _ => None).

(** *** Vocabulary for the further properties *)

(** [x] after [k] rounds of [x += step]. *)
Fixpoint iter_add (k : nat) (step x : float) : float :=
  match k with
  | O => x
  | S k' => iter_add k' step (PrimFloat.add x step)
  end.

(** The states announced by [print(f"Processing {state_name}")] in a trace. *)
Fixpoint announcements (t : list event) : list string :=
  match t with
  | [] => []
  | Print (Processing s) :: t' => s :: announcements t'
  | _ :: t' => announcements t'
  end.

(** The reports handed to the mail server in a trace. *)
Fixpoint emails (t : list event) : list (string * list row) :=
  match t with
  | [] => []
  | SendEmail s df :: t' => (s, df) :: emails t'
  | _ :: t' => emails t'
  end.

(** The errors printed by the [except] branch in a trace. *)
Fixpoint errors (t : list event) : list exn :=
  match t with
  | [] => []
  | Print (Error e) :: t' => e :: errors t'
  | _ :: t' => errors t'
  end.

(** ** VALIDATION

    The checks run when the module is loaded, on the environment read by
    [os.getenv]; the result is the message of the exception raised, if any. *)

(** [not v] for a variable of the environment: unset, or set to nothing. *)
Definition unset (v : option string) : bool :=
  match v with
  | None => true
  | Some s => String.eqb s EmptyString
  end.

Definition validation (getenv : string -> option string) : option string :=
  if unset (getenv "CHOTU_API_KEY"%string) then
    Some "CHOTU_API_KEY not set in environment variables"%string
  else if unset (getenv "EMAIL_USER"%string)
          || unset (getenv "EMAIL_APP_PASSWORD"%string)
          || unset (getenv "EMAIL_TO"%string) then
    Some "Email environment variables missing"%string
  else None.

(** ** The headers of the report, as [send_email] sets them *)

(** [s.replace(' ', '_')]. *)
Fixpoint replace_spaces (s : string) : string :=
  match s with
  | EmptyString => EmptyString
  | String c s' => String (if Ascii.eqb c " " then "_"%char else c) (replace_spaces s')
  end.

Definition attachment_filename (state_name : string) : string :=
  (replace_spaces state_name ++ ".csv")%string.

(** * Properties *)

(** ** The code on small inputs *)

Example round4_half_even :
  F64.round4 0.125 = 0.125%float /\ F64.round4 0.00015 = 0.0001%float /\
  F64.round4 8.600000000000001 = 8.6%float /\ F64.round4 (-0.00001) = (-0.0)%float /\
  F64.round4 1e300 = 1e300%float.
Proof. repeat split; reflexivity. Qed.

(** The scenario of the specification: Tamil Nadu at step 0.3 gives 19 rows of
    14 points, from (8.0, 76.2) to (13.4, 80.1). *)
Example tamil_nadu_grid :
  exists pts : list point,
    generate_grid 40 tamil_nadu_box GRID_STEP = Some pts /\
    List.length pts = 266%nat /\
    hd_error pts = Some (8.0, 76.2)%float /\
    nth_error pts 265 = Some (13.4, 80.1)%float.
Proof. eexists. split; [vm_compute; reflexivity|]. repeat split. Qed.

(** A complete run: each state is scanned, reported, and the worker ends. *)
Example run_scrape_friendly :
  exists st : store,
    run_scrape plain_decimal friendly_world 3 initial = Some (Ok tt, st) /\
    fetches (trace st) = [(8.0, 76.2); (8.0, 76.2)]%float /\
    List.length (trace st) = 17%nat /\
    last (trace st) (Print AllStatesCompleted) = Print AllStatesCompleted.
Proof. eexists. split; [vm_compute; reflexivity|]. repeat split. Qed.

(** ** The order of binary64 numbers *)

Module F64Facts.
Import F64.

Lemma digits2_pos_bounds (m : positive) :
  2 ^ (Z.pos (digits2_pos m) - 1) <= Z.pos m < 2 ^ Z.pos (digits2_pos m).
Proof.
  induction m as [m IH | m IH |]; cbn [digits2_pos].
  - rewrite Pos2Z.inj_succ.
    replace (Z.succ (Z.pos (digits2_pos m)) - 1) with (Z.succ (Z.pos (digits2_pos m) - 1)) by lia.
    rewrite !Z.pow_succ_r by lia. lia.
  - rewrite Pos2Z.inj_succ.
    replace (Z.succ (Z.pos (digits2_pos m)) - 1) with (Z.succ (Z.pos (digits2_pos m) - 1)) by lia.
    rewrite !Z.pow_succ_r by lia. lia.
  - cbn. lia.
Qed.

Lemma bounded_inv (m : positive) (e : Z) :
  bounded prec emax m e = true ->
  - 1074 <= e <= 971 /\ Z.pos (digits2_pos m) <= 53 /\ 0 < Z.pos m < 2 ^ 53 /\
  (- 1074 < e -> Z.pos (digits2_pos m) = 53 /\ 2 ^ 52 <= Z.pos m).
Proof.
  unfold bounded, canonical_mantissa, fexp, emin, prec, emax.
  intros H. apply andb_prop in H. destruct H as [Hc He].
  apply Z.eqb_eq in Hc. apply Z.leb_le in He.
  pose proof (digits2_pos_bounds m) as [Hlo Hhi].
  assert (Hd : Z.pos (digits2_pos m) <= 53) by lia.
  assert (Hm : Z.pos m < 2 ^ 53).
  { eapply Z.lt_le_trans; [exact Hhi|]. apply Z.pow_le_mono_r; lia. }
  split; [lia|]. split; [exact Hd|]. split; [lia|].
  intros Hn. assert (Hd' : Z.pos (digits2_pos m) = 53) by lia.
  split; [exact Hd'|]. rewrite Hd' in Hlo. exact Hlo.
Qed.

Lemma valid_finite_rank (s : bool) (m : positive) (e : Z) :
  valid_binary (S754_finite s m e) = true ->
  0 < (e + 1075) * 2 ^ 53 + Z.pos m < 2 ^ 64.
Proof.
  cbn [valid_binary]. intros H. apply bounded_inv in H.
  change (2 ^ 53) with 9007199254740992 in *.
  change (2 ^ 64) with 18446744073709551616. lia.
Qed.

Lemma SFcompare_rank (x y : spec_float) :
  valid_binary x = true -> valid_binary y = true ->
  is_nan x = false -> is_nan y = false ->
  SFcompare x y = Some (rank x ?= rank y).
Proof.
  intros Vx Vy Nx Ny.
  destruct x as [sx | sx | | sx mx ex]; try discriminate Nx;
  destruct y as [sy | sy | | sy my ey]; try discriminate Ny;
  try (pose proof (valid_finite_rank _ _ _ Vx) as Rx);
  try (pose proof (valid_finite_rank _ _ _ Vy) as Ry);
  try (apply bounded_inv in Vx); try (apply bounded_inv in Vy);
  cbn [SFcompare rank];
  change (2 ^ 64) with 18446744073709551616 in *;
  change (2 ^ 53) with 9007199254740992 in *;
  repeat match goal with |- context [if ?b then _ else _] => destruct b end;
  try reflexivity;
  try (f_equal; symmetry;
       first [ apply Z.compare_lt_iff; lia | apply Z.compare_gt_iff; lia
             | apply Z.compare_eq_iff; lia ]).
  all: f_equal; rewrite Pos.compare_cont_spec; cbn [Pos.switch_Eq];
    destruct (Z.compare_spec ex ey) as [E | E | E].
  all: try (symmetry; first [ apply Z.compare_lt_iff; lia | apply Z.compare_gt_iff; lia ]).
  - subst ey. change (Pos.compare mx my) with (Z.pos mx ?= Z.pos my).
    destruct (Z.compare_spec (Z.pos mx) (Z.pos my)); symmetry;
    first [ apply Z.compare_lt_iff; lia | apply Z.compare_gt_iff; lia
          | apply Z.compare_eq_iff; lia ].
  - subst ey. change (Pos.compare mx my) with (Z.pos mx ?= Z.pos my).
    destruct (Z.compare_spec (Z.pos mx) (Z.pos my)); cbn [CompOpp]; symmetry;
    first [ apply Z.compare_lt_iff; lia | apply Z.compare_gt_iff; lia
          | apply Z.compare_eq_iff; lia ].
Qed.

Lemma SFcompare_nan_l (y : spec_float) : SFcompare S754_nan y = None.
Proof. destruct y; reflexivity. Qed.

Lemma SFcompare_nan_r (x : spec_float) : SFcompare x S754_nan = None.
Proof. destruct x; reflexivity. Qed.

Lemma is_nan_true (x : spec_float) : is_nan x = true -> x = S754_nan.
Proof. destruct x; try discriminate; reflexivity. Qed.

(** The comparison of two floats, read through their ranks. *)
Lemma compare_cases (x y : float) :
  (fnan x = false /\ fnan y = false /\
   SFcompare (Prim2SF x) (Prim2SF y) = Some (frank x ?= frank y)) \/
  ((fnan x = true \/ fnan y = true) /\ SFcompare (Prim2SF x) (Prim2SF y) = None).
Proof.
  unfold fnan, frank.
  destruct (is_nan (Prim2SF x)) eqn:Nx.
  { right. split; [now left|]. rewrite (is_nan_true _ Nx). apply SFcompare_nan_l. }
  destruct (is_nan (Prim2SF y)) eqn:Ny.
  { right. split; [now right|]. rewrite (is_nan_true _ Ny). apply SFcompare_nan_r. }
  left. repeat split. apply SFcompare_rank; auto using Prim2SF_valid.
Qed.

Lemma leb_iff (x y : float) :
  PrimFloat.leb x y = true <-> fnan x = false /\ fnan y = false /\ frank x <= frank y.
Proof.
  rewrite leb_spec. unfold SFleb.
  destruct (compare_cases x y) as [(Nx & Ny & E) | ([N | N] & E)]; rewrite E.
  - destruct (Z.compare_spec (frank x) (frank y)); split; intros G;
      try discriminate; try (repeat split; auto; lia); try (exfalso; lia).
  - split; [discriminate | intros (H & _); congruence].
  - split; [discriminate | intros (_ & H & _); congruence].
Qed.

Lemma ltb_iff (x y : float) :
  PrimFloat.ltb x y = true <-> fnan x = false /\ fnan y = false /\ frank x < frank y.
Proof.
  rewrite ltb_spec. unfold SFltb.
  destruct (compare_cases x y) as [(Nx & Ny & E) | ([N | N] & E)]; rewrite E.
  - destruct (Z.compare_spec (frank x) (frank y)); split; intros G;
      try discriminate; try (repeat split; auto; lia); try (exfalso; lia).
  - split; [discriminate | intros (H & _); congruence].
  - split; [discriminate | intros (_ & H & _); congruence].
Qed.

Lemma leb_trans (x y z : float) :
  PrimFloat.leb x y = true -> PrimFloat.leb y z = true -> PrimFloat.leb x z = true.
Proof. rewrite !leb_iff. intuition lia. Qed.

Lemma ltb_leb (x y : float) : PrimFloat.ltb x y = true -> PrimFloat.leb x y = true.
Proof. rewrite ltb_iff, leb_iff. intuition lia. Qed.

Lemma ltb_not_leb (x y : float) : PrimFloat.ltb x y = true -> PrimFloat.leb y x = false.
Proof.
  intros H. destruct (PrimFloat.leb y x) eqn:E; [|reflexivity].
  apply ltb_iff in H. apply leb_iff in E. exfalso. intuition lia.
Qed.

Lemma leb_refl_of (x y : float) : PrimFloat.leb x y = true -> PrimFloat.leb x x = true.
Proof. rewrite !leb_iff. intuition lia. Qed.

(** The rank tells apart all numbers but the two zeros. *)
Lemma rank_inj (x y : spec_float) :
  valid_binary x = true -> valid_binary y = true ->
  is_nan x = false -> is_nan y = false ->
  rank x = rank y -> rank x <> 0 -> x = y.
Proof.
  intros Vx Vy Nx Ny.
  destruct x as [sx | sx | | sx mx ex]; try discriminate Nx;
  destruct y as [sy | sy | | sy my ey]; try discriminate Ny;
  try (pose proof (valid_finite_rank _ _ _ Vx) as Rx);
  try (pose proof (valid_finite_rank _ _ _ Vy) as Ry);
  try (apply bounded_inv in Vx); try (apply bounded_inv in Vy);
  cbn [rank];
  change (2 ^ 64) with 18446744073709551616 in *;
  change (2 ^ 53) with 9007199254740992 in *;
  try (destruct sx); try (destruct sy); intros E NZ; try lia; try reflexivity.
  all: assert (ex = ey) by lia; subst ey; assert (Z.pos mx = Z.pos my) by lia; congruence.
Qed.

Lemma leb_antisym (x y : float) :
  PrimFloat.leb x y = true -> PrimFloat.leb y x = true -> frank x <> 0 -> x = y.
Proof.
  rewrite !leb_iff. intros (Nx & Ny & L1) (_ & _ & L2) NZ.
  apply Prim2SF_inj. apply rank_inj; auto using Prim2SF_valid.
  unfold frank in *. lia.
Qed.

(** *** Rounding, as the specification of the addition performs it *)

Lemma pow2_pos (k : Z) : 0 <= k -> 0 < 2 ^ k.
Proof. intros. apply Z.pow_pos_nonneg; lia. Qed.

Lemma pow2_split (a b : Z) : 0 <= a <= b -> 2 ^ b = 2 ^ (b - a) * 2 ^ a.
Proof. intros. rewrite <- Z.pow_add_r by lia. f_equal. lia. Qed.

Lemma iter_xO (d m : positive) : Z.pos (Pos.iter xO m d) = Z.pos m * 2 ^ Z.pos d.
Proof.
  induction d as [| d IH] using Pos.peano_ind.
  - cbn. lia.
  - rewrite Pos.iter_succ, Pos2Z.inj_xO, IH, Pos2Z.inj_succ, Z.pow_succ_r by lia. lia.
Qed.

Lemma digits_iter_xO (d m : positive) :
  Z.pos (digits2_pos (Pos.iter xO m d)) = Z.pos (digits2_pos m) + Z.pos d.
Proof.
  induction d as [| d IH] using Pos.peano_ind.
  - cbn [Pos.iter digits2_pos]. rewrite Pos2Z.inj_succ. lia.
  - rewrite Pos.iter_succ. cbn [digits2_pos]. rewrite !Pos2Z.inj_succ, IH. lia.
Qed.

Lemma Zdigits2_bounds (m : Z) :
  0 < m -> 0 < Zdigits2 m /\ 2 ^ (Zdigits2 m - 1) <= m < 2 ^ Zdigits2 m.
Proof.
  destruct m as [| p | p]; try lia. intros _. cbn [Zdigits2].
  split; [lia | apply digits2_pos_bounds].
Qed.

(** Where [shl_align] leaves a mantissa: scaled down to the lower exponent. *)
Lemma shl_align_spec (m : positive) (e e' : Z) :
  Z.pos (fst (shl_align m e e')) = Z.pos m * 2 ^ (e - Z.min e e') /\
  snd (shl_align m e e') = Z.min e e' /\
  Z.pos (digits2_pos (fst (shl_align m e e'))) + snd (shl_align m e e')
    = Z.pos (digits2_pos m) + e.
Proof.
  unfold shl_align. destruct (e' - e) as [| d | d] eqn:E; cbn [fst snd].
  - replace (Z.min e e') with e by lia. rewrite Z.sub_diag. cbn. lia.
  - replace (Z.min e e') with e by lia. rewrite Z.sub_diag. cbn. lia.
  - replace (Z.min e e') with e' by lia.
    rewrite iter_xO, digits_iter_xO. replace (e - e') with (Z.pos d) by lia. lia.
Qed.

Lemma shr_1_m (r : shr_record) : 0 <= shr_m r -> shr_m (shr_1 r) = shr_m r / 2.
Proof.
  destruct r as [m b c]. cbn [shr_m shr_1].
  destruct m as [| [p | p |] | p]; cbn [shr_m]; intros H; try lia.
  - reflexivity.
  - rewrite Pos2Z.inj_xI. apply Z.div_unique with 1; lia.
  - rewrite Pos2Z.inj_xO. apply Z.div_unique with 0; lia.
  - reflexivity.
Qed.

Lemma iter_shr_1_m (p : positive) (r : shr_record) :
  0 <= shr_m r -> shr_m (iter_pos shr_1 p r) = shr_m r / 2 ^ Z.pos p.
Proof.
  revert r. induction p as [p IH | p IH |]; intros r H; cbn [iter_pos].
  - assert (H1 : 0 <= shr_m (shr_1 r)).
    { rewrite shr_1_m by exact H. apply Z.div_pos; lia. }
    assert (H2 : 0 <= shr_m (iter_pos shr_1 p (shr_1 r))).
    { rewrite IH by exact H1. apply Z.div_pos; [exact H1 | now apply pow2_pos]. }
    rewrite IH, IH, shr_1_m by assumption.
    pose proof (pow2_pos (Z.pos p) ltac:(lia)).
    assert (E : 2 ^ Z.pos p~1 = 2 * 2 ^ Z.pos p * 2 ^ Z.pos p).
    { rewrite (Pos2Z.inj_xI p).
      replace (2 * Z.pos p + 1) with (1 + Z.pos p + Z.pos p) by lia.
      rewrite !Z.pow_add_r by lia. lia. }
    rewrite E, !Z.div_div by lia. first [reflexivity | f_equal; lia].
  - assert (H2 : 0 <= shr_m (iter_pos shr_1 p r)).
    { rewrite IH by exact H. apply Z.div_pos; [exact H | now apply pow2_pos]. }
    rewrite IH, IH by assumption.
    pose proof (pow2_pos (Z.pos p) ltac:(lia)).
    assert (E : 2 ^ Z.pos p~0 = 2 ^ Z.pos p * 2 ^ Z.pos p).
    { rewrite (Pos2Z.inj_xO p).
      replace (2 * Z.pos p) with (Z.pos p + Z.pos p) by lia.
      rewrite !Z.pow_add_r by lia. lia. }
    rewrite E, !Z.div_div by lia. first [reflexivity | f_equal; lia].
  - rewrite shr_1_m by exact H. reflexivity.
Qed.

Lemma shr_spec (r : shr_record) (e n : Z) :
  0 <= shr_m r ->
  shr_m (fst (shr r e n)) = shr_m r / 2 ^ Z.max 0 n /\
  snd (shr r e n) = e + Z.max 0 n /\
  (n <= 0 -> fst (shr r e n) = r).
Proof.
  intros H. unfold shr. destruct n as [| p | p]; cbn [fst snd].
  - cbn. rewrite Z.div_1_r. repeat split; lia.
  - replace (Z.max 0 (Z.pos p)) with (Z.pos p) by lia.
    rewrite iter_shr_1_m by exact H. repeat split; lia.
  - replace (Z.max 0 (Z.neg p)) with 0 by lia. cbn. rewrite Z.div_1_r. repeat split; lia.
Qed.

Lemma rne_bounds (q : Z) (l : location) :
  q <= round_nearest_even q l <= q + 1.
Proof.
  unfold round_nearest_even. destruct l as [| []]; try destruct (Z.even q); lia.
Qed.

Lemma fexp_fx (l : Z) : fexp prec emax l = fx l.
Proof. reflexivity. Qed.

Lemma second_shift (s : bool) (m1 c : Z) :
  0 <= m1 <= 2 ^ 53 -> - 1074 <= c ->
  rounded s m1 c
    (match m1 / 2 ^ Z.max 0 (fx (Zdigits2 m1 + c) - c) with
     | 0 => S754_zero s
     | Z.pos p =>
         if c + Z.max 0 (fx (Zdigits2 m1 + c) - c) <=? 971
         then S754_finite s p (c + Z.max 0 (fx (Zdigits2 m1 + c) - c))
         else S754_infinity s
     | Z.neg _ => S754_nan
     end).
Proof.
  intros Hm Hc. unfold rounded.
  destruct (Z.eq_dec m1 0) as [-> | NZ].
  { left. cbn [Zdigits2]. split; [reflexivity|].
    rewrite Z.div_0_l; [reflexivity|]. apply Z.pow_nonzero; lia. }
  right. split; [lia|].
  destruct (Zdigits2_bounds m1 ltac:(lia)) as (Dp & Dlo & Dhi).
  destruct (Z.eq_dec m1 (2 ^ 53)) as [E | NE].
  - assert (D : Zdigits2 m1 = 54).
    { assert (Zdigits2 m1 - 1 < 54).
      { apply (Z.pow_lt_mono_r_iff 2); [lia | lia |].
        eapply Z.le_lt_trans; [exact Dlo|]. rewrite E. now vm_compute. }
      assert (53 < Zdigits2 m1).
      { apply (Z.pow_lt_mono_r_iff 2); [lia | lia |]. rewrite <- E. exact Dhi. }
      lia. }
    rewrite D. unfold fx.
    replace (Z.max 0 (Z.max (54 + c - 53) (- 1074) - c)) with 1 by lia.
    rewrite E. change (2 ^ 53 / 2 ^ 1) with (Z.pos (2 ^ 52)).
    exists (2 ^ 52)%positive, (c + 1). repeat split; try lia.
    replace (c + 1 + 1074) with (1 + (c + 1074)) by lia.
    rewrite Z.pow_add_r by lia. change (Z.pos (2 ^ 52)) with (2 ^ 52).
    change (2 ^ 53) with (2 ^ 52 * 2 ^ 1). lia.
  - assert (D : Zdigits2 m1 <= 53).
    { assert (Zdigits2 m1 - 1 < 53); [|lia].
      apply (Z.pow_lt_mono_r_iff 2); [lia | lia |].
      eapply Z.le_lt_trans; [exact Dlo|]. lia. }
    unfold fx.
    replace (Z.max 0 (Z.max (Zdigits2 m1 + c - 53) (- 1074) - c)) with 0 by lia.
    rewrite Z.pow_0_r, Z.div_1_r, Z.add_0_r.
    destruct m1 as [| p | p]; try lia.
    exists p, c. repeat split; try lia.
Qed.

Lemma binary_round_aux_spec (s : bool) (m : positive) (e : Z) :
  let k1 := Z.max 0 (fx (Z.pos (digits2_pos m) + e) - e) in
  exists m1 : Z,
    Z.pos m / 2 ^ k1 <= m1 <= Z.pos m / 2 ^ k1 + 1 /\
    (k1 = 0 -> m1 = Z.pos m) /\
    binary_round_aux prec emax s (Z.pos m) e loc_Exact =
      match m1 / 2 ^ Z.max 0 (fx (Zdigits2 m1 + (e + k1)) - (e + k1)) with
      | 0 => S754_zero s
      | Z.pos p =>
          if e + k1 + Z.max 0 (fx (Zdigits2 m1 + (e + k1)) - (e + k1)) <=? 971
          then S754_finite s p (e + k1 + Z.max 0 (fx (Zdigits2 m1 + (e + k1)) - (e + k1)))
          else S754_infinity s
      | Z.neg _ => S754_nan
      end.
Proof.
  intros k1. unfold binary_round_aux, shr_fexp.
  rewrite fexp_fx. cbn [Zdigits2 shr_record_of_loc].
  set (r0 := {| shr_m := Z.pos m; shr_r := false; shr_s := false |}).
  destruct (shr_spec r0 e (fx (Z.pos (digits2_pos m) + e) - e) ltac:(cbn; lia))
    as (Hm & He & Hid).
  fold k1 in Hm, He.
  destruct (shr r0 e (fx (Z.pos (digits2_pos m) + e) - e)) as [mrs' e'].
  cbn [fst snd] in Hm, He, Hid. subst e'.
  set (m1 := round_nearest_even (shr_m mrs') (loc_of_shr_record mrs')).
  assert (B : Z.pos m / 2 ^ k1 <= m1 <= Z.pos m / 2 ^ k1 + 1).
  { change (Z.pos m) with (shr_m r0). rewrite <- Hm. apply rne_bounds. }
  assert (P : 0 <= m1).
  { destruct B as [B _]. eapply Z.le_trans; [|exact B].
    apply Z.div_pos; [lia | apply pow2_pos; lia]. }
  exists m1. split; [exact B|]. split.
  { intros K. unfold m1. rewrite Hid by lia. reflexivity. }
  rewrite fexp_fx.
  set (r1 := {| shr_m := m1; shr_r := false; shr_s := false |}).
  destruct (shr_spec r1 (e + k1) (fx (Zdigits2 m1 + (e + k1)) - (e + k1)) ltac:(cbn; lia))
    as (Hm2 & He2 & _).
  destruct (shr r1 (e + k1) (fx (Zdigits2 m1 + (e + k1)) - (e + k1))) as [mrs'' e''].
  cbn [fst snd] in Hm2, He2. subst e''. rewrite Hm2. cbn [shr_m r1].
  reflexivity.
Qed.

(** Rounding the positive number [w * 2^e0] to binary64. *)
Lemma binary_round_spec (s : bool) (w : positive) (e0 : Z) :
  - 1074 <= e0 ->
  let c := fx (Z.pos (digits2_pos w) + e0) in
  exists m1 : Z,
    0 <= m1 <= 2 ^ 53 /\
    (c <= e0 -> m1 = Z.pos w * 2 ^ (e0 - c)) /\
    (e0 <= c -> Z.pos w / 2 ^ (c - e0) <= m1 <= Z.pos w / 2 ^ (c - e0) + 1) /\
    rounded s m1 c (binary_round prec emax s w e0).
Proof.
  intros He0 c. unfold binary_round. rewrite fexp_fx. fold c.
  destruct (shl_align_spec w e0 c) as (Hm & He & Hd).
  destruct (shl_align w e0 c) as [mz ez]. cbn [fst snd] in Hm, He, Hd.
  destruct (binary_round_aux_spec s mz ez) as (m1 & B & Hid & Hr).
  rewrite Hd in B, Hid, Hr. fold c in B, Hid, Hr.
  pose proof (digits2_pos_bounds w) as [Wlo Whi].
  assert (Hc : - 1074 <= c) by (unfold c, fx; lia).
  assert (Hc53 : Z.pos (digits2_pos w) + e0 - c <= 53) by (unfold c, fx; lia).
  assert (Hcpos : 0 < Z.pos (digits2_pos w) + e0 - c) by (unfold c, fx; lia).
  assert (K : ez + Z.max 0 (c - ez) = c) by lia.
  rewrite K in Hr.
  assert (Q : Z.pos mz / 2 ^ Z.max 0 (c - ez) < 2 ^ 53).
  { apply Z.div_lt_upper_bound; [apply pow2_pos; lia|].
    rewrite Hm, <- Z.pow_add_r by lia.
    apply Z.lt_le_trans with (2 ^ Z.pos (digits2_pos w) * 2 ^ (e0 - Z.min e0 c)).
    - apply Z.mul_lt_mono_pos_r; [apply pow2_pos; lia | exact Whi].
    - rewrite <- Z.pow_add_r by lia. apply Z.pow_le_mono_r; lia. }
  assert (P : 0 <= Z.pos mz / 2 ^ Z.max 0 (c - ez)).
  { apply Z.div_pos; [lia | apply pow2_pos; lia]. }
  exists m1. split; [lia|]. split; [|split].
  - intros L. rewrite Hid by lia. rewrite Hm. f_equal. f_equal. lia.
  - intros L. replace (Z.max 0 (c - ez)) with (c - e0) in B by lia.
    replace (Z.pos mz) with (Z.pos w) in B; [exact B|].
    rewrite Hm. replace (e0 - Z.min e0 c) with 0 by lia. lia.
  - rewrite Hr. apply second_shift; lia.
Qed.

Lemma bounded_canonical (m : positive) (e : Z) :
  bounded prec emax m e = true -> fx (Z.pos (digits2_pos m) + e) = e.
Proof.
  unfold bounded, canonical_mantissa. rewrite fexp_fx.
  intros H. apply andb_prop in H. destruct H as [Hc _]. now apply Z.eqb_eq in Hc.
Qed.

Lemma rank_mag_le (m1 m2 : positive) (e1 e2 : Z) :
  bounded prec emax m1 e1 = true -> bounded prec emax m2 e2 = true ->
  mag m1 e1 <= mag m2 e2 ->
  (e1 + 1075) * 2 ^ 53 + Z.pos m1 <= (e2 + 1075) * 2 ^ 53 + Z.pos m2.
Proof.
  intros B1 B2. unfold mag.
  apply bounded_inv in B1. apply bounded_inv in B2.
  destruct B1 as (E1 & _ & M1 & N1). destruct B2 as (E2 & _ & M2 & N2).
  change (2 ^ 53) with 9007199254740992 in *. change (2 ^ 52) with 4503599627370496 in *.
  intros H.
  destruct (Z.lt_trichotomy e1 e2) as [L | [-> | L]].
  - lia.
  - pose proof (pow2_pos (e2 + 1074) ltac:(lia)). nia.
  - exfalso.
    rewrite (pow2_split (e2 + 1074) (e1 + 1074)) in H by lia.
    pose proof (pow2_pos (e2 + 1074) ltac:(lia)).
    assert (2 <= 2 ^ (e1 + 1074 - (e2 + 1074))).
    { change 2 with (2 ^ 1) at 1. apply Z.pow_le_mono_r; lia. }
    destruct (N1 ltac:(lia)) as [_ N].
    rewrite Z.mul_assoc in H. apply Z.mul_le_mono_pos_r in H; [|assumption].
    assert (Z.pos m1 * 2 <= Z.pos m1 * 2 ^ (e1 + 1074 - (e2 + 1074))).
    { apply Z.mul_le_mono_nonneg_l; lia. }
    lia.
Qed.

Lemma rounded_nonneg (m1 c : Z) (r : spec_float) :
  rounded false m1 c r -> valid_binary r = true -> 0 <= rank r /\ is_nan r = false.
Proof.
  intros [[_ ->] | (_ & p & e & _ & _ & _ & ->)] V.
  - cbn. split; [lia | reflexivity].
  - destruct (e <=? 971).
    + pose proof (valid_finite_rank _ _ _ V). cbn [rank is_nan]. split; [lia | reflexivity].
    + cbn. split; [lia | reflexivity].
Qed.

(** Rounding a number that is not below [a * 2^ex] keeps its magnitude there. *)
Lemma round_mag_lower (w : positive) (a ex ez : Z) :
  0 < a <= 2 ^ 53 -> - 1074 <= ez <= ex ->
  a * 2 ^ (ex - ez) <= Z.pos w ->
  exists m1 c : Z,
    rounded false m1 c (binary_round prec emax false w ez) /\
    a * 2 ^ (ex + 1074) <= m1 * 2 ^ (c + 1074).
Proof.
  intros Ha Hez Hw.
  destruct (binary_round_spec false w ez ltac:(lia)) as (m1 & Hm1 & Hlo & Hhi & Hr).
  set (c := fx (Z.pos (digits2_pos w) + ez)) in *.
  assert (Hc : - 1074 <= c) by (unfold c, fx; lia).
  pose proof (pow2_pos (ex - ez) ltac:(lia)) as Pxz.
  exists m1, c. split; [exact Hr|].
  destruct (Z_le_gt_dec c ez) as [L | L].
  - rewrite (Hlo L).
    rewrite (pow2_split (ez + 1074) (ex + 1074)) by lia.
    replace (ex + 1074 - (ez + 1074)) with (ex - ez) by lia.
    rewrite (pow2_split (c + 1074) (ez + 1074)) by lia.
    replace (ez + 1074 - (c + 1074)) with (ez - c) by lia.
    pose proof (pow2_pos (ez - c) ltac:(lia)) as Pa.
    pose proof (pow2_pos (c + 1074) ltac:(lia)) as Pb.
    apply (Z.mul_le_mono_nonneg_r _ _ (2 ^ (ez - c) * 2 ^ (c + 1074))) in Hw; lia.
  - destruct (Hhi ltac:(lia)) as [Q _].
    pose proof (pow2_pos (c + 1074) ltac:(lia)) as Pc.
    pose proof (pow2_pos (c - ez) ltac:(lia)) as Pcz.
    destruct (Z_le_gt_dec c ex) as [L' | L'].
    + assert (a * 2 ^ (ex - c) <= m1).
      { eapply Z.le_trans; [|exact Q]. apply Z.div_le_lower_bound; [exact Pcz|].
        rewrite (pow2_split (c - ez) (ex - ez)) in Hw by lia.
        replace (ex - ez - (c - ez)) with (ex - c) in Hw by lia. lia. }
      rewrite (pow2_split (c + 1074) (ex + 1074)) by lia.
      replace (ex + 1074 - (c + 1074)) with (ex - c) by lia.
      rewrite Z.mul_assoc. apply Z.mul_le_mono_nonneg_r; lia.
    + pose proof (digits2_pos_bounds w) as [Wlo _].
      assert (D : Z.pos (digits2_pos w) - 1 = c - ez + 52) by (unfold c, fx in *; lia).
      rewrite D in Wlo.
      assert (2 ^ 52 <= m1).
      { eapply Z.le_trans; [|exact Q]. apply Z.div_le_lower_bound; [exact Pcz|].
        rewrite <- Z.pow_add_r by lia. exact Wlo. }
      rewrite (pow2_split (ex + 1074) (c + 1074)) by lia.
      pose proof (pow2_pos (ex + 1074) ltac:(lia)).
      assert (2 <= 2 ^ (c + 1074 - (ex + 1074))).
      { change 2 with (2 ^ 1) at 1. apply Z.pow_le_mono_r; lia. }
      change (2 ^ 53) with 9007199254740992 in *.
      change (2 ^ 52) with 4503599627370496 in *.
      assert (4503599627370496 * 2 <= m1 * 2 ^ (c + 1074 - (ex + 1074)))
        by (apply Z.mul_le_mono_nonneg; lia).
      assert (a <= m1 * 2 ^ (c + 1074 - (ex + 1074))) by lia.
      rewrite Z.mul_assoc. apply Z.mul_le_mono_nonneg_r; lia.
Qed.

(** Rounding a number that is not below a binary64 number [mx * 2^ex] does not
    go below it. *)
Lemma round_up_ge (mx w : positive) (ex ez : Z) :
  bounded prec emax mx ex = true -> - 1074 <= ez <= ex ->
  Z.pos mx * 2 ^ (ex - ez) <= Z.pos w ->
  valid_binary (binary_round prec emax false w ez) = true ->
  rank (S754_finite false mx ex) <= rank (binary_round prec emax false w ez).
Proof.
  intros Bx Hez Hw V.
  pose proof (valid_finite_rank false _ _ Bx) as Rx.
  pose proof (bounded_inv _ _ Bx) as (Ex & _ & Mx & _).
  destruct (round_mag_lower w (Z.pos mx) ex ez ltac:(lia) Hez Hw) as (m1 & c & Hr & G).
  assert (Gp : 0 < Z.pos mx * 2 ^ (ex + 1074)) by (pose proof (pow2_pos (ex + 1074)); lia).
  destruct Hr as [[Z0 _] | (_ & p & e & Hv & _ & _ & Hr)].
  { subst m1. lia. }
  rewrite Hr in V |- *. destruct (e <=? 971).
  - cbn [rank]. apply rank_mag_le; [exact Bx | exact V |]. unfold mag. lia.
  - cbn [rank]. lia.
Qed.

(** Rounding a number below a binary64 number [mx * 2^ex] does not go above it. *)
Lemma round_down_le (mx w : positive) (ex ez : Z) :
  bounded prec emax mx ex = true -> - 1074 <= ez <= ex ->
  Z.pos w < Z.pos mx * 2 ^ (ex - ez) ->
  valid_binary (binary_round prec emax true w ez) = true ->
  rank (S754_finite true mx ex) <= rank (binary_round prec emax true w ez) /\
  is_nan (binary_round prec emax true w ez) = false.
Proof.
  intros Bx Hez Hw V.
  pose proof (valid_finite_rank false _ _ Bx) as Rx.
  destruct (binary_round_spec true w ez ltac:(lia)) as (m1 & Hm1 & Hlo & Hhi & Hr).
  set (c := fx (Z.pos (digits2_pos w) + ez)) in *.
  assert (Hc : - 1074 <= c) by (unfold c, fx; lia).
  pose proof (bounded_inv _ _ Bx) as (Ex & _ & Mx & _).
  pose proof (pow2_pos (ex - ez) ltac:(lia)) as Pxz.
  assert (Hcx : c <= ex).
  { rewrite <- (bounded_canonical _ _ Bx). unfold c, fx.
    pose proof (digits2_pos_bounds w) as [Wlo _].
    pose proof (digits2_pos_bounds mx) as [_ Xhi].
    assert (Z.pos (digits2_pos w) - 1 < Z.pos (digits2_pos mx) + (ex - ez)); [|lia].
    apply (Z.pow_lt_mono_r_iff 2); [lia | lia |].
    eapply Z.le_lt_trans; [exact Wlo|]. eapply Z.lt_trans; [exact Hw|].
    rewrite Z.pow_add_r by lia. apply Z.mul_lt_mono_pos_r; assumption. }
  assert (G : m1 * 2 ^ (c + 1074) <= mag mx ex).
  { unfold mag.
    destruct (Z_le_gt_dec c ez) as [L | L].
    - rewrite (Hlo L).
      rewrite (pow2_split (ez + 1074) (ex + 1074)) by lia.
      replace (ex + 1074 - (ez + 1074)) with (ex - ez) by lia.
      rewrite (pow2_split (c + 1074) (ez + 1074)) by lia.
      replace (ez + 1074 - (c + 1074)) with (ez - c) by lia.
      pose proof (pow2_pos (ez - c) ltac:(lia)) as Pa.
      pose proof (pow2_pos (c + 1074) ltac:(lia)) as Pb.
      apply Z.lt_le_incl in Hw.
      apply (Z.mul_le_mono_nonneg_r _ _ (2 ^ (ez - c) * 2 ^ (c + 1074))) in Hw; lia.
    - destruct (Hhi ltac:(lia)) as [_ Q].
      pose proof (pow2_pos (c + 1074) ltac:(lia)) as Pc.
      pose proof (pow2_pos (c - ez) ltac:(lia)) as Pcz.
      assert (m1 <= Z.pos mx * 2 ^ (ex - c)).
      { assert (Z.pos w / 2 ^ (c - ez) < Z.pos mx * 2 ^ (ex - c)); [|lia].
        apply Z.div_lt_upper_bound; [exact Pcz|].
        rewrite (pow2_split (c - ez) (ex - ez)) in Hw by lia.
        replace (ex - ez - (c - ez)) with (ex - c) in Hw by lia. lia. }
      rewrite (pow2_split (c + 1074) (ex + 1074)) by lia.
      replace (ex + 1074 - (c + 1074)) with (ex - c) by lia.
      rewrite Z.mul_assoc. apply Z.mul_le_mono_nonneg_r; lia. }
  destruct Hr as [[_ ->] | (Hp & p & e & Hv & He & Hs & Hr)].
  { cbn [rank is_nan]. split; [lia | reflexivity]. }
  assert (Fin : e <= 971).
  { destruct (Z.eq_dec e c) as [-> | NE]; [lia|].
    destruct (Z.eq_dec c ex) as [-> | NE']; [|lia].
    exfalso. unfold mag in G.
    pose proof (pow2_pos (ex + 1074) ltac:(lia)).
    assert (m1 <= Z.pos mx) by nia. lia. }
  apply Z.leb_le in Fin. rewrite Fin in Hr. rewrite Hr in V |- *.
  cbn [rank is_nan]. split; [|reflexivity].
  assert ((e + 1075) * 2 ^ 53 + Z.pos p <= (ex + 1075) * 2 ^ 53 + Z.pos mx); [|lia].
  apply rank_mag_le; [exact V | exact Bx |]. unfold mag at 1. lia.
Qed.

(** Adding a positive number never yields a smaller one. *)
Lemma SFadd_nondecreasing (x y : spec_float) :
  valid_binary x = true -> valid_binary y = true ->
  is_nan x = false -> 0 < rank y ->
  valid_binary (SF64add x y) = true -> is_nan (SF64add x y) = false ->
  rank x <= rank (SF64add x y).
Proof.
  intros Vx Vy Nx Py. unfold SF64add.
  destruct x as [sx | sx | | sx mx ex]; try discriminate Nx;
  destruct y as [sy | sy | | sy my ey]; cbn [rank] in Py; try lia.
  - destruct sy; [lia|]. cbn. lia.
  - pose proof (valid_finite_rank _ _ _ Vy). destruct sy; [lia|]. cbn. lia.
  - destruct sy; [lia|]. destruct sx; cbn; intros; try discriminate; lia.
  - intros. cbn. lia.
  - pose proof (valid_finite_rank _ _ _ Vx). destruct sy; [lia|].
    destruct sx; cbn; lia.
  - pose proof (valid_finite_rank _ _ _ Vy) as Ry. destruct sy; [lia|].
    cbn [SFadd cond_Zopp].
    set (ez := Z.min ex ey).
    destruct (shl_align_spec mx ex ez) as (Hx & _ & _).
    destruct (shl_align_spec my ey ez) as (Hy & _ & _).
    replace (Z.min ex ez) with ez in Hx by lia.
    replace (Z.min ey ez) with ez in Hy by lia.
    rewrite Hx, Hy.
    pose proof (bounded_inv _ _ Vx) as (Ex & _).
    pose proof (bounded_inv _ _ Vy) as (Ey & _).
    pose proof (pow2_pos (ex - ez) ltac:(lia)) as Px.
    pose proof (pow2_pos (ey - ez) ltac:(lia)) as Pyz.
    destruct sx; cbn [cond_Zopp].
    + destruct (- (Z.pos mx * 2 ^ (ex - ez)) + Z.pos my * 2 ^ (ey - ez)) as [| w | w] eqn:E;
        cbn [binary_normalize]; intros V N.
      * pose proof (valid_finite_rank true _ _ Vx). cbn [rank]. lia.
      * pose proof (valid_finite_rank true _ _ Vx).
        destruct (binary_round_spec false w ez ltac:(lia)) as (m1 & _ & _ & _ & Hr).
        destruct (rounded_nonneg _ _ _ Hr V). cbn [rank]. lia.
      * apply round_down_le; [exact Vx | lia | lia | exact V].
    + destruct (Z.pos mx * 2 ^ (ex - ez) + Z.pos my * 2 ^ (ey - ez)) as [| w | w] eqn:E;
        cbn [binary_normalize]; intros V N; try lia.
      apply round_up_ge; [exact Vx | lia | lia | exact V].
Qed.

Lemma add_nondecreasing (x step : float) :
  PrimFloat.ltb 0 step = true -> fnan x = false -> fnan (PrimFloat.add x step) = false ->
  PrimFloat.leb x (PrimFloat.add x step) = true.
Proof.
  intros Hs Nx Na. apply leb_iff. split; [exact Nx|]. split; [exact Na|].
  apply ltb_iff in Hs. destruct Hs as (_ & _ & Hs).
  unfold frank, fnan in *. rewrite add_spec in *.
  apply SFadd_nondecreasing; auto using Prim2SF_valid.
  rewrite <- add_spec. apply Prim2SF_valid.
Qed.

(** The sum with a positive number, from a zero, is that number. *)
Lemma SFadd_zero_rank (x y : spec_float) :
  is_nan x = false -> rank x = 0 -> valid_binary x = true -> 0 < rank y ->
  rank (SF64add x y) = rank y.
Proof.
  intros Nx Rx Vx Py. unfold SF64add.
  destruct x as [sx | sx | | sx mx ex]; try discriminate Nx.
  - destruct y as [sy | sy | | sy my ey]; cbn [rank] in Py; try lia; reflexivity.
  - cbn [rank] in Rx. destruct sx; vm_compute in Rx; discriminate Rx.
  - pose proof (valid_finite_rank _ _ _ Vx). cbn [rank] in Rx. destruct sx; lia.
Qed.

(** Unless the step is absorbed, the sum is strictly larger. *)
Lemma add_increasing (x step : float) :
  PrimFloat.ltb 0 step = true -> fnan x = false -> fnan (PrimFloat.add x step) = false ->
  PrimFloat.add x step <> x ->
  PrimFloat.ltb x (PrimFloat.add x step) = true.
Proof.
  intros Hs Nx Na Hne.
  pose proof (add_nondecreasing x step Hs Nx Na) as Hle.
  apply leb_iff in Hle. destruct Hle as (_ & _ & Hle).
  apply ltb_iff. split; [exact Nx|]. split; [exact Na|].
  destruct (Z.eq_dec (frank x) (frank (PrimFloat.add x step))) as [E | NE]; [|lia].
  exfalso. destruct (Z.eq_dec (frank x) 0) as [Z0 | NZ].
  - apply ltb_iff in Hs. destruct Hs as (_ & _ & Hs).
    change (frank 0) with 0 in Hs.
    unfold frank, fnan in *. rewrite add_spec in E.
    rewrite SFadd_zero_rank in E; auto using Prim2SF_valid. lia.
  - apply Hne. symmetry. apply Prim2SF_inj.
    apply rank_inj; auto using Prim2SF_valid.
Qed.

(** *** A step of at least one unit in the last place is never absorbed *)

Lemma SFadd_strict_nonneg (mx ms : positive) (ex es : Z) :
  bounded prec emax mx ex = true -> bounded prec emax ms es = true ->
  2 ^ (ex + 1074) <= mag ms es ->
  SF64add (S754_finite false mx ex) (S754_finite false ms es) <> S754_finite false mx ex.
Proof.
  intros Bx Bs Hs. unfold SF64add. cbn [SFadd cond_Zopp].
  set (ez := Z.min ex es).
  destruct (shl_align_spec mx ex ez) as (Hx & _ & _).
  destruct (shl_align_spec ms es ez) as (Hy & _ & _).
  replace (Z.min ex ez) with ez in Hx by lia.
  replace (Z.min es ez) with ez in Hy by lia.
  rewrite Hx, Hy.
  pose proof (bounded_inv _ _ Bx) as (Ex & _ & Mx & _).
  pose proof (bounded_inv _ _ Bs) as (Es & _).
  pose proof (pow2_pos (ex - ez) ltac:(lia)) as Px.
  pose proof (pow2_pos (es - ez) ltac:(lia)) as Ps.
  pose proof (pow2_pos (ez + 1074) ltac:(lia)) as Pz.
  assert (Hle : 2 ^ (ex - ez) <= Z.pos ms * 2 ^ (es - ez)).
  { unfold mag in Hs.
    rewrite (pow2_split (ez + 1074) (ex + 1074)) in Hs by lia.
    rewrite (pow2_split (ez + 1074) (es + 1074)) in Hs by lia.
    replace (ex + 1074 - (ez + 1074)) with (ex - ez) in Hs by lia.
    replace (es + 1074 - (ez + 1074)) with (es - ez) in Hs by lia.
    rewrite Z.mul_assoc in Hs. apply Z.mul_le_mono_pos_r in Hs; assumption. }
  destruct (Z.pos mx * 2 ^ (ex - ez) + Z.pos ms * 2 ^ (es - ez)) as [| w | w] eqn:E;
    cbn [binary_normalize]; try lia.
  destruct (round_mag_lower w (Z.pos mx + 1) ex ez ltac:(lia) ltac:(lia) ltac:(lia))
    as (m1 & c & Hr & G).
  pose proof (pow2_pos (ex + 1074) ltac:(lia)) as Pe.
  intros R. rewrite R in Hr.
  destruct Hr as [[_ Hr] | (_ & p & e & Hv & _ & _ & Hr)]; [discriminate|].
  destruct (e <=? 971); [|discriminate].
  injection Hr as -> ->. lia.
Qed.

Lemma step_not_absorbed (x step hi : float) (mh ms : positive) (eh es : Z) :
  Prim2SF hi = S754_finite false mh eh ->
  Prim2SF step = S754_finite false ms es ->
  2 ^ (eh + 1074) <= mag ms es ->
  PrimFloat.leb 0 x = true -> PrimFloat.leb x hi = true ->
  PrimFloat.add x step <> x.
Proof.
  intros Hh Hs Hm H0 Hx E.
  apply leb_iff in H0. destruct H0 as (_ & Nx & R0). change (frank 0) with 0 in R0.
  apply leb_iff in Hx. destruct Hx as (_ & _ & Rx).
  apply (f_equal Prim2SF) in E. rewrite add_spec, Hs in E.
  pose proof (Prim2SF_valid x) as Vx. pose proof (Prim2SF_valid hi) as Vh.
  pose proof (Prim2SF_valid step) as Vs. rewrite Hs in Vs.
  unfold frank, fnan in *. rewrite Hh in Rx, Vh.
  pose proof (valid_finite_rank _ _ _ Vh) as Rh.
  pose proof (bounded_inv _ _ Vh) as (_ & _ & Mh & _).
  destruct (Prim2SF x) as [sx | sx | | sx mx ex]; try discriminate Nx.
  - discriminate E.
  - cbn [rank] in *. destruct sx; lia.
  - pose proof (valid_finite_rank _ _ _ Vx) as Rk.
    pose proof (bounded_inv _ _ Vx) as (Ex & _ & Mx & _).
    cbn [rank] in *. destruct sx; [lia|].
    change (2 ^ 53) with 9007199254740992 in *.
    assert (ex <= eh) by lia.
    revert E. apply SFadd_strict_nonneg; [exact Vx | exact Vs |].
    eapply Z.le_trans; [|exact Hm]. apply Z.pow_le_mono_r; lia.
Qed.

End F64Facts.

(** ** The grid generator *)

Module GridFacts.
Import F64 F64Facts.

Lemma sweep_S (n : nat) (hi step x : float) :
  sweep (S n) hi step x =
  if PrimFloat.leb x hi then option_map (cons x) (sweep n hi step (PrimFloat.add x step))
  else Some [].
Proof. reflexivity. Qed.

Lemma sweep_mono (hi step : float) (n n' : nat) (x : float) (l : list float) :
  sweep n hi step x = Some l -> (n <= n')%nat -> sweep n' hi step x = Some l.
Proof.
  revert n' x l. induction n as [| n IH]; intros n' x l H Hle; [discriminate|].
  destruct n' as [| n']; [lia|]. cbn [sweep] in *.
  destruct (PrimFloat.leb x hi); [|exact H].
  destruct (sweep n hi step (PrimFloat.add x step)) as [l'|] eqn:E; [|discriminate].
  rewrite (IH n' _ l' E ltac:(lia)). exact H.
Qed.

Lemma sweep_det (hi step : float) (n n' : nat) (x : float) (l l' : list float) :
  sweep n hi step x = Some l -> sweep n' hi step x = Some l' -> l = l'.
Proof.
  intros H H'.
  apply (sweep_mono _ _ _ (Nat.max n n')) in H; [|lia].
  apply (sweep_mono _ _ _ (Nat.max n n')) in H'; [|lia]. congruence.
Qed.

(** The inner loop appends one rounded point per longitude of the sweep. *)
Lemma lon_loop_sweep (fuel : nat) (b : bbox) (step lat lon : float) (pts : list point) :
  lon_loop fuel b step lat lon pts =
  option_map (fun lons => pts ++ map (fun x => (round4 lat, round4 x)) lons)
             (sweep fuel (max_lon b) step lon).
Proof.
  revert lon pts. induction fuel as [| fuel IH]; intros lon pts; [reflexivity|].
  cbn [lon_loop sweep]. destruct (PrimFloat.leb lon (max_lon b)).
  - rewrite IH. destruct (sweep fuel (max_lon b) step (PrimFloat.add lon step)); cbn.
    + rewrite <- app_assoc. reflexivity.
    + reflexivity.
  - cbn. rewrite app_nil_r. reflexivity.
Qed.

Lemma round_row (lat : float) (lons : list float) :
  map (fun x => (round4 lat, round4 x)) lons = map round_point (map (fun lon => (lat, lon)) lons).
Proof. rewrite map_map. reflexivity. Qed.

(** What the outer loop returns: the rounded rows of the two sweeps. *)
Lemma lat_loop_spec (fuel : nat) (b : bbox) (step lat : float) (pts r : list point) :
  lat_loop fuel b step lat pts = Some r ->
  exists lats : list float,
    sweep fuel (max_lat b) step lat = Some lats /\
    ((lats = [] /\ r = pts) \/
     (lats <> [] /\ exists lons : list float,
        sweep fuel (max_lon b) step (min_lon b) = Some lons /\
        r = pts ++ map round_point (raw_grid lats lons))).
Proof.
  revert lat pts r. induction fuel as [| fuel IH]; intros lat pts r H; [discriminate|].
  cbn [lat_loop] in H. rewrite (sweep_S fuel (max_lat b)).
  destruct (PrimFloat.leb lat (max_lat b)).
  - rewrite lon_loop_sweep in H.
    destruct (sweep fuel (max_lon b) step (min_lon b)) as [lons|] eqn:El; [|discriminate].
    cbn [option_map] in H.
    destruct (IH _ _ _ H) as (lats & Hs & Hr). rewrite Hs. cbn [option_map].
    exists (lat :: lats). split; [reflexivity|]. right. split; [discriminate|].
    exists lons. split.
    + apply (sweep_mono _ _ fuel); [exact El | lia].
    + destruct Hr as [[-> ->] | (_ & lons' & Hs' & ->)].
      * cbn [raw_grid flat_map]. rewrite app_nil_r, round_row. reflexivity.
      * injection Hs' as <-.
        cbn [raw_grid flat_map]. rewrite map_app, round_row, app_assoc. reflexivity.
  - injection H as <-. exists []. split; [reflexivity|]. left. split; reflexivity.
Qed.

(** Conversely, the outer loop returns as soon as the two sweeps end. *)
Lemma lat_loop_total (b : bbox) (step : float) (n1 n2 : nat) (lat : float)
    (lats lons : list float) (pts : list point) :
  sweep n1 (max_lat b) step lat = Some lats ->
  sweep n2 (max_lon b) step (min_lon b) = Some lons ->
  lat_loop (n1 + n2) b step lat pts = Some (pts ++ map round_point (raw_grid lats lons)).
Proof.
  revert lat lats pts. induction n1 as [| n1 IH]; intros lat lats pts H1 H2; [discriminate|].
  cbn [sweep] in H1. cbn [Nat.add lat_loop].
  destruct (PrimFloat.leb lat (max_lat b)).
  - destruct (sweep n1 (max_lat b) step (PrimFloat.add lat step)) as [lats'|] eqn:E;
      [|discriminate].
    injection H1 as <-.
    rewrite lon_loop_sweep, (sweep_mono _ _ n2 (n1 + n2) _ lons H2) by lia.
    cbn [option_map]. rewrite (IH _ _ _ E H2).
    cbn [raw_grid flat_map]. rewrite map_app, round_row, app_assoc. reflexivity.
  - injection H1 as <-. cbn. rewrite app_nil_r. reflexivity.
Qed.

Lemma generate_grid_mono (b : bbox) (step : float) (n n' : nat) (pts : list point) :
  generate_grid n b step = Some pts -> (n <= n')%nat -> generate_grid n' b step = Some pts.
Proof.
  unfold generate_grid. generalize (min_lat b) as lat. generalize (@nil point) as acc.
  revert n' pts. induction n as [| n IH]; intros n' pts acc lat H Hle; [discriminate|].
  destruct n' as [| n']; [lia|]. cbn [lat_loop] in *.
  destruct (PrimFloat.leb lat (max_lat b)); [|exact H].
  rewrite lon_loop_sweep in *.
  destruct (sweep n (max_lon b) step (min_lon b)) as [lons|] eqn:E; [|discriminate].
  rewrite (sweep_mono _ _ n n' _ lons E) by lia. cbn [option_map] in *.
  apply IH; [exact H | lia].
Qed.

(** The elements of a sweep: it starts at [x], moves by [step], stays below [hi]. *)
Lemma sweep_head (n : nat) (hi step x : float) (l : list float) :
  sweep n hi step x = Some l -> l = [] \/ exists l', l = x :: l'.
Proof.
  destruct n as [| n]; [discriminate|]. cbn [sweep].
  destruct (PrimFloat.leb x hi).
  - destruct (sweep n hi step (PrimFloat.add x step)) as [l'|]; [|discriminate].
    intros H. injection H as <-. right. now exists l'.
  - intros H. injection H as <-. now left.
Qed.

Lemma sweep_nonempty (n : nat) (hi step x : float) (l : list float) :
  sweep n hi step x = Some l -> PrimFloat.leb x hi = true -> exists l', l = x :: l'.
Proof.
  destruct n as [| n]; [discriminate|]. cbn [sweep]. intros H L. rewrite L in H.
  destruct (sweep n hi step (PrimFloat.add x step)) as [l'|]; [|discriminate].
  injection H as <-. now exists l'.
Qed.

Lemma sweep_empty (n : nat) (hi step x : float) :
  PrimFloat.leb x hi = false -> sweep (S n) hi step x = Some [].
Proof. intros L. cbn [sweep]. now rewrite L. Qed.

Lemma sweep_step (n : nat) (hi step x : float) (l : list float) (i : nat) (y z : float) :
  sweep n hi step x = Some l ->
  nth_error l i = Some y -> nth_error l (S i) = Some z -> z = PrimFloat.add y step.
Proof.
  revert x l i. induction n as [| n IH]; intros x l i H; [discriminate|].
  cbn [sweep] in H. destruct (PrimFloat.leb x hi).
  - destruct (sweep n hi step (PrimFloat.add x step)) as [l'|] eqn:E; [|discriminate].
    injection H as <-. destruct i as [| i]; cbn [nth_error].
    + intros Hy Hz. injection Hy as <-.
      destruct (sweep_head _ _ _ _ _ E) as [-> | (l'' & ->)]; [discriminate|].
      cbn in Hz. congruence.
    + apply (IH _ _ _ E).
  - injection H as <-. destruct i; discriminate.
Qed.

Lemma sweep_below (n : nat) (hi step x : float) (l : list float) (y : float) :
  sweep n hi step x = Some l -> In y l -> PrimFloat.leb y hi = true.
Proof.
  revert x l. induction n as [| n IH]; intros x l H; [discriminate|].
  cbn [sweep] in H. destruct (PrimFloat.leb x hi) eqn:L.
  - destruct (sweep n hi step (PrimFloat.add x step)) as [l'|] eqn:E; [|discriminate].
    injection H as <-. intros [<- | Hin]; [exact L | exact (IH _ _ E Hin)].
  - injection H as <-. intros [].
Qed.

Lemma sweep_above (n : nat) (lo hi step x : float) (l : list float) (y : float) :
  PrimFloat.ltb 0 step = true -> PrimFloat.leb lo x = true ->
  sweep n hi step x = Some l -> In y l -> PrimFloat.leb lo y = true.
Proof.
  intros Hs. revert x l. induction n as [| n IH]; intros x l Hlo H; [discriminate|].
  cbn [sweep] in H. destruct (PrimFloat.leb x hi) eqn:L.
  - destruct (sweep n hi step (PrimFloat.add x step)) as [l'|] eqn:E; [|discriminate].
    injection H as <-. intros [<- | Hin]; [exact Hlo|].
    destruct (sweep_head _ _ _ _ _ E) as [-> | (l'' & ->)]; [destruct Hin|].
    refine (IH _ _ _ E Hin).
    assert (Hx' : PrimFloat.leb (PrimFloat.add x step) hi = true).
    { apply (sweep_below _ _ _ _ _ _ E). now left. }
    apply leb_trans with x; [exact Hlo|].
    apply add_nondecreasing; [exact Hs | |].
    + apply leb_iff in L. tauto.
    + apply leb_iff in Hx'. tauto.
  - injection H as <-. intros [].
Qed.

(** A sweep ends when no step is absorbed: the rank of the variable grows. *)
Lemma sweep_terminates (lo hi step : float) :
  PrimFloat.ltb 0 step = true -> never_absorbed lo hi step ->
  forall x : float, PrimFloat.leb lo x = true ->
  exists (n : nat) (l : list float), sweep n hi step x = Some l.
Proof.
  intros Hs Hna.
  assert (G : forall (k : nat) (x : float),
             PrimFloat.leb lo x = true -> (Z.to_nat (frank hi - frank x) < k)%nat ->
             exists (n : nat) (l : list float), sweep n hi step x = Some l).
  { induction k as [| k IH]; intros x Hlo Hk; [lia|].
    destruct (PrimFloat.leb x hi) eqn:L.
    2:{ exists 1%nat, []. now apply sweep_empty. }
    destruct (PrimFloat.leb (PrimFloat.add x step) hi) eqn:L'.
    2:{ exists 2%nat, [x]. rewrite sweep_S, L, sweep_empty by exact L'. reflexivity. }
    assert (Nx : fnan x = false) by (apply leb_iff in L; tauto).
    assert (Nx' : fnan (PrimFloat.add x step) = false) by (apply leb_iff in L'; tauto).
    pose proof (add_increasing x step Hs Nx Nx' (Hna x Hlo L)) as Hlt.
    destruct (IH (PrimFloat.add x step)) as (n & l & Hn).
    - apply leb_trans with x; [exact Hlo | now apply ltb_leb].
    - apply ltb_iff in Hlt. apply leb_iff in L'. lia.
    - exists (S n), (x :: l). now rewrite sweep_S, L, Hn. }
  intros x Hlo. apply (G (S (Z.to_nat (frank hi - frank x)))); [exact Hlo | lia].
Qed.

Lemma raw_grid_nil_r (lats : list float) : raw_grid lats [] = [].
Proof. induction lats as [| a lats IH]; [reflexivity | exact IH]. Qed.

Lemma in_raw_grid (lats lons : list float) (p : point) :
  In p (raw_grid lats lons) -> In (fst p) lats /\ In (snd p) lons.
Proof.
  unfold raw_grid. rewrite in_flat_map. intros (lat & Hlat & Hp).
  apply in_map_iff in Hp. destruct Hp as (lon & <- & Hlon). now split.
Qed.

(** Two neighbours of the raw grid: one step apart in a row, or the end of a
    row and the start of the next one. *)
Lemma raw_grid_adjacent (n m : nat) (hi_lat hi_lon step lat lon0 : float)
    (lats lons : list float) (i : nat) (p q : point) :
  sweep n hi_lat step lat = Some lats ->
  sweep m hi_lon step lon0 = Some lons ->
  nth_error (raw_grid lats lons) i = Some p ->
  nth_error (raw_grid lats lons) (S i) = Some q ->
  (fst q = fst p /\ snd q = PrimFloat.add (snd p) step) \/
  (fst q = PrimFloat.add (fst p) step /\ snd q = lon0).
Proof.
  intros Hlat Hlon. revert lat lats i Hlat.
  induction n as [| n IH]; intros lat lats i Hlat; [discriminate|].
  rewrite sweep_S in Hlat. destruct (PrimFloat.leb lat hi_lat).
  2:{ injection Hlat as <-. destruct i; discriminate. }
  destruct (sweep n hi_lat step (PrimFloat.add lat step)) as [lats'|] eqn:E; [|discriminate].
  injection Hlat as <-. cbn [raw_grid flat_map]. fold (raw_grid lats' lons).
  set (row := map (fun lon => (lat, lon)) lons).
  assert (Hlen : List.length row = List.length lons) by apply length_map.
  destruct (Nat.lt_ge_cases (S i) (List.length row)) as [In1 | Out1].
  - (* both in the first row *)
    rewrite !nth_error_app1 by lia. unfold row. rewrite !nth_error_map.
    destruct (nth_error lons i) as [x|] eqn:Ex; [|discriminate].
    destruct (nth_error lons (S i)) as [y|] eqn:Ey; [|discriminate].
    cbn. intros Hp Hq. injection Hp as <-. injection Hq as <-.
    left. split; [reflexivity|]. exact (sweep_step _ _ _ _ _ _ _ _ Hlon Ex Ey).
  - destruct (Nat.lt_ge_cases i (List.length row)) as [In0 | Out0].
    + (* the end of the first row, the start of the next *)
      rewrite nth_error_app1 by lia. rewrite nth_error_app2 by lia.
      replace (S i - List.length row)%nat with 0%nat by lia.
      unfold row. rewrite nth_error_map.
      destruct (nth_error lons i) as [x|] eqn:Ex; [|discriminate].
      cbn [option_map]. intros Hp Hq. injection Hp as <-.
      destruct (sweep_head _ _ _ _ _ E) as [-> | (l1 & ->)]; [discriminate Hq|].
      destruct (sweep_head _ _ _ _ _ Hlon) as [-> | (l2 & ->)]; [destruct i; discriminate Ex|].
      cbn in Hq. injection Hq as <-. right. split; reflexivity.
    + (* both in the later rows *)
      rewrite !nth_error_app2 by lia.
      replace (S i - List.length row)%nat with (S (i - List.length row)) by lia.
      apply (IH _ _ _ E).
Qed.

(** *** Rounding to four decimals *)

Lemma rne_shr_close (n k : Z) :
  0 <= n -> 0 <= k ->
  0 <= rne_shr n k /\ 2 * Z.abs (rne_shr n k * 2 ^ k - n) <= 2 ^ k.
Proof.
  intros Hn Hk. unfold rne_shr.
  pose proof (pow2_pos k Hk) as P.
  pose proof (Z.div_mod n (2 ^ k) ltac:(lia)) as D.
  pose proof (Z.mod_pos_bound n (2 ^ k) P) as B.
  pose proof (Z.div_pos n (2 ^ k) Hn P) as Q.
  destruct (Z.compare_spec (2 * (n mod 2 ^ k)) (2 ^ k)) as [E | L | G];
    [destruct (Z.even (n / 2 ^ k)) | |]; split; lia.
Qed.

Lemma round4_four_decimals (x : float) : four_decimals x (round4 x).
Proof.
  unfold four_decimals, round4.
  destruct (Prim2SF x) as [s | s | | s m e]; try reflexivity.
  exists (decimal4 m e). unfold decimal4, scale4.
  destruct (Z.leb_spec 0 e) as [L | L].
  - replace (Z.max 0 (- e)) with 0 by lia. replace (Z.max 0 e) with e by lia.
    pose proof (pow2_pos e L).
    split; [lia|]. split; [|reflexivity].
    rewrite Z.pow_0_r, Z.mul_1_r, Z.sub_diag. cbn. lia.
  - replace (Z.max 0 (- e)) with (- e) by lia. replace (Z.max 0 e) with 0 by lia.
    rewrite Z.pow_0_r, Z.mul_1_r.
    destruct (rne_shr_close (Z.pos m * 10000) (- e) ltac:(lia) ltac:(lia)) as [P C].
    split; [exact P|]. split; [exact C | reflexivity].
Qed.

Lemma never_absorbed_nonneg (lo hi step : float) (mh ms : positive) (eh es : Z) :
  Prim2SF hi = S754_finite false mh eh ->
  Prim2SF step = S754_finite false ms es ->
  2 ^ (eh + 1074) <= mag ms es ->
  PrimFloat.leb 0 lo = true ->
  never_absorbed lo hi step.
Proof.
  intros Hh Hs Hm H0 x Hlo Hhi.
  apply (step_not_absorbed x step hi mh ms eh es); auto.
  now apply leb_trans with lo.
Qed.

Lemma sweep_stuck (hi step x : float) (n : nat) :
  PrimFloat.leb x hi = true -> PrimFloat.add x step = x -> sweep n hi step x = None.
Proof.
  intros L E. induction n as [| n IH]; [reflexivity|].
  rewrite sweep_S, L, E, IH. reflexivity.
Qed.

Lemma generate_grid_det (b : bbox) (step : float) (n n' : nat) (pts pts' : list point) :
  generate_grid n b step = Some pts -> generate_grid n' b step = Some pts' -> pts = pts'.
Proof.
  intros H H'.
  apply (generate_grid_mono _ _ _ (Nat.max n n')) in H; [|lia].
  apply (generate_grid_mono _ _ _ (Nat.max n n')) in H'; [|lia]. congruence.
Qed.

(** The grid of a valid box starts at its rounded minimum corner. *)
Lemma generate_grid_head (b : bbox) (step : float) (fuel : nat) (pts : list point) :
  valid_bbox b -> generate_grid fuel b step = Some pts ->
  exists rest : list point, pts = (round4 (min_lat b), round4 (min_lon b)) :: rest.
Proof.
  intros [Vlat Vlon] H. unfold generate_grid in H.
  destruct (lat_loop_spec _ _ _ _ _ _ H) as (lats & Hlat & Hr).
  destruct (sweep_nonempty _ _ _ _ _ Hlat Vlat) as (lats' & ->).
  destruct Hr as [[Hnil _] | (_ & lons & Hlon & ->)]; [discriminate Hnil|].
  destruct (sweep_nonempty _ _ _ _ _ Hlon Vlon) as (lons' & ->).
  cbn. eexists. reflexivity.
Qed.

Lemma generate_grid_total (b : bbox) (step : float) :
  PrimFloat.ltb 0 step = true ->
  PrimFloat.leb (min_lat b) (min_lat b) = true ->
  PrimFloat.leb (min_lon b) (min_lon b) = true ->
  never_absorbed (min_lat b) (max_lat b) step ->
  never_absorbed (min_lon b) (max_lon b) step ->
  exists (fuel : nat) (pts : list point), generate_grid fuel b step = Some pts.
Proof.
  intros Hs Rlat Rlon Alat Alon.
  destruct (sweep_terminates _ _ _ Hs Alat _ Rlat) as (n1 & lats & H1).
  destruct (sweep_terminates _ _ _ Hs Alon _ Rlon) as (n2 & lons & H2).
  exists (n1 + n2)%nat. eexists. unfold generate_grid.
  apply (lat_loop_total _ _ _ _ _ _ _ _ H1 H2).
Qed.

(** With the longitudes inverted and the step absorbed by the latitude, the
    outer loop spins. *)
Lemma lat_loop_stuck (b : bbox) (step lat : float) (fuel : nat) (pts : list point) :
  PrimFloat.leb lat (max_lat b) = true -> PrimFloat.add lat step = lat ->
  PrimFloat.leb (min_lon b) (max_lon b) = false ->
  lat_loop fuel b step lat pts = None.
Proof.
  intros L E X. induction fuel as [| fuel IH]; [reflexivity|].
  cbn [lat_loop]. rewrite L.
  destruct fuel as [| fuel]; [reflexivity|].
  cbn [lon_loop]. rewrite X, E. exact IH.
Qed.

(** With a valid box and the step absorbed by [min_lon], the inner loop spins. *)
Lemma absorbed_lon_diverges (b : bbox) (step : float) :
  valid_bbox b -> PrimFloat.add (min_lon b) step = min_lon b -> ~ grid_terminates b step.
Proof.
  intros [Vlat Vlon] E (fuel & pts & H). unfold generate_grid in H.
  destruct fuel as [| fuel]; [discriminate|].
  cbn [lat_loop] in H. rewrite Vlat, lon_loop_sweep in H.
  rewrite (sweep_stuck _ _ _ fuel Vlon E) in H. discriminate H.
Qed.

End GridFacts.

(** ** Claims on the grid generator *)

Import F64 F64Facts GridFacts.

(** C4, refuted as stated: on the valid box of Tamil Nadu a positive step of
    [2^-60] is absorbed by every addition ([76.2 + 2^-60 = 76.2]); the inner
    loop never ends and no amount of fuel yields a grid. *)
Lemma generate_grid_absorbed_step_diverges :
  valid_bbox tamil_nadu_box /\
  PrimFloat.ltb 0 0x1p-60 = true /\
  ~ grid_terminates tamil_nadu_box 0x1p-60.
Proof.
  split; [split; reflexivity|]. split; [reflexivity|].
  apply absorbed_lon_diverges; [split; reflexivity | reflexivity].
Qed.

(** C4, amended: for every valid bounding box and every step > 0 that no
    addition of the two sweeps absorbs, the grid generator terminates: from
    some amount of fuel on it returns one and the same finite list of points. *)
Theorem generate_grid_terminates (b : bbox) (step : float) :
  valid_bbox b -> PrimFloat.ltb 0 step = true ->
  never_absorbed (min_lat b) (max_lat b) step ->
  never_absorbed (min_lon b) (max_lon b) step ->
  exists (fuel : nat) (pts : list point),
    forall fuel' : nat, (fuel <= fuel')%nat -> generate_grid fuel' b step = Some pts.
Proof.
  intros [Vlat Vlon] Hs Alat Alon.
  destruct (generate_grid_total b step Hs (leb_refl_of _ _ Vlat) (leb_refl_of _ _ Vlon)
              Alat Alon) as (fuel & pts & H).
  exists fuel, pts. intros fuel' Hle. exact (generate_grid_mono _ _ _ _ _ H Hle).
Qed.

Lemma never_absorbed_tamil_nadu_lat :
  never_absorbed (min_lat tamil_nadu_box) (max_lat tamil_nadu_box) GRID_STEP.
Proof.
  eapply never_absorbed_nonneg;
    [vm_compute; reflexivity | vm_compute; reflexivity | vm_compute; discriminate | reflexivity].
Defined.

Lemma never_absorbed_tamil_nadu_lon :
  never_absorbed (min_lon tamil_nadu_box) (max_lon tamil_nadu_box) GRID_STEP.
Proof.
  eapply never_absorbed_nonneg;
    [vm_compute; reflexivity | vm_compute; reflexivity | vm_compute; discriminate | reflexivity].
Defined.

Lemma generate_grid_terminates_witness :
  valid_bbox tamil_nadu_box /\ PrimFloat.ltb 0 GRID_STEP = true /\
  exists (fuel : nat) (pts : list point),
    forall fuel' : nat, (fuel <= fuel')%nat ->
    generate_grid fuel' tamil_nadu_box GRID_STEP = Some pts.
Proof.
  split; [split; reflexivity|]. split; [reflexivity|].
  apply generate_grid_terminates;
    [split; reflexivity | reflexivity
    | exact never_absorbed_tamil_nadu_lat | exact never_absorbed_tamil_nadu_lon].
Defined.

(** C5, refuted as stated: with a step of 0.3 on the valid box
    [8.0, 8.1] x [76.2, 77.0] the step exceeds the extent in latitude
    ([8.0 + 0.3 > 8.1]), yet the grid has three points, not one; and on the
    valid box of Tamil Nadu the positive step [2^-60] is absorbed, the
    generator never returns, and so yields no point at all. *)
Lemma generate_grid_one_dimension_exceeded :
  let b := mk_bbox 8.0 8.1 76.2 77.0 in
  (valid_bbox b /\ PrimFloat.ltb 0 GRID_STEP = true /\
   PrimFloat.ltb (max_lat b) (PrimFloat.add (min_lat b) GRID_STEP) = true /\
   generate_grid 5 b GRID_STEP = Some [(8.0, 76.2); (8.0, 76.5); (8.0, 76.8)]%float /\
   ~ (exists fuel : nat,
        generate_grid fuel b GRID_STEP = Some [(round4 (min_lat b), round4 (min_lon b))])) /\
  (valid_bbox tamil_nadu_box /\ PrimFloat.ltb 0 0x1p-60 = true /\
   ~ (exists (fuel : nat) (pts : list point),
        generate_grid fuel tamil_nadu_box 0x1p-60 = Some pts /\ pts <> [])).
Proof.
  intros b. split.
  - assert (G : generate_grid 5 b GRID_STEP
                = Some [(8.0, 76.2); (8.0, 76.5); (8.0, 76.8)]%float)
      by (vm_compute; reflexivity).
    split; [split; reflexivity|]. split; [reflexivity|]. split; [reflexivity|].
    split; [exact G|].
    intros (fuel & H). pose proof (generate_grid_det _ _ _ _ _ _ G H) as E. discriminate E.
  - split; [split; reflexivity|]. split; [reflexivity|].
    intros (fuel & pts & H & _).
    apply (absorbed_lon_diverges tamil_nadu_box 0x1p-60); [split; reflexivity | reflexivity|].
    now exists fuel, pts.
Qed.

(** C5, amended: for every valid bounding box and every step > 0, a grid the
    generator returns starts with the minimum corner rounded to 4 decimal
    digits, so it has at least one point; it does return one when no addition
    absorbs the step; and when the step exceeds the extent of the box in both
    dimensions ([min_lat + step > max_lat] and [min_lon + step > max_lon]) it
    returns exactly that single point. *)
Theorem generate_grid_min_corner (b : bbox) (step : float) :
  valid_bbox b -> PrimFloat.ltb 0 step = true ->
  let corner := (round4 (min_lat b), round4 (min_lon b)) in
  (forall (fuel : nat) (pts : list point),
     generate_grid fuel b step = Some pts -> exists rest, pts = corner :: rest) /\
  (never_absorbed (min_lat b) (max_lat b) step ->
   never_absorbed (min_lon b) (max_lon b) step ->
   exists (fuel : nat) (rest : list point), generate_grid fuel b step = Some (corner :: rest)) /\
  (PrimFloat.ltb (max_lat b) (PrimFloat.add (min_lat b) step) = true ->
   PrimFloat.ltb (max_lon b) (PrimFloat.add (min_lon b) step) = true ->
   forall fuel : nat, (3 <= fuel)%nat -> generate_grid fuel b step = Some [corner]).
Proof.
  intros V Hs corner. split; [|split].
  - intros fuel pts H. exact (generate_grid_head _ _ _ _ V H).
  - intros Alat Alon. destruct V as [Vlat Vlon].
    destruct (generate_grid_total b step Hs (leb_refl_of _ _ Vlat) (leb_refl_of _ _ Vlon)
                Alat Alon) as (fuel & pts & H).
    destruct (generate_grid_head _ _ _ _ (conj Vlat Vlon) H) as (rest & ->).
    now exists fuel, rest.
  - intros Xlat Xlon fuel Hf. destruct V as [Vlat Vlon].
    apply ltb_not_leb in Xlat. apply ltb_not_leb in Xlon.
    apply (generate_grid_mono _ _ 3); [|exact Hf].
    unfold generate_grid. cbn [lat_loop lon_loop].
    rewrite Vlat, Vlon, Xlon, Xlat. reflexivity.
Qed.

Lemma generate_grid_min_corner_witness :
  let b := mk_bbox 8.0 8.1 76.2 76.3 in
  valid_bbox b /\ PrimFloat.ltb 0 GRID_STEP = true /\
  generate_grid 3 b GRID_STEP = Some [(8.0, 76.2)%float].
Proof.
  intros b. split; [split; reflexivity|]. split; [reflexivity|].
  apply (generate_grid_min_corner b GRID_STEP);
    [split; reflexivity | reflexivity | reflexivity | reflexivity | lia].
Defined.

(** C7: for every valid bounding box and every step > 0, every point of the
    grid is the rounding to 4 decimal digits, coordinate by coordinate, of a
    latitude and a longitude that lie in [min_lat, max_lat] x [min_lon,
    max_lon]; so the point lies in the rectangle up to half a unit of the
    fourth decimal. *)
Theorem generate_grid_points_in_box (b : bbox) (step : float) (fuel : nat) (pts : list point) :
  valid_bbox b -> PrimFloat.ltb 0 step = true ->
  generate_grid fuel b step = Some pts ->
  forall p : point, In p pts ->
  exists lat lon : float,
    p = (round4 lat, round4 lon) /\
    four_decimals lat (fst p) /\ four_decimals lon (snd p) /\
    PrimFloat.leb (min_lat b) lat = true /\ PrimFloat.leb lat (max_lat b) = true /\
    PrimFloat.leb (min_lon b) lon = true /\ PrimFloat.leb lon (max_lon b) = true.
Proof.
  intros [Vlat Vlon] Hs H p Hin. unfold generate_grid in H.
  destruct (lat_loop_spec _ _ _ _ _ _ H) as (lats & Hlat & Hr).
  destruct Hr as [[_ ->] | (_ & lons & Hlon & ->)]; [destruct Hin|].
  cbn [app] in Hin. apply in_map_iff in Hin. destruct Hin as ([lat lon] & <- & Hraw).
  destruct (in_raw_grid _ _ _ Hraw) as [Ilat Ilon]. cbn [fst snd] in Ilat, Ilon.
  exists lat, lon. unfold round_point. cbn [fst snd].
  split; [reflexivity|].
  split; [apply round4_four_decimals|]. split; [apply round4_four_decimals|].
  split; [exact (sweep_above _ _ _ _ _ _ _ Hs (leb_refl_of _ _ Vlat) Hlat Ilat)|].
  split; [exact (sweep_below _ _ _ _ _ _ Hlat Ilat)|].
  split; [exact (sweep_above _ _ _ _ _ _ _ Hs (leb_refl_of _ _ Vlon) Hlon Ilon)|].
  exact (sweep_below _ _ _ _ _ _ Hlon Ilon).
Qed.

Lemma generate_grid_points_in_box_witness :
  let b := mk_bbox 8.0 8.5 76.2 76.7 in
  valid_bbox b /\ PrimFloat.ltb 0 GRID_STEP = true /\
  generate_grid 5 b GRID_STEP = Some [(8.0, 76.2); (8.0, 76.5); (8.3, 76.2); (8.3, 76.5)]%float /\
  exists lat lon : float,
    (8.3, 76.5)%float = (round4 lat, round4 lon) /\
    four_decimals lat 8.3 /\ four_decimals lon 76.5 /\
    PrimFloat.leb 8.0 lat = true /\ PrimFloat.leb lat 8.5 = true /\
    PrimFloat.leb 76.2 lon = true /\ PrimFloat.leb lon 76.7 = true.
Proof.
  intros b.
  assert (G : generate_grid 5 b GRID_STEP
              = Some [(8.0, 76.2); (8.0, 76.5); (8.3, 76.2); (8.3, 76.5)]%float)
    by (vm_compute; reflexivity).
  split; [split; reflexivity|]. split; [reflexivity|]. split; [exact G|].
  apply (generate_grid_points_in_box b GRID_STEP 5 _
           (conj eq_refl eq_refl) eq_refl G (8.3, 76.5)%float).
  cbn. tauto.
Defined.

(** ** The worker *)

Module ScrapeFacts.

Section Scan.
Variable w : world.
Variable state_name : string.

Lemma append_rows_spec (lat lon : float) (entries : list json) (st : store) :
  append_rows state_name lat lon entries st =
  Some (match snd (rows_of_entries state_name lat lon entries) with
        | None => Ok tt
        | Some e => Raise e
        end,
        mk_store (calls st) (trace st)
                 (rows st ++ fst (rows_of_entries state_name lat lon entries))).
Proof.
  revert st. induction entries as [| biz rest IH]; intros st; cbn [append_rows rows_of_entries].
  - unfold ret. cbn. rewrite app_nil_r. destruct st; reflexivity.
  - unfold bind, lift, append_row.
    destruct (make_row state_name lat lon biz) as [r | e]; cbn.
    + rewrite IH. cbn. destruct (rows_of_entries state_name lat lon rest) as [rs e].
      cbn. rewrite <- app_assoc. reflexivity.
    + rewrite app_nil_r. destruct st; reflexivity.
Qed.

(** One grid point: always carried through, whatever the answer. *)
Lemma scan_point_spec (total i : nat) (p : point) (st : store) :
  scan_point w state_name total i p st =
  Some (Ok tt,
        mk_store (S (calls st))
                 (trace st ++ point_trace w state_name total i (calls st, p))
                 (rows st ++ point_rows w state_name (calls st, p))).
Proof.
  destruct p as [lat lon].
  unfold scan_point, point_trace, point_rows, point_error, point_outcome.
  unfold bind, emit, try_except, fetch_businesses, call, lift, bind. cbn [fst snd calls trace rows].
  destruct (response_json (chotu w (calls st) lat lon)) as [data | e]; cbn.
  - destruct (and_then (get data "data" (JArr [])) iter) as [entries | e]; cbn.
    + rewrite append_rows_spec. cbn.
      destruct (rows_of_entries state_name lat lon entries) as [rs [e |]]; cbn;
        rewrite <- !app_assoc; reflexivity.
    + rewrite app_nil_r, <- !app_assoc. reflexivity.
  - rewrite app_nil_r, <- !app_assoc. reflexivity.
Qed.

Lemma scan_points_spec (total : nat) (pts : list point) (i : nat) (st : store) :
  scan_points w state_name total i pts st =
  Some (Ok tt,
        mk_store (calls st + List.length pts)
                 (trace st ++ scan_trace w state_name total i (numbered (calls st) pts))
                 (rows st ++ flat_map (point_rows w state_name) (numbered (calls st) pts))).
Proof.
  revert i st. induction pts as [| p rest IH]; intros i st;
    cbn [scan_points numbered scan_trace flat_map List.length].
  - unfold ret. rewrite Nat.add_0_r, !app_nil_r. destruct st; reflexivity.
  - unfold bind. rewrite scan_point_spec, IH. cbn [calls trace rows].
    replace (calls st + S (List.length rest))%nat with (S (calls st) + List.length rest)%nat
      by lia.
    rewrite <- !app_assoc. reflexivity.
Qed.

Lemma fetches_app (t1 t2 : list event) : fetches (t1 ++ t2) = fetches t1 ++ fetches t2.
Proof.
  induction t1 as [| ev t1 IH]; [reflexivity|].
  destruct ev; cbn; rewrite ?IH; reflexivity.
Qed.

Lemma sleeps_app (t1 t2 : list event) : sleeps (t1 ++ t2) = sleeps t1 ++ sleeps t2.
Proof.
  induction t1 as [| ev t1 IH]; [reflexivity|].
  destruct ev; cbn; rewrite ?IH; reflexivity.
Qed.

Lemma point_trace_fetches (total i : nat) (kp : nat * point) :
  fetches (point_trace w state_name total i kp) = [snd kp].
Proof.
  unfold point_trace. rewrite !fetches_app.
  destruct (point_error w state_name kp); destruct kp as [k [lat lon]]; reflexivity.
Qed.

Lemma point_trace_sleeps (total i : nat) (kp : nat * point) :
  sleeps (point_trace w state_name total i kp) = [0.4%float].
Proof.
  unfold point_trace. rewrite !sleeps_app.
  destruct (point_error w state_name kp); reflexivity.
Qed.

Lemma numbered_snd (n : nat) (pts : list point) : map snd (numbered n pts) = pts.
Proof.
  revert n. induction pts as [| p rest IH]; intros n; [reflexivity|].
  cbn. now rewrite IH.
Qed.

Lemma numbered_nth (n : nat) (pts : list point) (k : nat) (p : point) :
  nth_error pts k = Some p -> In ((n + k)%nat, p) (numbered n pts).
Proof.
  revert n k. induction pts as [| q rest IH]; intros n k; [destruct k; discriminate|].
  destruct k as [| k]; cbn.
  - intros H. injection H as ->. left. f_equal. lia.
  - intros H. right. replace (n + S k)%nat with (S n + k)%nat by lia. now apply IH.
Qed.

Lemma scan_trace_fetches (total i : nat) (kps : list (nat * point)) :
  fetches (scan_trace w state_name total i kps) = map snd kps.
Proof.
  revert i. induction kps as [| kp rest IH]; intros i; [reflexivity|].
  cbn [scan_trace map]. now rewrite fetches_app, point_trace_fetches, IH.
Qed.

Lemma scan_trace_sleeps (total i : nat) (kps : list (nat * point)) :
  sleeps (scan_trace w state_name total i kps) = repeat 0.4%float (List.length kps).
Proof.
  revert i. induction kps as [| kp rest IH]; intros i; [reflexivity|].
  cbn [scan_trace]. now rewrite sleeps_app, point_trace_sleeps, IH.
Qed.

Lemma scan_trace_paced (total i : nat) (kps : list (nat * point)) :
  paced false (scan_trace w state_name total i kps) = true.
Proof.
  revert i. induction kps as [| kp rest IH]; intros i; [reflexivity|].
  cbn [scan_trace]. unfold point_trace. cbn [app paced negb andb].
  destruct (point_error w state_name kp); cbn [app paced]; apply IH.
Qed.

Lemma scan_trace_error (total i : nat) (kps : list (nat * point)) (kp : nat * point) (e : exn) :
  In kp kps -> point_error w state_name kp = Some e ->
  In (Print (Error e)) (scan_trace w state_name total i kps).
Proof.
  revert i. induction kps as [| kp' rest IH]; intros i Hin He; [destruct Hin|].
  cbn [scan_trace]. apply in_or_app. destruct Hin as [-> | Hin].
  - left. unfold point_trace. rewrite He. cbn. tauto.
  - right. now apply IH.
Qed.

(** A point whose fetch fails contributes no row and the error it met. *)
Lemma failed_fetch (kp : nat * point) (e : exn) :
  fetched w kp = Raise e ->
  point_rows w state_name kp = [] /\ point_error w state_name kp = Some e.
Proof.
  unfold fetched, point_rows, point_error, point_outcome. intros ->. now split.
Qed.

Lemma flat_map_filter_rows (kps : list (nat * point)) :
  flat_map (point_rows w state_name) (filter (fetch_succeeds w) kps) =
  flat_map (point_rows w state_name) kps.
Proof.
  induction kps as [| kp rest IH]; [reflexivity|].
  cbn [filter flat_map]. unfold fetch_succeeds at 1.
  destruct (fetched w kp) as [data | e] eqn:E.
  - cbn [flat_map]. now rewrite IH.
  - destruct (failed_fetch kp e E) as [-> _]. exact IH.
Qed.
End Scan.

(** A state whose bounding box was found and whose grid was generated: the
    scan, then the report or the notice that nothing was found. *)
Lemma scrape_state_resolved (fos : string -> option float) (w : world) (fuel : nat)
    (state_name : string) (st st2 : store) (b : bbox) (pts : list point) :
  get_state_bbox fos w state_name (announced state_name st) = Some (Ok (Some b), st2) ->
  generate_grid fuel b GRID_STEP = Some pts ->
  scrape_state fos w fuel state_name st =
  let kps := numbered (calls st2) pts in
  let found := flat_map (point_rows w state_name) kps in
  let t := trace st2 ++ Print (GridPoints (List.length pts))
                        :: scan_trace w state_name (List.length pts) 0 kps in
  let n := (calls st2 + List.length pts)%nat in
  match found with
  | [] => Some (Ok tt, mk_store n (t ++ [Print (NoDataFound state_name)]) [])
  | _ :: _ =>
      match compose w state_name found with
      | Some e => Some (Raise e, mk_store n t found)
      | None =>
          match smtp w n state_name found with
          | Some e => Some (Raise e, mk_store (S n) (t ++ [SendEmail state_name found]) found)
          | None =>
              Some (Ok tt, mk_store (S n) (t ++ [SendEmail state_name found;
                                                 Print (EmailSent state_name)]) found)
          end
      end
  end.
Proof.
  intros Hb Hg. unfold scrape_state.
  unfold bind at 1. unfold emit at 1. fold (announced state_name st).
  unfold bind at 1. rewrite Hb, Hg.
  unfold bind at 1. unfold emit at 1.
  unfold bind at 1. unfold set_rows at 1.
  unfold bind at 1. rewrite scan_points_spec. cbn [calls trace rows app].
  unfold bind at 1. unfold get_rows at 1. cbn [rows].
  destruct (flat_map (point_rows w state_name) (numbered (calls st2) pts)) as [| r rs] eqn:F.
  - unfold emit. cbn [calls trace rows]. rewrite <- !app_assoc. reflexivity.
  - unfold bind at 1. unfold send_email.
    destruct (compose w state_name (r :: rs));
      [unfold raise; cbn [calls trace rows]; rewrite <- ?app_assoc; reflexivity|].
    unfold bind, call, raise, ret, emit. cbn [calls trace rows].
    destruct (smtp w (calls st2 + List.length pts) state_name (r :: rs));
      cbn [calls trace rows]; rewrite <- !app_assoc; reflexivity.
Qed.

Lemma get_state_bbox_strings (fos : string -> option float) (w : world)
    (state_name : string) (st : store) (status : Z) (d : list (string * json))
    (more : list json) (sa sb sc sd : string) (a b c e : float) :
  nominatim w (calls st) (state_name ++ ", India") =
    Response status (Some (JArr (JObj d :: more))) ->
  assoc "boundingbox" d = Some (JArr [JStr sa; JStr sb; JStr sc; JStr sd]) ->
  fos sa = Some a -> fos sb = Some b -> fos sc = Some c -> fos sd = Some e ->
  get_state_bbox fos w state_name st =
  Some (Ok (Some (mk_bbox a b c e)),
        mk_store (S (calls st)) (trace st ++ [Geocode (state_name ++ ", India")]) (rows st)).
Proof.
  intros Hn Hd Ha Hb Hc He. unfold get_state_bbox.
  unfold bind at 1. unfold call at 1. cbn [calls trace rows]. rewrite Hn.
  unfold bind, lift, ret. cbn [response_json truthy negb item nth_error and_then field].
  rewrite Hd. cbn [item nth_error and_then to_float]. rewrite Ha, Hb, Hc, He. reflexivity.
Qed.

End ScrapeFacts.

(** ** Claims on the worker *)

Import ScrapeFacts.

(** C1, the code at two failing inputs: when the geocoder cannot be reached
    for the first state, and when the mail server refuses the report of the
    first state, [run_scrape] ends with the exception uncaught; the second
    state, Karnataka, is never processed and no final message is printed. *)
Theorem run_scrape_region_errors_escape :
  (forall fuel : nat,
     run_scrape plain_decimal offline_world fuel initial =
     Some (Raise ConnectionError,
           mk_store 1 [Print (Processing "Tamil Nadu"); Geocode "Tamil Nadu, India"] [])) /\
  (exists st : store,
     run_scrape plain_decimal undeliverable_world 3 initial =
       Some (Raise SMTPAuthenticationError, st) /\
     ~ In (Print (Processing "Karnataka")) (trace st) /\
     ~ In (Print AllStatesCompleted) (trace st)).
Proof.
  split.
  - intros fuel. reflexivity.
  - eexists. split; [vm_compute; reflexivity|].
    split; cbn; intuition discriminate.
Qed.

(** C8, refuted as stated: the directory answers [{"data": null}], a malformed
    list field; the scan of the point records the error [TypeError]. *)
Lemma null_list_field_is_reported :
  let w := directory_world (Response 200 (Some (JObj [("data"%string, JNull)]))) in
  scan_point w "Tamil Nadu" 1 0 (8.0, 76.2)%float initial =
    Some (Ok tt, mk_store 1 [Print (Progress "Tamil Nadu" 1 1 8.0 76.2); Fetch 8.0 76.2;
                             Print (Error TypeError); Sleep 0.4] []).
Proof. reflexivity. Qed.

(** C8, amended: when the directory answers with a JSON object whose list
    field is absent or is the empty list, the point yields no row and no
    error is recorded; when the field is there but cannot be iterated (null, a
    boolean, a number), the point yields no row either, and the error is
    recorded in the trace before the scan goes on. *)
Theorem missing_or_empty_list_is_benign (w : world) (state_name : string) (total i : nat)
    (lat lon : float) (st : store) (status : Z) (d : list (string * json)) :
  chotu w (calls st) lat lon = Response status (Some (JObj d)) ->
  (assoc "data" d = None \/ assoc "data" d = Some (JArr []) ->
   scan_point w state_name total i (lat, lon) st =
     Some (Ok tt, mk_store (S (calls st))
                    (trace st ++ [Print (Progress state_name (i + 1) total lat lon);
                                  Fetch lat lon; Sleep 0.4])
                    (rows st))) /\
  (forall (v : json) (e : exn),
     assoc "data" d = Some v -> iter v = Raise e ->
     scan_point w state_name total i (lat, lon) st =
       Some (Ok tt, mk_store (S (calls st))
                      (trace st ++ [Print (Progress state_name (i + 1) total lat lon);
                                    Fetch lat lon; Print (Error e); Sleep 0.4])
                      (rows st))).
Proof.
  intros Hc. rewrite scan_point_spec.
  unfold point_trace, point_rows, point_error, point_outcome. cbn [fst snd].
  rewrite Hc. cbn [response_json get and_then]. split.
  - intros [-> | ->]; cbn; rewrite app_nil_r; reflexivity.
  - intros v e -> ->. cbn. rewrite app_nil_r. reflexivity.
Qed.

Lemma missing_or_empty_list_is_benign_witness :
  let w := directory_world (Response 200 (Some (JObj [("status"%string, JStr "ok")]))) in
  scan_point w "Tamil Nadu" 1 0 (8.0, 76.2)%float initial =
    Some (Ok tt, mk_store 1 [Print (Progress "Tamil Nadu" 1 1 8.0 76.2); Fetch 8.0 76.2;
                             Sleep 0.4] []).
Proof.
  intros w.
  apply (missing_or_empty_list_is_benign w "Tamil Nadu" 1 0 8.0 76.2 initial 200
           [("status"%string, JStr "ok")] eq_refl).
  left. reflexivity.
Defined.

(** C9: the scan of the grid of a state always ends, and in what it leaves in
    the trace every grid point is requested, in order, each request is
    followed by a pause before the next request and before the end of the
    scan, and there is one pause of 0.4 s per point, failed or not. *)
Theorem scan_always_pauses (w : world) (state_name : string) (total i : nat)
    (pts : list point) (st : store) :
  exists (st' : store) (t : list event),
    scan_points w state_name total i pts st = Some (Ok tt, st') /\
    trace st' = trace st ++ t /\
    fetches t = pts /\
    sleeps t = repeat 0.4%float (List.length pts) /\
    paced false t = true.
Proof.
  rewrite scan_points_spec. eexists. eexists. split; [reflexivity|]. cbn [trace].
  split; [reflexivity|].
  split; [rewrite scan_trace_fetches; apply numbered_snd|].
  split; [|apply scan_trace_paced].
  rewrite scan_trace_sleeps. f_equal.
  rewrite <- (numbered_snd (calls st) pts) at 2. now rewrite length_map.
Qed.

(** C10, refuted as stated: on the box [8.0, 8.0] x [77.0, 76.0], whose
    longitudes are inverted, the positive step [2^-60] is absorbed by the
    latitude ([8.0 + 2^-60 = 8.0]): the outer loop never ends and no grid, empty
    or not, is returned. *)
Lemma generate_grid_inverted_lon_diverges :
  let b := mk_bbox 8.0 8.0 77.0 76.0 in
  PrimFloat.ltb (max_lon b) (min_lon b) = true /\
  PrimFloat.ltb 0 0x1p-60 = true /\
  ~ grid_terminates b 0x1p-60.
Proof.
  intros b. split; [reflexivity|]. split; [reflexivity|].
  intros (fuel & pts & H). unfold generate_grid in H.
  rewrite lat_loop_stuck in H by reflexivity. discriminate H.
Qed.

(** C10, amended: for every inverted bounding box ([min_lat > max_lat] or
    [min_lon > max_lon]) and every step > 0, a grid the generator returns is
    empty; it returns the empty grid at once when [min_lat > max_lat], and in
    any case when the latitude sweep does not absorb the step.  Such a box is
    reachable: the resolver converts the four strings of the provider to
    floats and returns them without comparing them.  A state whose grid is
    empty is carried to its end with no request to the directory and no
    report. *)
Theorem generate_grid_inverted_box (b : bbox) (step : float) :
  PrimFloat.ltb 0 step = true ->
  PrimFloat.ltb (max_lat b) (min_lat b) = true \/
  PrimFloat.ltb (max_lon b) (min_lon b) = true ->
  (forall (fuel : nat) (pts : list point), generate_grid fuel b step = Some pts -> pts = []) /\
  (PrimFloat.ltb (max_lat b) (min_lat b) = true ->
   forall fuel : nat, (1 <= fuel)%nat -> generate_grid fuel b step = Some []) /\
  (never_absorbed (min_lat b) (max_lat b) step ->
   exists fuel : nat,
     forall fuel' : nat, (fuel <= fuel')%nat -> generate_grid fuel' b step = Some []) /\
  (forall (fos : string -> option float) (w : world) (state_name : string) (st : store)
          (status : Z) (d : list (string * json)) (more : list json) (sa sb sc sd : string),
     nominatim w (calls st) (state_name ++ ", India") =
       Response status (Some (JArr (JObj d :: more))) ->
     assoc "boundingbox" d = Some (JArr [JStr sa; JStr sb; JStr sc; JStr sd]) ->
     fos sa = Some (min_lat b) -> fos sb = Some (max_lat b) ->
     fos sc = Some (min_lon b) -> fos sd = Some (max_lon b) ->
     get_state_bbox fos w state_name st =
       Some (Ok (Some b),
             mk_store (S (calls st)) (trace st ++ [Geocode (state_name ++ ", India")])
                      (rows st))) /\
  (forall (fos : string -> option float) (w : world) (fuel : nat) (state_name : string)
          (st st2 : store) (pts : list point),
     get_state_bbox fos w state_name (announced state_name st) = Some (Ok (Some b), st2) ->
     generate_grid fuel b GRID_STEP = Some pts ->
     scrape_state fos w fuel state_name st =
       Some (Ok tt,
             mk_store (calls st2)
                      (trace st2 ++ [Print (GridPoints 0); Print (NoDataFound state_name)])
                      [])).
Proof.
  intros Hs Hinv.
  assert (Empty : forall (s : float) (fuel : nat) (pts : list point),
             generate_grid fuel b s = Some pts -> pts = []).
  { intros s fuel pts H. unfold generate_grid in H.
    destruct (lat_loop_spec _ _ _ _ _ _ H) as (lats & Hlat & Hr).
    destruct Hr as [[_ ->] | (Hne & lons & Hlon & ->)]; [reflexivity|].
    destruct Hinv as [I | I]; apply ltb_not_leb in I.
    - destruct fuel as [| fuel]; [discriminate|].
      rewrite sweep_empty in Hlat by exact I. injection Hlat as <-. now destruct Hne.
    - destruct fuel as [| fuel]; [discriminate|].
      rewrite sweep_empty in Hlon by exact I. injection Hlon as <-.
      now rewrite raw_grid_nil_r. }
  assert (Now : PrimFloat.leb (min_lat b) (max_lat b) = false ->
                forall fuel : nat, (1 <= fuel)%nat -> generate_grid fuel b step = Some []).
  { intros I fuel Hf. apply (generate_grid_mono _ _ 1); [|exact Hf].
    unfold generate_grid. cbn [lat_loop]. now rewrite I. }
  split; [exact (Empty step)|]. split; [|split; [|split]].
  - intros I. apply Now. now apply ltb_not_leb.
  - intros Alat.
    destruct (PrimFloat.leb (min_lat b) (max_lat b)) eqn:L.
    2:{ exists 1%nat. now apply Now. }
    destruct (sweep_terminates _ _ _ Hs Alat _ (leb_refl_of _ _ L)) as (n1 & lats & H1).
    destruct Hinv as [I | I]; apply ltb_not_leb in I; [congruence|].
    pose proof (lat_loop_total b step n1 1 _ lats [] [] H1 (sweep_empty 0 _ _ _ I)) as H.
    rewrite raw_grid_nil_r in H. cbn in H.
    exists (n1 + 1)%nat. intros fuel' Hf. exact (generate_grid_mono _ _ _ _ _ H Hf).
  - intros fos w state_name st status d more sa sb sc sd Hn Hd Ha Hb Hc He.
    rewrite (get_state_bbox_strings fos w state_name st status d more sa sb sc sd
               _ _ _ _ Hn Hd Ha Hb Hc He).
    destruct b; reflexivity.
  - intros fos w fuel state_name st st2 pts Hb Hg.
    rewrite (scrape_state_resolved _ _ _ _ _ _ _ _ Hb Hg).
    rewrite (Empty _ _ _ Hg). cbn. rewrite Nat.add_0_r, <- app_assoc. reflexivity.
Qed.

Lemma generate_grid_inverted_box_witness :
  let b := mk_bbox 13.5 8.0 76.2 80.3 in
  PrimFloat.ltb 0 GRID_STEP = true /\
  PrimFloat.ltb (max_lat b) (min_lat b) = true /\
  generate_grid 1 b GRID_STEP = Some [] /\
  get_state_bbox plain_decimal inverted_world "Tamil Nadu" initial =
    Some (Ok (Some b), mk_store 1 [Geocode "Tamil Nadu, India"] []) /\
  scrape_state plain_decimal inverted_world 1 "Tamil Nadu" initial =
    Some (Ok tt, mk_store 1 [Print (Processing "Tamil Nadu"); Geocode "Tamil Nadu, India";
                             Print (GridPoints 0); Print (NoDataFound "Tamil Nadu")] []).
Proof.
  intros b.
  destruct (generate_grid_inverted_box b GRID_STEP eq_refl (or_introl eq_refl))
    as (_ & Hnow & _ & Hget & Hrun).
  split; [reflexivity|]. split; [reflexivity|].
  split; [apply Hnow; [reflexivity | lia]|].
  split.
  - apply (Hget plain_decimal inverted_world "Tamil Nadu" initial 200
             [("boundingbox"%string, JArr (map JStr ["13.5"; "8.0"; "76.2"; "80.3"]%string))]
             [] "13.5" "8.0" "76.2" "80.3")%string; reflexivity.
  - apply (Hrun plain_decimal inverted_world 1%nat "Tamil Nadu"%string initial
             (mk_store 1 [Print (Processing "Tamil Nadu"); Geocode "Tamil Nadu, India"] [])
             []); reflexivity.
Defined.

(** * Further properties *)

(** ** Steps that are not positive *)

Module F64More.
Import F64 F64Facts.

Lemma eqb_iff (x y : float) :
  PrimFloat.eqb x y = true <-> fnan x = false /\ fnan y = false /\ frank x = frank y.
Proof.
  rewrite eqb_spec. unfold SFeqb.
  destruct (compare_cases x y) as [(Nx & Ny & E) | ([N | N] & E)]; rewrite E.
  - destruct (Z.compare_spec (frank x) (frank y)); split; intros G;
      try discriminate; try (repeat split; auto; lia); try (exfalso; lia).
  - split; [discriminate | intros (H & _); congruence].
  - split; [discriminate | intros (_ & H & _); congruence].
Qed.

Lemma rank_zero_inv (x : spec_float) :
  valid_binary x = true -> is_nan x = false -> rank x = 0 -> exists s : bool, x = S754_zero s.
Proof.
  intros V N R. destruct x as [s | s | | s m e]; try discriminate N.
  - now exists s.
  - cbn [rank] in R. destruct s; vm_compute in R; discriminate R.
  - pose proof (valid_finite_rank _ _ _ V). cbn [rank] in R. destruct s; lia.
Qed.

Lemma rank_opp (x : spec_float) : rank (SFopp x) = - rank x.
Proof. destruct x as [s | s | | s m e]; cbn [SFopp rank negb]; try destruct s; cbn; lia. Qed.

Lemma is_nan_opp (x : spec_float) : is_nan (SFopp x) = is_nan x.
Proof. destruct x; reflexivity. Qed.

(** The sign of a rounded number is the one it was given. *)
Lemma binary_round_opp (w : positive) (e : Z) :
  binary_round prec emax true w e = SFopp (binary_round prec emax false w e).
Proof.
  unfold binary_round.
  destruct (shl_align w e (fexp prec emax (Z.pos (digits2_pos w) + e))) as [mz ez].
  unfold binary_round_aux.
  destruct (shr_fexp prec emax (Z.pos mz) ez loc_Exact) as [mrs' e'].
  destruct (shr_fexp prec emax (round_nearest_even (shr_m mrs') (loc_of_shr_record mrs'))
              e' loc_Exact) as [mrs'' e''].
  destruct (shr_m mrs'') as [| p | p]; try reflexivity.
  destruct (e'' <=? emax - prec); reflexivity.
Qed.

Lemma binary_normalize_opp (z e : Z) :
  rank (binary_normalize prec emax (- z) e false) = - rank (binary_normalize prec emax z e false) /\
  is_nan (binary_normalize prec emax (- z) e false) = is_nan (binary_normalize prec emax z e false).
Proof.
  destruct z as [| w | w]; cbn [Z.opp binary_normalize].
  - split; reflexivity.
  - rewrite binary_round_opp, rank_opp, is_nan_opp. split; reflexivity.
  - rewrite binary_round_opp, rank_opp, is_nan_opp. split; [lia | reflexivity].
Qed.

(** Negating both operands negates the sum, up to the sign of a zero. *)
Lemma SFadd_opp (x y : spec_float) :
  rank (SF64add (SFopp x) (SFopp y)) = - rank (SF64add x y) /\
  is_nan (SF64add (SFopp x) (SFopp y)) = is_nan (SF64add x y).
Proof.
  unfold SF64add.
  destruct x as [sx | sx | | sx mx ex]; destruct y as [sy | sy | | sy my ey];
    cbn [SFopp SFadd]; try (split; reflexivity);
    try (destruct sx; destruct sy; cbn; split; reflexivity);
    try (destruct sx; cbn; split; reflexivity);
    try (destruct sy; cbn; split; reflexivity).
  - change (S754_finite (negb sy) my ey) with (SFopp (S754_finite sy my ey)).
    rewrite rank_opp, is_nan_opp. split; reflexivity.
  - change (S754_finite (negb sx) mx ex) with (SFopp (S754_finite sx mx ex)).
    rewrite rank_opp, is_nan_opp. split; reflexivity.
  - replace (cond_Zopp (negb sx) (Z.pos (fst (shl_align mx ex (Z.min ex ey)))) +
           cond_Zopp (negb sy) (Z.pos (fst (shl_align my ey (Z.min ex ey)))))
    with (- (cond_Zopp sx (Z.pos (fst (shl_align mx ex (Z.min ex ey)))) +
             cond_Zopp sy (Z.pos (fst (shl_align my ey (Z.min ex ey))))))
      by (destruct sx; destruct sy; cbn [negb cond_Zopp]; lia).
    apply binary_normalize_opp.
Qed.

Lemma frank_opp (x : float) : frank (PrimFloat.opp x) = - frank x.
Proof. unfold frank. rewrite opp_spec. apply rank_opp. Qed.

Lemma fnan_opp (x : float) : fnan (PrimFloat.opp x) = fnan x.
Proof. unfold fnan. rewrite opp_spec. apply is_nan_opp. Qed.

Lemma add_opp (x y : float) :
  frank (PrimFloat.add (PrimFloat.opp x) (PrimFloat.opp y)) = - frank (PrimFloat.add x y) /\
  fnan (PrimFloat.add (PrimFloat.opp x) (PrimFloat.opp y)) = fnan (PrimFloat.add x y).
Proof. unfold frank, fnan. rewrite !add_spec, !opp_spec. apply SFadd_opp. Qed.

(** Adding a negative number never yields a larger one. *)
Lemma add_nonincreasing (x step : float) :
  PrimFloat.ltb step 0 = true -> fnan x = false -> fnan (PrimFloat.add x step) = false ->
  frank (PrimFloat.add x step) <= frank x.
Proof.
  intros Hs Nx Na. destruct (add_opp x step) as [R N].
  apply ltb_iff in Hs. destruct Hs as (Ns & _ & Hs). change (frank 0) with 0 in Hs.
  assert (L : PrimFloat.leb (PrimFloat.opp x)
                (PrimFloat.add (PrimFloat.opp x) (PrimFloat.opp step)) = true).
  { apply add_nondecreasing.
    - apply ltb_iff. rewrite fnan_opp, frank_opp. change (frank 0) with 0.
      repeat split; auto; lia.
    - now rewrite fnan_opp.
    - now rewrite N. }
  apply leb_iff in L. destruct L as (_ & _ & L). rewrite R, frank_opp in L. lia.
Qed.

(** Adding a zero does not move a number. *)
Lemma add_zero_rank (x step : float) :
  PrimFloat.eqb step 0 = true -> fnan x = false ->
  fnan (PrimFloat.add x step) = false /\ frank (PrimFloat.add x step) = frank x.
Proof.
  intros Hs Nx. apply eqb_iff in Hs. destruct Hs as (Ns & _ & Hs). change (frank 0) with 0 in Hs.
  unfold frank, fnan in *. rewrite add_spec.
  destruct (rank_zero_inv _ (Prim2SF_valid step) Ns Hs) as (s & ->).
  unfold SF64add.
  destruct (Prim2SF x) as [sx | sx | | sx mx ex]; try discriminate Nx; cbn [SFadd].
  - destruct sx; destruct s; split; reflexivity.
  - split; reflexivity.
  - split; reflexivity.
Qed.

(** A finite number added to a number gives a number. *)
Lemma add_finite_not_nan (x step : float) :
  PrimFloat.ltb neg_infinity step = true -> PrimFloat.ltb step infinity = true ->
  fnan x = false -> fnan (PrimFloat.add x step) = false.
Proof.
  intros Hlo Hhi Nx.
  apply ltb_iff in Hlo. destruct Hlo as (_ & Ns & Hlo).
  apply ltb_iff in Hhi. destruct Hhi as (_ & _ & Hhi).
  change (frank neg_infinity) with (- 2 ^ 64) in Hlo.
  change (frank infinity) with (2 ^ 64) in Hhi.
  pose proof (Prim2SF_valid x) as Vx. pose proof (Prim2SF_valid step) as Vs.
  unfold frank, fnan in *. rewrite add_spec. unfold SF64add.
  destruct (Prim2SF x) as [sx | sx | | sx mx ex]; try discriminate Nx;
  destruct (Prim2SF step) as [sy | sy | | sy my ey]; try discriminate Ns;
    cbn [SFadd]; try reflexivity;
    try (destruct sx; destruct sy; reflexivity);
    try (cbn [rank] in Hlo, Hhi; destruct sy; lia).
  pose proof (bounded_inv _ _ Vx) as (Ex & _). pose proof (bounded_inv _ _ Vs) as (Ey & _).
  destruct (cond_Zopp sx (Z.pos (fst (shl_align mx ex (Z.min ex ey)))) +
            cond_Zopp sy (Z.pos (fst (shl_align my ey (Z.min ex ey))))) as [| z | z];
    cbn [binary_normalize]; [reflexivity | |].
  - destruct (binary_round_spec false z (Z.min ex ey) ltac:(lia)) as (m1 & _ & _ & _ & Hr).
    destruct Hr as [[_ ->] | (_ & p & e & _ & _ & _ & ->)]; [reflexivity|].
    destruct (e <=? 971); reflexivity.
  - destruct (binary_round_spec true z (Z.min ex ey) ltac:(lia)) as (m1 & _ & _ & _ & Hr).
    destruct Hr as [[_ ->] | (_ & p & e & _ & _ & _ & ->)]; [reflexivity|].
    destruct (e <=? 971); reflexivity.
Qed.

(** A finite step that is not positive never moves a number up. *)
Lemma add_nonpositive (x step : float) :
  PrimFloat.leb step 0 = true -> PrimFloat.ltb neg_infinity step = true ->
  fnan x = false ->
  fnan (PrimFloat.add x step) = false /\ frank (PrimFloat.add x step) <= frank x.
Proof.
  intros Hs Hfin Nx.
  assert (Hhi : PrimFloat.ltb step infinity = true).
  { apply leb_iff in Hs. destruct Hs as (Ns & _ & Hs). change (frank 0) with 0 in Hs.
    apply ltb_iff. change (frank infinity) with (2 ^ 64). repeat split; auto.
    change (2 ^ 64) with 18446744073709551616. lia. }
  pose proof (add_finite_not_nan x step Hfin Hhi Nx) as Na. split; [exact Na|].
  apply leb_iff in Hs. destruct Hs as (Ns & _ & Hs). change (frank 0) with 0 in Hs.
  destruct (Z.eq_dec (frank step) 0) as [E | NE].
  - assert (Hz : PrimFloat.eqb step 0 = true) by (apply eqb_iff; auto).
    destruct (add_zero_rank x step Hz Nx) as [_ ->]. lia.
  - apply add_nonincreasing; auto. apply ltb_iff. change (frank 0) with 0.
    repeat split; auto. lia.
Qed.

End F64More.

(** ** The shape of the grid *)

Module GridMore.
Import F64 F64Facts F64More GridFacts.

Lemma sweep_nth (n : nat) (hi step x : float) (l : list float) (i : nat) (y : float) :
  sweep n hi step x = Some l -> nth_error l i = Some y -> y = iter_add i step x.
Proof.
  revert x l i. induction n as [| n IH]; intros x l i H; [discriminate|].
  rewrite sweep_S in H. destruct (PrimFloat.leb x hi).
  - destruct (sweep n hi step (PrimFloat.add x step)) as [l'|] eqn:E; [|discriminate].
    injection H as <-. destruct i as [| i]; cbn [nth_error iter_add].
    + intros Hy. now injection Hy as <-.
    + apply (IH _ _ _ E).
  - injection H as <-. destruct i; discriminate.
Qed.

Lemma raw_grid_length (lats lons : list float) :
  List.length (raw_grid lats lons) = (List.length lats * List.length lons)%nat.
Proof.
  unfold raw_grid. induction lats as [| a lats IH]; [reflexivity|].
  cbn [flat_map List.length Nat.mul]. rewrite length_app, length_map.
  f_equal. exact IH.
Qed.

Lemma raw_grid_nth (lats lons : list float) (i j : nat) (lat lon : float) :
  nth_error lats i = Some lat -> nth_error lons j = Some lon ->
  nth_error (raw_grid lats lons) (i * List.length lons + j) = Some (lat, lon).
Proof.
  unfold raw_grid.
  revert i. induction lats as [| a lats IH]; intros i Hi Hj; [destruct i; discriminate|].
  cbn [flat_map].
  assert (Hlt : (j < List.length lons)%nat) by (apply nth_error_Some; congruence).
  destruct i as [| i]; cbn [nth_error] in Hi.
  - injection Hi as ->. cbn [Nat.mul Nat.add].
    rewrite nth_error_app1 by (rewrite length_map; exact Hlt).
    rewrite nth_error_map, Hj. reflexivity.
  - rewrite nth_error_app2 by (rewrite length_map; lia).
    rewrite length_map.
    replace (S i * List.length lons + j - List.length lons)%nat
      with (i * List.length lons + j)%nat by lia.
    now apply IH.
Qed.

(** A sweep never ends when the step is finite and not positive. *)
Lemma sweep_nonpositive (hi step : float) (n : nat) (x : float) :
  PrimFloat.leb step 0 = true -> PrimFloat.ltb neg_infinity step = true ->
  PrimFloat.leb x hi = true -> sweep n hi step x = None.
Proof.
  intros Hs Hfin. revert x. induction n as [| n IH]; intros x L; [reflexivity|].
  rewrite sweep_S, L. rewrite IH; [reflexivity|].
  apply leb_iff in L. destruct L as (Nx & Nh & L).
  destruct (add_nonpositive x step Hs Hfin Nx) as [Na R].
  apply leb_iff. repeat split; auto. lia.
Qed.

(** The sum with NaN is NaN, which is below nothing. *)
Lemma add_nan_not_leb (x step hi : float) :
  fnan step = true -> PrimFloat.leb (PrimFloat.add x step) hi = false.
Proof.
  intros Ns. destruct (PrimFloat.leb (PrimFloat.add x step) hi) eqn:L; [|reflexivity].
  apply leb_iff in L. destruct L as (Na & _). exfalso.
  unfold fnan in *. rewrite add_spec in Na. apply is_nan_true in Ns. rewrite Ns in Na.
  unfold SF64add in Na. destruct (Prim2SF x); discriminate Na.
Qed.

End GridMore.

Import F64More GridMore.

(** X1: the grid is a regular lattice.  A grid the generator returns has
    [n_lat * n_lon] points, and the point of row [i] and column [j], at index
    [i * n_lon + j], is the rounding of the latitude reached after [i]
    additions of the step from [min_lat] and of the longitude reached after
    [j] additions from [min_lon]: every row holds the same longitudes. *)
Theorem generate_grid_lattice (b : bbox) (step : float) (fuel : nat) (pts : list point) :
  generate_grid fuel b step = Some pts ->
  exists n_lat n_lon : nat,
    List.length pts = (n_lat * n_lon)%nat /\
    forall i j : nat, (i < n_lat)%nat -> (j < n_lon)%nat ->
      nth_error pts (i * n_lon + j) =
      Some (round4 (iter_add i step (min_lat b)), round4 (iter_add j step (min_lon b))).
Proof.
  intros H. unfold generate_grid in H.
  destruct (lat_loop_spec _ _ _ _ _ _ H) as (lats & Hlat & Hr).
  destruct Hr as [[-> ->] | (_ & lons & Hlon & ->)].
  { exists 0%nat, 0%nat. split; [reflexivity|]. intros i j Hi. lia. }
  exists (List.length lats), (List.length lons). cbn [app].
  split; [rewrite length_map; apply raw_grid_length|].
  intros i j Hi Hj.
  destruct (nth_error lats i) as [lat|] eqn:Ei; [|apply nth_error_None in Ei; lia].
  destruct (nth_error lons j) as [lon|] eqn:Ej; [|apply nth_error_None in Ej; lia].
  rewrite nth_error_map, (raw_grid_nth _ _ _ _ _ _ Ei Ej). cbn [option_map].
  unfold round_point. cbn [fst snd].
  rewrite (sweep_nth _ _ _ _ _ _ _ Hlat Ei), (sweep_nth _ _ _ _ _ _ _ Hlon Ej). reflexivity.
Qed.

Lemma generate_grid_lattice_witness :
  exists n_lat n_lon : nat,
    List.length [(8.0, 76.2); (8.0, 76.5); (8.3, 76.2); (8.3, 76.5)]%float
      = (n_lat * n_lon)%nat /\
    forall i j : nat, (i < n_lat)%nat -> (j < n_lon)%nat ->
      nth_error [(8.0, 76.2); (8.0, 76.5); (8.3, 76.2); (8.3, 76.5)]%float (i * n_lon + j) =
      Some (round4 (iter_add i GRID_STEP 8.0), round4 (iter_add j GRID_STEP 76.2)).
Proof.
  apply (generate_grid_lattice (mk_bbox 8.0 8.5 76.2 76.7) GRID_STEP 5).
  vm_compute. reflexivity.
Defined.

(** X2: the step must be positive.  On a valid box, with a finite step that
    is zero or negative, the inner loop never leaves the box and the generator
    never returns. *)
Theorem generate_grid_nonpositive_step_diverges (b : bbox) (step : float) :
  valid_bbox b ->
  PrimFloat.leb step 0 = true -> PrimFloat.ltb neg_infinity step = true ->
  forall fuel : nat, generate_grid fuel b step = None.
Proof.
  intros [Vlat Vlon] Hs Hfin fuel. unfold generate_grid.
  destruct fuel as [| fuel]; [reflexivity|].
  cbn [lat_loop]. rewrite Vlat, lon_loop_sweep.
  rewrite (sweep_nonpositive _ _ fuel _ Hs Hfin Vlon). reflexivity.
Qed.

Lemma generate_grid_nonpositive_step_diverges_witness :
  valid_bbox tamil_nadu_box /\ PrimFloat.leb (-0.3) 0 = true /\
  PrimFloat.ltb neg_infinity (-0.3) = true /\
  forall fuel : nat, generate_grid fuel tamil_nadu_box (-0.3) = None.
Proof.
  split; [split; reflexivity|]. split; [reflexivity|]. split; [reflexivity|].
  apply generate_grid_nonpositive_step_diverges; [split; reflexivity | reflexivity | reflexivity].
Defined.

(** X3: with a step that is NaN, a valid box gives its rounded minimum corner
    and nothing else: both loop variables become NaN after one round, and NaN
    passes no comparison. *)
Theorem generate_grid_nan_step (b : bbox) (step : float) :
  valid_bbox b -> fnan step = true ->
  forall fuel : nat, (3 <= fuel)%nat ->
  generate_grid fuel b step = Some [(round4 (min_lat b), round4 (min_lon b))].
Proof.
  intros [Vlat Vlon] Ns fuel Hf.
  apply (generate_grid_mono _ _ 3); [|exact Hf].
  unfold generate_grid. cbn [lat_loop lon_loop].
  rewrite Vlat, Vlon, !add_nan_not_leb by exact Ns. reflexivity.
Qed.

Lemma generate_grid_nan_step_witness :
  valid_bbox tamil_nadu_box /\ fnan nan = true /\
  generate_grid 3 tamil_nadu_box nan = Some [(8.0, 76.2)%float].
Proof.
  split; [split; reflexivity|]. split; [reflexivity|].
  apply (generate_grid_nan_step tamil_nadu_box nan); [split; reflexivity | reflexivity | lia].
Defined.

(** ** The resolver *)

Module ScrapeMore.
Import ScrapeFacts.

Section Resolver.
Variable fos : string -> option float.
Variable w : world.

(** One request, whatever the answer; [None] only for an empty answer. *)
Lemma get_state_bbox_call (state_name : string) (st : store) :
  exists r : result (option bbox),
    get_state_bbox fos w state_name st =
      Some (r, mk_store (S (calls st))
                        (trace st ++ [Geocode (state_name ++ ", India")]) (rows st)) /\
    match response_json (nominatim w (calls st) (state_name ++ ", India")) with
    | Raise e => r = Raise e
    | Ok data =>
        if truthy data then (exists e, r = Raise e) \/ (exists b, r = Ok (Some b))
        else r = Ok None
    end.
Proof.
  unfold get_state_bbox. unfold bind at 1. unfold call at 1. cbn [calls trace rows].
  unfold bind at 1. unfold lift at 1.
  destruct (response_json (nominatim w (calls st) (state_name ++ ", India"))) as [data | e].
  2:{ eexists. split; reflexivity. }
  destruct (truthy data); cbn [negb].
  2:{ eexists. split; reflexivity. }
  unfold bind, lift, ret.
  destruct (and_then (item data 0) (fun x => field x "boundingbox")) as [bb | e].
  2:{ eexists. split; [reflexivity | left; eexists; reflexivity]. }
  destruct (and_then (item bb 0) (to_float fos)) as [a | e].
  2:{ eexists. split; [reflexivity | left; eexists; reflexivity]. }
  destruct (and_then (item bb 1) (to_float fos)) as [b | e].
  2:{ eexists. split; [reflexivity | left; eexists; reflexivity]. }
  destruct (and_then (item bb 2) (to_float fos)) as [c | e].
  2:{ eexists. split; [reflexivity | left; eexists; reflexivity]. }
  destruct (and_then (item bb 3) (to_float fos)) as [d | e].
  2:{ eexists. split; [reflexivity | left; eexists; reflexivity]. }
  eexists. split; [reflexivity | right; eexists; reflexivity].
Qed.

End Resolver.

End ScrapeMore.

Import ScrapeMore.

(** X4: the resolver makes exactly one request, whatever the answer, and
    leaves the rows alone; it returns [None] exactly when the provider sent a
    JSON body that is empty (an empty list, or any other value Python takes
    for false): a failure of the network or a malformed answer is never
    reported as "not found". *)
Theorem get_state_bbox_none_iff_empty (fos : string -> option float) (w : world)
    (state_name : string) (st : store) :
  exists r : result (option bbox),
    get_state_bbox fos w state_name st =
      Some (r, mk_store (S (calls st))
                        (trace st ++ [Geocode (state_name ++ ", India")]) (rows st)) /\
    (r = Ok None <->
     exists (status : Z) (data : json),
       nominatim w (calls st) (state_name ++ ", India") = Response status (Some data) /\
       truthy data = false).
Proof.
  destruct (get_state_bbox_call fos w state_name st) as (r & Hr & Hc).
  exists r. split; [exact Hr|].
  destruct (nominatim w (calls st) (state_name ++ ", India")) as [| | status [data |]];
    cbn [response_json] in Hc.
  - subst r. split; [discriminate | intros (? & ? & H & _); discriminate H].
  - subst r. split; [discriminate | intros (? & ? & H & _); discriminate H].
  - destruct (truthy data) eqn:T.
    + split.
      * intros ->. destruct Hc as [(e & H) | (b & H)]; discriminate H.
      * intros (s' & d' & H & T'). injection H as _ <-. congruence.
    + subst r. split; [|reflexivity]. intros _. now exists status, data.
  - subst r. split; [discriminate | intros (? & ? & H & _); discriminate H].
Qed.

(** X5: what a malformed answer of the provider does to the resolver.  A JSON
    object instead of a list of matches, or a first match without the key
    ["boundingbox"], raises [KeyError]; an empty list of bounds raises
    [IndexError]; four strings of which one is not a number raise
    [ValueError].  None of them is caught in [run_scrape]. *)
Theorem get_state_bbox_malformed (fos : string -> option float) (w : world)
    (state_name : string) (st : store) (status : Z) (data : json) :
  nominatim w (calls st) (state_name ++ ", India") = Response status (Some data) ->
  let after := mk_store (S (calls st)) (trace st ++ [Geocode (state_name ++ ", India")])
                        (rows st) in
  (forall (kv : string * json) (d : list (string * json)),
     data = JObj (kv :: d) ->
     get_state_bbox fos w state_name st = Some (Raise KeyError, after)) /\
  (forall (d : list (string * json)) (more : list json),
     data = JArr (JObj d :: more) -> assoc "boundingbox" d = None ->
     get_state_bbox fos w state_name st = Some (Raise KeyError, after)) /\
  (forall (d : list (string * json)) (more : list json),
     data = JArr (JObj d :: more) -> assoc "boundingbox" d = Some (JArr []) ->
     get_state_bbox fos w state_name st = Some (Raise IndexError, after)) /\
  (forall (d : list (string * json)) (more : list json) (sa sb sc sd : string),
     data = JArr (JObj d :: more) ->
     assoc "boundingbox" d = Some (JArr [JStr sa; JStr sb; JStr sc; JStr sd]) ->
     fos sa = None \/ fos sb = None \/ fos sc = None \/ fos sd = None ->
     get_state_bbox fos w state_name st = Some (Raise ValueError, after)).
Proof.
  intros Hn after.
  assert (E : forall k : json -> M (option bbox),
             bind (call (Geocode (state_name ++ ", India"))
                        (fun n => nominatim w n (state_name ++ ", India")))
                  (fun o => bind (lift (response_json o)) k) st
             = k data after).
  { intros k. unfold bind, call, lift. cbn [calls trace rows]. rewrite Hn. reflexivity. }
  unfold get_state_bbox. rewrite E. unfold bind, lift, ret.
  split; [|split; [|split]].
  - intros kv d ->. reflexivity.
  - intros d more -> Hd. cbn [truthy negb item nth_error and_then field]. now rewrite Hd.
  - intros d more -> Hd. cbn [truthy negb item nth_error and_then field]. now rewrite Hd.
  - intros d more sa sb sc sd -> Hd Hbad.
    cbn [truthy negb item nth_error and_then field]. rewrite Hd.
    cbn [item nth_error and_then to_float].
    destruct (fos sa); [|reflexivity]. destruct (fos sb); [|reflexivity].
    destruct (fos sc); [|reflexivity]. destruct (fos sd); [|reflexivity].
    exfalso. destruct Hbad as [H | [H | [H | H]]]; discriminate H.
Qed.

Lemma get_state_bbox_malformed_witness :
  let w := mk_world (fun _ _ => Response 200 (Some (JObj [("error"%string,
                                                             JStr "Unable to geocode")])))
                    (fun _ _ _ => Unreachable) (fun _ _ _ => None) (fun _ _ => None) in
  get_state_bbox plain_decimal w "Tamil Nadu" initial =
    Some (Raise KeyError, mk_store 1 [Geocode "Tamil Nadu, India"] []).
Proof.
  intros w.
  destruct (get_state_bbox_malformed plain_decimal w "Tamil Nadu" initial 200
              (JObj [("error"%string, JStr "Unable to geocode")]) eq_refl) as (H & _).
  apply (H ("error"%string, JStr "Unable to geocode") []). reflexivity.
Defined.

(** X6: a state the provider does not know is skipped.  When the answer to
    the geocoding request is an empty JSON value, the state ends normally
    after the notice "Could not fetch bounding box": no request to the
    directory, no pause, no report, and the rows are left as they were. *)
Theorem scrape_state_not_found (fos : string -> option float) (w : world) (fuel : nat)
    (state_name : string) (st : store) (status : Z) (data : json) :
  nominatim w (calls st) (state_name ++ ", India") = Response status (Some data) ->
  truthy data = false ->
  scrape_state fos w fuel state_name st =
    Some (Ok tt,
          mk_store (S (calls st))
                   (trace st ++ [Print (Processing state_name);
                                 Geocode (state_name ++ ", India");
                                 Print CouldNotFetchBoundingBox])
                   (rows st)).
Proof.
  intros Hn Ht. unfold scrape_state.
  unfold bind at 1. unfold emit at 1.
  unfold bind at 1. unfold get_state_bbox.
  unfold bind at 1. unfold call at 1. cbn [calls trace rows]. rewrite Hn.
  unfold bind at 1. unfold lift at 1. cbn [response_json]. rewrite Ht. cbn [negb].
  unfold ret, emit. cbn [calls trace rows]. rewrite <- !app_assoc. reflexivity.
Qed.

Lemma scrape_state_not_found_witness :
  let w := mk_world (fun _ _ => Response 200 (Some (JArr [])))
                    (fun _ _ _ => Unreachable) (fun _ _ _ => None) (fun _ _ => None) in
  scrape_state plain_decimal w 0 "Atlantis" initial =
    Some (Ok tt, mk_store 1 [Print (Processing "Atlantis"); Geocode "Atlantis, India";
                             Print CouldNotFetchBoundingBox] []).
Proof.
  intros w.
  apply (scrape_state_not_found plain_decimal w 0 "Atlantis" initial 200 (JArr []));
    reflexivity.
Defined.

(** ** The rows of a grid point *)

Module RowFacts.
Import ScrapeFacts.

Lemma make_row_dict (state_name : string) (lat lon : float) (d : list (string * json)) :
  make_row state_name lat lon (JObj d) = Ok (row_of_dict state_name lat lon d).
Proof. reflexivity. Qed.

Lemma make_row_not_dict (state_name : string) (lat lon : float) (v : json) :
  is_dict v = false -> make_row state_name lat lon v = Raise AttributeError.
Proof. destruct v; try reflexivity. discriminate. Qed.

Lemma rows_of_entries_cut (state_name : string) (lat lon : float)
    (ds : list (list (string * json))) (bad : json) (rest : list json) :
  is_dict bad = false ->
  rows_of_entries state_name lat lon (map JObj ds ++ bad :: rest) =
  (map (row_of_dict state_name lat lon) ds, Some AttributeError).
Proof.
  intros Hb. induction ds as [| d ds IH]; cbn [map app rows_of_entries].
  - now rewrite make_row_not_dict.
  - rewrite make_row_dict, IH. reflexivity.
Qed.

Lemma rows_of_entries_dicts (state_name : string) (lat lon : float)
    (ds : list (list (string * json))) :
  rows_of_entries state_name lat lon (map JObj ds) =
  (map (row_of_dict state_name lat lon) ds, None).
Proof.
  induction ds as [| d ds IH]; cbn [map rows_of_entries]; [reflexivity|].
  rewrite make_row_dict, IH. reflexivity.
Qed.

Lemma rows_of_entries_provenance (state_name : string) (lat lon : float)
    (entries : list json) (r : row) :
  In r (fst (rows_of_entries state_name lat lon entries)) ->
  state r = state_name /\ scan_lat r = lat /\ scan_lon r = lon.
Proof.
  induction entries as [| biz rest IH]; cbn [rows_of_entries]; [intros []|].
  destruct biz as [| | | | | | d]; try (intros []).
  rewrite make_row_dict. destruct (rows_of_entries state_name lat lon rest) as [rs e].
  cbn [fst] in *. intros [<- | Hin]; [now repeat split | now apply IH].
Qed.

Lemma point_rows_provenance (w : world) (state_name : string) (kp : nat * point) (r : row) :
  In r (point_rows w state_name kp) ->
  state r = state_name /\ (scan_lat r, scan_lon r) = snd kp.
Proof.
  unfold point_rows, point_outcome. destruct kp as [k [lat lon]]. cbn [fst snd].
  destruct (response_json (chotu w k lat lon)) as [data | e]; [|intros []].
  destruct (and_then (get data "data" (JArr [])) iter) as [entries | e]; [|intros []].
  intros Hin. destruct (rows_of_entries_provenance _ _ _ _ _ Hin) as (H1 & H2 & H3).
  split; [exact H1 | congruence].
Qed.

Lemma announcements_app (t1 t2 : list event) :
  announcements (t1 ++ t2) = announcements t1 ++ announcements t2.
Proof.
  induction t1 as [| ev t1 IH]; [reflexivity|].
  destruct ev as [[] | | | |]; cbn; rewrite ?IH; reflexivity.
Qed.

Lemma emails_app (t1 t2 : list event) : emails (t1 ++ t2) = emails t1 ++ emails t2.
Proof.
  induction t1 as [| ev t1 IH]; [reflexivity|].
  destruct ev; cbn; rewrite ?IH; reflexivity.
Qed.

Lemma errors_app (t1 t2 : list event) : errors (t1 ++ t2) = errors t1 ++ errors t2.
Proof.
  induction t1 as [| ev t1 IH]; [reflexivity|].
  destruct ev as [[] | | | |]; cbn; rewrite ?IH; reflexivity.
Qed.

(** What a scan leaves in the trace holds no announcement of a state, no
    report and no final message. *)
Lemma scan_trace_quiet (w : world) (state_name : string) (total i : nat)
    (kps : list (nat * point)) :
  announcements (scan_trace w state_name total i kps) = [] /\
  emails (scan_trace w state_name total i kps) = [] /\
  ~ In (Print AllStatesCompleted) (scan_trace w state_name total i kps).
Proof.
  revert i. induction kps as [| kp rest IH]; intros i; cbn [scan_trace].
  - repeat split. intros [].
  - destruct (IH (S i)) as (A & E & F).
    rewrite announcements_app, emails_app, A, E. unfold point_trace.
    destruct (point_error w state_name kp); cbn; repeat split;
      intros H; repeat (destruct H as [H | H]; [discriminate H|]);
      apply in_app_or in H || idtac; try tauto.
Qed.

Lemma scan_trace_errors_all (w : world) (state_name : string) (total i : nat)
    (kps : list (nat * point)) :
  (forall kp, In kp kps -> exists e, fetched w kp = Raise e) ->
  List.length (errors (scan_trace w state_name total i kps)) = List.length kps /\
  flat_map (point_rows w state_name) kps = [].
Proof.
  revert i. induction kps as [| kp rest IH]; intros i Hall; [split; reflexivity|].
  destruct (Hall kp (or_introl eq_refl)) as (e & He).
  destruct (failed_fetch w state_name kp e He) as [Hr Hp].
  destruct (IH (S i) (fun kp' H => Hall kp' (or_intror H))) as [IH1 IH2].
  cbn [scan_trace flat_map]. rewrite errors_app, Hr, IH2. unfold point_trace. rewrite Hp.
  cbn. rewrite IH1. split; reflexivity.
Qed.

End RowFacts.

Import RowFacts.

(** X7: one row per business, in order.  When the directory answers with an
    object whose list field is a list of dictionaries, the point appends one
    row per dictionary, in the order of the list, tagged with the state and the
    point; each of the six fields is the entry of the dictionary for its key,
    [None] when there is none; no error is recorded. *)
Theorem scan_point_rows_of_dicts (w : world) (state_name : string) (total i : nat)
    (lat lon : float) (st : store) (status : Z) (d : list (string * json))
    (ds : list (list (string * json))) :
  chotu w (calls st) lat lon = Response status (Some (JObj d)) ->
  assoc "data" d = Some (JArr (map JObj ds)) ->
  scan_point w state_name total i (lat, lon) st =
    Some (Ok tt,
          mk_store (S (calls st))
                   (trace st ++ [Print (Progress state_name (i + 1) total lat lon);
                                 Fetch lat lon; Sleep 0.4])
                   (rows st ++ map (row_of_dict state_name lat lon) ds)).
Proof.
  intros Hc Hd. rewrite scan_point_spec.
  unfold point_trace, point_rows, point_error, point_outcome. cbn [fst snd].
  rewrite Hc. cbn [response_json get and_then]. rewrite Hd. cbn [iter].
  rewrite rows_of_entries_dicts. reflexivity.
Qed.

Lemma scan_point_rows_of_dicts_witness :
  scan_point friendly_world "Tamil Nadu" 1 0 (8.0, 76.2)%float initial =
    Some (Ok tt,
          mk_store 1 [Print (Progress "Tamil Nadu" 1 1 8.0 76.2); Fetch 8.0 76.2; Sleep 0.4]
            [mk_row "Tamil Nadu" 8.0 76.2 (JStr "Sri Balaji Stationery") JNull JNull
                    (JStr "0000000000") JNull JNull]).
Proof.
  apply (scan_point_rows_of_dicts friendly_world "Tamil Nadu" 1 0 8.0 76.2 initial 200
           [("data"%string,
             JArr [JObj [("name"%string, JStr "Sri Balaji Stationery");
                         ("phone"%string, JStr "0000000000")]])]
           [[("name"%string, JStr "Sri Balaji Stationery");
             ("phone"%string, JStr "0000000000")]]);
    reflexivity.
Defined.

(** X8: an entry that is not a dictionary cuts the point short.  The rows of
    the dictionaries before it are kept, [AttributeError] is recorded, and the
    entries after it are never looked at, dictionaries or not. *)
Theorem scan_point_cut_at_bad_entry (w : world) (state_name : string) (total i : nat)
    (lat lon : float) (st : store) (status : Z) (d : list (string * json))
    (ds : list (list (string * json))) (bad : json) (rest : list json) :
  chotu w (calls st) lat lon = Response status (Some (JObj d)) ->
  assoc "data" d = Some (JArr (map JObj ds ++ bad :: rest)) ->
  is_dict bad = false ->
  scan_point w state_name total i (lat, lon) st =
    Some (Ok tt,
          mk_store (S (calls st))
                   (trace st ++ [Print (Progress state_name (i + 1) total lat lon);
                                 Fetch lat lon; Print (Error AttributeError); Sleep 0.4])
                   (rows st ++ map (row_of_dict state_name lat lon) ds)).
Proof.
  intros Hc Hd Hb. rewrite scan_point_spec.
  unfold point_trace, point_rows, point_error, point_outcome. cbn [fst snd].
  rewrite Hc. cbn [response_json get and_then]. rewrite Hd. cbn [iter].
  rewrite rows_of_entries_cut by exact Hb. reflexivity.
Qed.

Lemma scan_point_cut_at_bad_entry_witness :
  let answer := JObj [("data"%string,
                       JArr [JObj [("name"%string, JStr "A")]; JNull;
                             JObj [("name"%string, JStr "B")]])] in
  scan_point (directory_world (Response 200 (Some answer))) "Tamil Nadu" 1 0
             (8.0, 76.2)%float initial =
    Some (Ok tt,
          mk_store 1 [Print (Progress "Tamil Nadu" 1 1 8.0 76.2); Fetch 8.0 76.2;
                      Print (Error AttributeError); Sleep 0.4]
            [mk_row "Tamil Nadu" 8.0 76.2 (JStr "A") JNull JNull JNull JNull JNull]).
Proof.
  intros answer.
  apply (scan_point_cut_at_bad_entry (directory_world (Response 200 (Some answer)))
           "Tamil Nadu" 1 0 8.0 76.2 initial 200
           [("data"%string,
             JArr [JObj [("name"%string, JStr "A")]; JNull; JObj [("name"%string, JStr "B")]])]
           [[("name"%string, JStr "A")]] JNull [JObj [("name"%string, JStr "B")]]);
    reflexivity.
Defined.

(** ** A state, from the announcement to the report *)

Module RunFacts.
Import ScrapeFacts ScrapeMore.

(** What a scan leaves in the trace: progress lines, requests, errors and
    pauses, nothing else. *)
Lemma scan_trace_events (w : world) (state_name : string) (total i : nat)
    (kps : list (nat * point)) (ev : event) :
  In ev (scan_trace w state_name total i kps) ->
  match ev with
  | Print (Progress _ _ _ _ _) | Print (Error _) | Fetch _ _ | Sleep _ => True
  | _ => False
  end.
Proof.
  revert i. induction kps as [| kp rest IH]; intros i; cbn [scan_trace]; [intros []|].
  intros H. apply in_app_or in H. destruct H as [H | H]; [|exact (IH _ H)].
  unfold point_trace in H. destruct (point_error w state_name kp); cbn in H;
    repeat (destruct H as [<- | H]; [exact I|]); destruct H.
Qed.

Lemma rows_from_grid (w : world) (state_name : string) (n : nat) (pts : list point) (x : row) :
  In x (flat_map (point_rows w state_name) (numbered n pts)) ->
  state x = state_name /\ In (scan_lat x, scan_lon x) pts.
Proof.
  intros H. apply in_flat_map in H. destruct H as (kp & Hkp & Hx).
  destruct (point_rows_provenance w state_name kp x Hx) as [H1 H2].
  split; [exact H1|]. rewrite H2, <- (numbered_snd n pts). now apply in_map.
Qed.

Lemma resolved_calls (fos : string -> option float) (w : world) (state_name : string)
    (st st2 : store) (b : option bbox) :
  get_state_bbox fos w state_name (announced state_name st) = Some (Ok b, st2) ->
  st2 = mk_store (S (calls st))
          (trace st ++ [Print (Processing state_name); Geocode (state_name ++ ", India")])
          (rows st).
Proof.
  intros Hb. destruct (get_state_bbox_call fos w state_name (announced state_name st))
    as (r & Hg & _).
  rewrite Hb in Hg. injection Hg as _ ->. cbn [announced calls trace rows].
  now rewrite <- app_assoc.
Qed.

(** Whatever a state does, its part of the trace starts with its
    announcement, announces no other state and holds no final message. *)
Lemma scrape_state_shape (fos : string -> option float) (w : world) (fuel : nat)
    (state_name : string) (st st' : store) (r : result unit) :
  scrape_state fos w fuel state_name st = Some (r, st') ->
  exists t : list event,
    trace st' = trace st ++ Print (Processing state_name) :: t /\
    announcements t = [] /\
    ~ In (Print AllStatesCompleted) t.
Proof.
  intros H.
  destruct (get_state_bbox_call fos w state_name (announced state_name st)) as (r1 & Hg & _).
  destruct r1 as [[b |] | e].
  - destruct (generate_grid fuel b GRID_STEP) as [pts |] eqn:G.
    + rewrite (scrape_state_resolved _ _ _ _ _ _ _ _ Hg G) in H. cbv zeta in H.
      cbn [calls trace rows announced] in H.
      set (scan := scan_trace w state_name (List.length pts) 0
                     (numbered (S (calls st)) pts)) in H.
      assert (A : announcements scan = []) by apply scan_trace_quiet.
      assert (F : forall ev, In ev scan ->
                    match ev with
                    | Print (Progress _ _ _ _ _) | Print (Error _) | Fetch _ _ | Sleep _ => True
                    | _ => False
                    end) by (intro ev; apply scan_trace_events).
      destruct (flat_map (point_rows w state_name) (numbered (S (calls st)) pts))
        as [| x xs].
      * injection H as <- <-. cbn [trace].
        exists (Geocode (state_name ++ ", India") :: Print (GridPoints (List.length pts))
                :: scan ++ [Print (NoDataFound state_name)]).
        split; [rewrite <- !app_assoc; reflexivity|].
        split; [cbn [announcements]; rewrite announcements_app, A; reflexivity|].
        intros [D | [D | D]]; try discriminate D.
        apply in_app_or in D. destruct D as [D | [D | []]]; [exact (F _ D) | discriminate D].
      * destruct (compose w state_name (x :: xs)).
        { injection H as <- <-. cbn [trace].
          exists (Geocode (state_name ++ ", India") :: Print (GridPoints (List.length pts))
                  :: scan).
          split; [rewrite <- !app_assoc; reflexivity|].
          split; [cbn [announcements]; exact A|].
          intros [D | [D | D]]; try discriminate D. exact (F _ D). }
        destruct (smtp w (S (calls st) + List.length pts) state_name (x :: xs));
          injection H as <- <-; cbn [trace].
        -- exists (Geocode (state_name ++ ", India") :: Print (GridPoints (List.length pts))
                   :: scan ++ [SendEmail state_name (x :: xs)]).
           split; [rewrite <- !app_assoc; reflexivity|].
           split; [cbn [announcements]; rewrite announcements_app, A; reflexivity|].
           intros [D | [D | D]]; try discriminate D.
           apply in_app_or in D. destruct D as [D | [D | []]]; [exact (F _ D) | discriminate D].
        -- exists (Geocode (state_name ++ ", India") :: Print (GridPoints (List.length pts))
                   :: scan ++ [SendEmail state_name (x :: xs); Print (EmailSent state_name)]).
           split; [rewrite <- !app_assoc; reflexivity|].
           split; [cbn [announcements]; rewrite announcements_app, A; reflexivity|].
           intros [D | [D | D]]; try discriminate D.
           apply in_app_or in D.
           destruct D as [D | [D | [D | []]]]; [exact (F _ D) | discriminate D | discriminate D].
    + exfalso. unfold scrape_state in H. unfold bind at 1 in H. unfold emit at 1 in H.
      fold (announced state_name st) in H. unfold bind at 1 in H. rewrite Hg, G in H.
      discriminate H.
  - unfold scrape_state in H. unfold bind at 1 in H. unfold emit at 1 in H.
    fold (announced state_name st) in H. unfold bind at 1 in H. rewrite Hg in H.
    unfold emit in H. cbn [calls trace rows announced] in H. injection H as <- <-. cbn [trace].
    exists [Geocode (state_name ++ ", India"); Print CouldNotFetchBoundingBox].
    split; [rewrite <- !app_assoc; reflexivity|]. split; [reflexivity|].
    intros [D | [D | []]]; discriminate D.
  - unfold scrape_state in H. unfold bind at 1 in H. unfold emit at 1 in H.
    fold (announced state_name st) in H. unfold bind at 1 in H. rewrite Hg in H.
    cbn [calls trace rows announced] in H. injection H as <- <-. cbn [trace].
    exists [Geocode (state_name ++ ", India")].
    split; [rewrite <- !app_assoc; reflexivity|]. split; [reflexivity|].
    intros [D | []]; discriminate D.
Qed.

Lemma scrape_states_shape (fos : string -> option float) (w : world) (fuel : nat)
    (states : list string) (st st' : store) (r : result unit) :
  scrape_states fos w fuel states st = Some (r, st') ->
  exists t : list event,
    trace st' = trace st ++ t /\
    ~ In (Print AllStatesCompleted) t /\
    exists rest : list string,
      states = announcements t ++ rest /\
      (r = Ok tt -> rest = []) /\
      (forall e, r = Raise e -> announcements t <> []).
Proof.
  revert st. induction states as [| s states IH]; intros st H; cbn [scrape_states] in H.
  - injection H as <- <-. exists []. rewrite app_nil_r.
    split; [reflexivity|]. split; [intros []|]. exists [].
    split; [reflexivity|]. split; [reflexivity | discriminate].
  - unfold bind at 1 in H.
    destruct (scrape_state fos w fuel s st) as [[[u | e] st1] |] eqn:S1; [| |discriminate H].
    + destruct (scrape_state_shape _ _ _ _ _ _ _ S1) as (t1 & T1 & A1 & F1).
      destruct (IH _ H) as (t2 & T2 & F2 & rest & R & Rok & Rex).
      exists (Print (Processing s) :: t1 ++ t2).
      split; [rewrite T2, T1, <- app_assoc; reflexivity|].
      split.
      { intros [D | D]; [discriminate D|]. apply in_app_or in D. tauto. }
      exists rest. cbn [announcements]. rewrite announcements_app, A1. cbn [app].
      split; [now rewrite <- R|]. split; [exact Rok | discriminate].
    + injection H as <- <-.
      destruct (scrape_state_shape _ _ _ _ _ _ _ S1) as (t1 & T1 & A1 & F1).
      exists (Print (Processing s) :: t1).
      split; [exact T1|].
      split.
      { intros [D | D]; [discriminate D | tauto]. }
      exists states. cbn [announcements]. rewrite A1.
      split; [reflexivity|]. split; [discriminate | discriminate].
Qed.

End RunFacts.

Import RunFacts.

(** X9: where the rows of a report come from.  Once the bounding box of a
    state is known and its grid generated, every row held at the end of the
    state carries the name of that state and the coordinates of one of its grid
    points, whatever rows an earlier state had left. *)
Theorem scrape_state_rows_provenance (fos : string -> option float) (w : world) (fuel : nat)
    (state_name : string) (st st2 : store) (b : bbox) (pts : list point) :
  get_state_bbox fos w state_name (announced state_name st) = Some (Ok (Some b), st2) ->
  generate_grid fuel b GRID_STEP = Some pts ->
  exists (r : result unit) (st' : store),
    scrape_state fos w fuel state_name st = Some (r, st') /\
    forall x : row, In x (rows st') ->
      state x = state_name /\ In (scan_lat x, scan_lon x) pts.
Proof.
  intros Hb Hg. rewrite (scrape_state_resolved _ _ _ _ _ _ _ _ Hb Hg). cbv zeta.
  pose proof (rows_from_grid w state_name (calls st2) pts) as P.
  destruct (flat_map (point_rows w state_name) (numbered (calls st2) pts)) as [| x xs].
  - eexists. eexists. split; [reflexivity|]. intros y [].
  - destruct (compose w state_name (x :: xs));
      [|destruct (smtp w (calls st2 + List.length pts) state_name (x :: xs))];
      (eexists; eexists; split; [reflexivity | exact P]).
Qed.

Lemma scrape_state_rows_provenance_witness :
  let stale := mk_row "Kerala" 0 0 JNull JNull JNull JNull JNull JNull in
  exists (r : result unit) (st' : store),
    scrape_state plain_decimal flaky_world 5 "Tamil Nadu" (mk_store 0 [] [stale])
      = Some (r, st') /\
    forall x : row, In x (rows st') ->
      state x = "Tamil Nadu"%string /\
      In (scan_lat x, scan_lon x) [(8.0, 76.2); (8.0, 76.5); (8.3, 76.2); (8.3, 76.5)]%float.
Proof.
  intros stale.
  apply (scrape_state_rows_provenance plain_decimal flaky_world 5 "Tamil Nadu"
           (mk_store 0 [] [stale])
           (mk_store 1 [Print (Processing "Tamil Nadu"); Geocode "Tamil Nadu, India"] [stale])
           (mk_bbox 8.0 8.5 76.2 76.7)
           [(8.0, 76.2); (8.0, 76.5); (8.3, 76.2); (8.3, 76.5)]%float);
    vm_compute; reflexivity.
Defined.

(** X10: the cost of a state and its report.  Once the bounding box of a
    state is known and its grid generated, the state makes one request to the
    geocoder, one to the directory per grid point and, when rows were found and
    the report could be built, one to the mail server, and no other; it hands
    the mail server at most one report, which is all the rows found, under the
    name of the state; and the only exception that can end the state is one
    raised while the report is built or by the mail server. *)
Theorem scrape_state_calls_and_report (fos : string -> option float) (w : world) (fuel : nat)
    (state_name : string) (st st2 : store) (b : bbox) (pts : list point) :
  get_state_bbox fos w state_name (announced state_name st) = Some (Ok (Some b), st2) ->
  generate_grid fuel b GRID_STEP = Some pts ->
  exists (r : result unit) (st' : store) (t : list event),
    scrape_state fos w fuel state_name st = Some (r, st') /\
    trace st' = trace st2 ++ t /\
    calls st' = (calls st + 1 + List.length pts + List.length (emails t))%nat /\
    emails t = match rows st', compose w state_name (rows st') with
               | _ :: _, None => [(state_name, rows st')]
               | _, _ => []
               end /\
    (r = Ok tt \/
     exists e : exn,
       r = Raise e /\ rows st' <> [] /\
       (compose w state_name (rows st') = Some e \/
        compose w state_name (rows st') = None /\
        smtp w (calls st + 1 + List.length pts) state_name (rows st') = Some e)).
Proof.
  intros Hb Hg. rewrite (scrape_state_resolved _ _ _ _ _ _ _ _ Hb Hg). cbv zeta.
  rewrite (resolved_calls _ _ _ _ _ _ Hb). cbn [calls trace rows].
  set (kps := numbered (S (calls st)) pts).
  set (scan := scan_trace w state_name (List.length pts) 0 kps).
  assert (E : emails scan = []) by apply scan_trace_quiet.
  replace (S (calls st) + List.length pts)%nat with (calls st + 1 + List.length pts)%nat
    by lia.
  destruct (flat_map (point_rows w state_name) kps) as [| x xs].
  - eexists. eexists. eexists. split; [reflexivity|]. cbn [calls trace rows].
    split; [rewrite <- app_assoc; reflexivity|].
    cbn [emails app]. rewrite emails_app, E. cbn [emails app List.length].
    split; [lia|]. split; [reflexivity | now left].
  - destruct (compose w state_name (x :: xs)) as [e |] eqn:C.
    { eexists. eexists. eexists. split; [reflexivity|]. cbn [calls trace rows].
      split; [reflexivity|]. cbn [emails]. rewrite E, C. cbn [List.length].
      split; [lia|]. split; [reflexivity|]. right. exists e.
      split; [reflexivity|]. split; [discriminate | now left]. }
    destruct (smtp w (calls st + 1 + List.length pts) state_name (x :: xs)) as [e |] eqn:S.
    + eexists. eexists. eexists. split; [reflexivity|]. cbn [calls trace rows].
      split; [rewrite <- app_assoc; reflexivity|].
      cbn [emails app]. rewrite emails_app, E, C. cbn [emails app List.length].
      split; [lia|]. split; [reflexivity|]. right. exists e.
      split; [reflexivity|]. split; [discriminate | right; now split].
    + eexists. eexists. eexists. split; [reflexivity|]. cbn [calls trace rows].
      split; [rewrite <- app_assoc; reflexivity|].
      cbn [emails app]. rewrite emails_app, E, C. cbn [emails app List.length].
      split; [lia|]. split; [reflexivity | now left].
Qed.

Lemma scrape_state_calls_and_report_witness :
  exists (r : result unit) (st' : store) (t : list event),
    scrape_state plain_decimal unencodable_world 3 "Tamil Nadu" initial = Some (r, st') /\
    trace st' = [Print (Processing "Tamil Nadu"); Geocode "Tamil Nadu, India"] ++ t /\
    calls st' = (0 + 1 + 1 + List.length (emails t))%nat /\
    emails t = match rows st', compose unencodable_world "Tamil Nadu" (rows st') with
               | _ :: _, None => [("Tamil Nadu"%string, rows st')]
               | _, _ => []
               end /\
    (r = Ok tt \/
     exists e : exn,
       r = Raise e /\ rows st' <> [] /\
       (compose unencodable_world "Tamil Nadu" (rows st') = Some e \/
        compose unencodable_world "Tamil Nadu" (rows st') = None /\
        smtp unencodable_world (0 + 1 + 1) "Tamil Nadu" (rows st') = Some e)).
Proof.
  apply (scrape_state_calls_and_report plain_decimal unencodable_world 3 "Tamil Nadu" initial
           (mk_store 1 [Print (Processing "Tamil Nadu"); Geocode "Tamil Nadu, India"] [])
           (mk_bbox 8.0 8.1 76.2 76.3) [(8.0, 76.2)%float]);
    vm_compute; reflexivity.
Defined.

(** X11: a directory that is down.  When no request to the directory of a
    state's scan gets an answer that can be read, the state still ends without
    an exception: one error is printed per grid point, no row is kept, nothing
    is handed to the mail server, and the notice that no data was found is
    printed. *)
Theorem scrape_state_directory_down (fos : string -> option float) (w : world) (fuel : nat)
    (state_name : string) (st st2 : store) (b : bbox) (pts : list point) :
  get_state_bbox fos w state_name (announced state_name st) = Some (Ok (Some b), st2) ->
  generate_grid fuel b GRID_STEP = Some pts ->
  (forall (n : nat) (lat lon : float),
     exists e : exn, response_json (chotu w n lat lon) = Raise e) ->
  exists (st' : store) (t : list event),
    scrape_state fos w fuel state_name st = Some (Ok tt, st') /\
    trace st' = trace st2 ++ t /\
    rows st' = [] /\
    emails t = [] /\
    List.length (errors t) = List.length pts /\
    last t (Print AllStatesCompleted) = Print (NoDataFound state_name).
Proof.
  intros Hb Hg Hdown. rewrite (scrape_state_resolved _ _ _ _ _ _ _ _ Hb Hg). cbv zeta.
  set (kps := numbered (calls st2) pts).
  destruct (scan_trace_errors_all w state_name (List.length pts) 0 kps) as [L R].
  { intros [n [lat lon]] _. apply Hdown. }
  rewrite R. eexists. eexists. split; [reflexivity|]. cbn [trace rows].
  split; [rewrite <- app_assoc; reflexivity|]. split; [reflexivity|].
  cbn [app emails errors]. rewrite emails_app, errors_app, length_app, L.
  split; [|split].
  - replace (emails (scan_trace w state_name (List.length pts) 0 kps)) with
      (@nil (string * list row)) by (symmetry; apply scan_trace_quiet). reflexivity.
  - cbn [errors List.length]. unfold kps. rewrite Nat.add_0_r.
    rewrite <- (numbered_snd (calls st2) pts) at 2. now rewrite length_map.
  - change (Print (GridPoints (List.length pts))
            :: scan_trace w state_name (List.length pts) 0 kps ++
               [Print (NoDataFound state_name)])
      with ((Print (GridPoints (List.length pts))
             :: scan_trace w state_name (List.length pts) 0 kps) ++
            [Print (NoDataFound state_name)]).
    apply last_last.
Qed.

Lemma scrape_state_directory_down_witness :
  let w := mk_world (fun _ _ => geocoded ["8.0"; "8.5"; "76.2"; "76.7"]%string)
                    (fun _ _ _ => Response 503 None) (fun _ _ _ => None) (fun _ _ => None) in
  exists (st' : store) (t : list event),
    scrape_state plain_decimal w 5 "Tamil Nadu" initial = Some (Ok tt, st') /\
    trace st' = [Print (Processing "Tamil Nadu"); Geocode "Tamil Nadu, India"] ++ t /\
    rows st' = [] /\
    emails t = [] /\
    List.length (errors t) = 4%nat /\
    last t (Print AllStatesCompleted) = Print (NoDataFound "Tamil Nadu").
Proof.
  intros w.
  apply (scrape_state_directory_down plain_decimal w 5 "Tamil Nadu" initial
           (mk_store 1 [Print (Processing "Tamil Nadu"); Geocode "Tamil Nadu, India"] [])
           (mk_bbox 8.0 8.5 76.2 76.7)
           [(8.0, 76.2); (8.0, 76.5); (8.3, 76.2); (8.3, 76.5)]%float).
  - vm_compute; reflexivity.
  - vm_compute; reflexivity.
  - intros n lat lon. exists JSONDecodeError. reflexivity.
Defined.

(** X12: the order of a run.  Whatever the services answer, the states a run
    announces are the first states of [STATES], in the order of the list and
    each once; all of them when the run ends without an exception, and at least
    one when an exception ends it.  The final message is printed exactly when
    no exception ended the run, and then it is the last thing the run does. *)
Theorem run_scrape_order (fos : string -> option float) (w : world) (fuel : nat)
    (st st' : store) (r : result unit) :
  run_scrape fos w fuel st = Some (r, st') ->
  exists t : list event,
    trace st' = trace st ++ t /\
    (exists rest : list string,
       STATES = announcements t ++ rest /\
       (r = Ok tt -> rest = []) /\
       (forall e, r = Raise e -> announcements t <> [])) /\
    (In (Print AllStatesCompleted) t <-> r = Ok tt) /\
    (r = Ok tt -> last t (Print (Processing "")) = Print AllStatesCompleted).
Proof.
  unfold run_scrape. unfold bind at 1. intros H.
  destruct (scrape_states fos w fuel STATES st) as [[[u | e] st1] |] eqn:S1;
    [| |discriminate H].
  - destruct (scrape_states_shape _ _ _ _ _ _ _ S1) as (t1 & T1 & F1 & rest & R & Rok & Rex).
    unfold emit in H. injection H as <- <-. cbn [trace].
    exists (t1 ++ [Print AllStatesCompleted]).
    split; [rewrite T1, <- app_assoc; reflexivity|].
    split.
    { exists rest. rewrite announcements_app. cbn [announcements]. rewrite app_nil_r.
      split; [exact R|]. split; [intros _; apply Rok; now destruct u | discriminate]. }
    split; [|intros _; apply last_last].
    split; [reflexivity|]. intros _. apply in_or_app. right. now left.
  - destruct (scrape_states_shape _ _ _ _ _ _ _ S1) as (t1 & T1 & F1 & rest & R & Rok & Rex).
    injection H as <- <-. exists t1.
    split; [exact T1|].
    split; [exists rest; split; [exact R|]; split; [discriminate | exact Rex]|].
    split; [|discriminate].
    split; [intros D; destruct (F1 D) | discriminate].
Qed.

Lemma run_scrape_order_witness :
  exists (r : result unit) (st' : store),
    run_scrape plain_decimal undeliverable_world 3 initial = Some (r, st') /\
    exists t : list event,
      trace st' = [] ++ t /\
      (exists rest : list string,
         STATES = announcements t ++ rest /\
         (r = Ok tt -> rest = []) /\
         (forall e, r = Raise e -> announcements t <> [])) /\
      (In (Print AllStatesCompleted) t <-> r = Ok tt) /\
      (r = Ok tt -> last t (Print (Processing "")) = Print AllStatesCompleted).
Proof.
  eexists. eexists. split; [vm_compute; reflexivity|].
  apply (run_scrape_order plain_decimal undeliverable_world 3 initial).
  vm_compute; reflexivity.
Defined.

(** X13: the checks made when the module is loaded.  They pass exactly when
    the four variables of the environment are all set to something other than
    the empty string; and the message about the mail variables is only given
    when the key of the directory is set. *)
Theorem validation_passes_iff (getenv : string -> option string) :
  (validation getenv = None <->
   forall k : string,
     In k ["CHOTU_API_KEY"; "EMAIL_USER"; "EMAIL_APP_PASSWORD"; "EMAIL_TO"]%string ->
     exists v : string, getenv k = Some v /\ v <> EmptyString) /\
  (validation getenv = Some "Email environment variables missing"%string <->
   unset (getenv "CHOTU_API_KEY"%string) = false /\
   (unset (getenv "EMAIL_USER"%string) = true \/
    unset (getenv "EMAIL_APP_PASSWORD"%string) = true \/
    unset (getenv "EMAIL_TO"%string) = true)).
Proof.
  assert (U : forall o : option string,
            unset o = false <-> exists v, o = Some v /\ v <> EmptyString).
  { intros [v |]; cbn [unset].
    - rewrite <- Bool.not_true_iff_false, String.eqb_eq. split.
      + intros H. exists v. now split.
      + intros (v' & [= <-] & H). exact H.
    - split; [discriminate | intros (v & H & _); discriminate H]. }
  unfold validation. split.
  - split.
    + intros H k Hk.
      destruct (unset (getenv "CHOTU_API_KEY"%string)) eqn:E1; [discriminate H|].
      destruct (unset (getenv "EMAIL_USER"%string)) eqn:E2; [discriminate H|].
      destruct (unset (getenv "EMAIL_APP_PASSWORD"%string)) eqn:E3; [discriminate H|].
      destruct (unset (getenv "EMAIL_TO"%string)) eqn:E4; [discriminate H|].
      destruct Hk as [<- | [<- | [<- | [<- | []]]]]; now apply U.
    + intros H.
      rewrite (proj2 (U (getenv "CHOTU_API_KEY"%string))) by (apply H; cbn; tauto).
      rewrite (proj2 (U (getenv "EMAIL_USER"%string))) by (apply H; cbn; tauto).
      rewrite (proj2 (U (getenv "EMAIL_APP_PASSWORD"%string))) by (apply H; cbn; tauto).
      rewrite (proj2 (U (getenv "EMAIL_TO"%string))) by (apply H; cbn; tauto).
      reflexivity.
  - destruct (unset (getenv "CHOTU_API_KEY"%string)).
    + split; [discriminate | intros [H _]; discriminate H].
    + destruct (unset (getenv "EMAIL_USER"%string)), (unset (getenv "EMAIL_APP_PASSWORD"%string)),
        (unset (getenv "EMAIL_TO"%string)); cbn [orb];
        (split; [intros H; first [discriminate H | split; [reflexivity | tauto]]
                | intros [_ H]; first [reflexivity
                                      | destruct H as [H | [H | H]]; discriminate H]]).
Qed.

(** X14: the name of the attachment.  Whatever the name of the state, the
    file name of the report holds no space, is four characters longer than the
    name of the state, and is the name of the state followed by [.csv] when
    that name holds no space to begin with. *)
Theorem attachment_filename_no_space (state_name : string) :
  ~ In " "%char (list_ascii_of_string (attachment_filename state_name)) /\
  String.length (attachment_filename state_name) = (String.length state_name + 4)%nat /\
  (~ In " "%char (list_ascii_of_string state_name) <->
   attachment_filename state_name = (state_name ++ ".csv")%string).
Proof.
  unfold attachment_filename.
  induction state_name as [| c s (IH1 & IH2 & IH3)]; cbn [replace_spaces String.append].
  - split; [|split; [reflexivity|]].
    + cbn. intros [D | [D | [D | [D | []]]]]; discriminate D.
    + split; [reflexivity | intros _ []].
  - cbn [list_ascii_of_string String.length In Nat.add].
    destruct (Ascii.eqb c " ") eqn:E.
    + apply Ascii.eqb_eq in E. subst c. split; [|split].
      * intros [D | D]; [discriminate D | exact (IH1 D)].
      * now rewrite IH2.
      * split; [intros H; exfalso; apply H; now left | intros D; discriminate D].
    + apply Ascii.eqb_neq in E. split; [|split].
      * intros [D | D]; [now apply E | exact (IH1 D)].
      * now rewrite IH2.
      * split.
        -- intros H. f_equal. apply IH3. intros D. apply H. now right.
        -- intros H [D | D]; [now apply E|]. injection H as H. now apply IH3 in D.
Qed.

(** X15: which part of the geocoder's answer is used.  Of a list of results
    only the first is read, and of its bounds only the first four, whatever
    follows them; they become [min_lat], [max_lat], [min_lon] and [max_lon], in
    this order, each converted as [float] converts it, string or number, and
    the status of the answer is not looked at. *)
Theorem get_state_bbox_first_result (fos : string -> option float) (w : world)
    (state_name : string) (st : store) (status : Z) (d : list (string * json))
    (others extra : list json) (va vb vc vd : json) (a b c e : float) :
  nominatim w (calls st) (state_name ++ ", India") =
    Response status (Some (JArr (JObj d :: others))) ->
  assoc "boundingbox" d = Some (JArr (va :: vb :: vc :: vd :: extra)) ->
  to_float fos va = Ok a -> to_float fos vb = Ok b ->
  to_float fos vc = Ok c -> to_float fos vd = Ok e ->
  get_state_bbox fos w state_name st =
    Some (Ok (Some (mk_bbox a b c e)),
          mk_store (S (calls st)) (trace st ++ [Geocode (state_name ++ ", India")]) (rows st)).
Proof.
  intros Hn Hd Ha Hb Hc He. unfold get_state_bbox.
  unfold bind at 1. unfold call at 1. cbn [calls trace rows]. rewrite Hn.
  unfold bind, lift, ret. cbn [response_json truthy negb item nth_error and_then field].
  rewrite Hd. cbn [item nth_error and_then]. rewrite Ha, Hb, Hc, He. reflexivity.
Qed.

Lemma get_state_bbox_first_result_witness :
  let answer :=
    JArr [JObj [("boundingbox"%string,
                 JArr [JStr "8.0"; JInt 13; JFloat 76.2; JStr "80.3"; JStr "ignored"])];
          JNull] in
  let w := mk_world (fun _ _ => Response 404 (Some answer))
                    (fun _ _ _ => Unreachable) (fun _ _ _ => None) (fun _ _ => None) in
  get_state_bbox plain_decimal w "Tamil Nadu" initial =
    Some (Ok (Some (mk_bbox 8.0 13 76.2 80.3)),
          mk_store 1 [Geocode "Tamil Nadu, India"] []).
Proof.
  intros answer w.
  apply (get_state_bbox_first_result plain_decimal w "Tamil Nadu" initial 404
           [("boundingbox"%string,
             JArr [JStr "8.0"; JInt 13; JFloat 76.2; JStr "80.3"; JStr "ignored"])]
           [JNull] [JStr "ignored"] (JStr "8.0") (JInt 13) (JFloat 76.2) (JStr "80.3")
           8.0 13 76.2 80.3);
    vm_compute; reflexivity.
Defined.

(** * Failures point by point, and the order of the grid *)

(** ** The worker against the answers of the directory *)

Module AnswerFacts.
Import ScrapeFacts.

Lemma rows_of_entries_leading (state_name : string) (lat lon : float) (l : list json) :
  rows_of_entries state_name lat lon l =
  (map (row_of_dict state_name lat lon) (leading_dicts l),
   if forallb is_dict l then None else Some AttributeError).
Proof.
  induction l as [| biz rest IH]; [reflexivity|].
  cbn [rows_of_entries leading_dicts forallb].
  destruct biz as [| | | | | | d]; try reflexivity.
  rewrite make_row_dict, IH. reflexivity.
Qed.

Lemma point_outcome_spec (state_name : string) (lat lon : float) (o : http_outcome) :
  point_outcome state_name lat lon o = (records state_name (lat, lon) o, failure o).
Proof.
  unfold point_outcome, records, failure, listed. cbn [fst snd].
  destruct o as [| | status [data |]]; try reflexivity.
  cbn [response_json]. destruct data as [| | | | | | d]; try reflexivity.
  cbn [get expected_structure]. destruct (assoc "data" d) as [v |]; [|reflexivity].
  destruct v as [| | | | s | l | d']; try reflexivity; cbn [and_then iter readable].
  - destruct s; reflexivity.
  - rewrite rows_of_entries_leading. destruct (forallb is_dict l); reflexivity.
  - destruct d'; reflexivity.
Qed.

Lemma point_rows_records (w : world) (state_name : string) (kp : nat * point) :
  point_rows w state_name kp = records state_name (snd kp) (answer w kp).
Proof.
  unfold point_rows, answer. rewrite point_outcome_spec. now destruct kp as [k [lat lon]].
Qed.

Lemma point_error_failure (w : world) (state_name : string) (kp : nat * point) :
  point_error w state_name kp = failure (answer w kp).
Proof. unfold point_error, answer. now rewrite point_outcome_spec. Qed.

Lemma point_trace_errors (w : world) (state_name : string) (total i : nat)
    (kp : nat * point) :
  errors (point_trace w state_name total i kp) = diagnostics (answer w kp).
Proof.
  unfold point_trace, diagnostics. rewrite point_error_failure.
  destruct (failure (answer w kp)); reflexivity.
Qed.

Lemma scan_trace_errors (w : world) (state_name : string) (total i : nat)
    (kps : list (nat * point)) :
  errors (scan_trace w state_name total i kps) =
  flat_map (fun kp => diagnostics (answer w kp)) kps.
Proof.
  revert i. induction kps as [| kp rest IH]; intros i; [reflexivity|].
  cbn [scan_trace flat_map]. now rewrite errors_app, point_trace_errors, IH.
Qed.

Lemma scan_rows_records (w : world) (state_name : string) (kps : list (nat * point)) :
  flat_map (point_rows w state_name) kps =
  flat_map (fun kp => records state_name (snd kp) (answer w kp)) kps.
Proof.
  induction kps as [| kp rest IH]; [reflexivity|].
  cbn [flat_map]. now rewrite point_rows_records, IH.
Qed.

(** On an answer that makes no point fail, every entry listed is a record. *)
Lemma listed_all_dicts (o : http_outcome) :
  failure o = None -> map JObj (leading_dicts (listed o)) = listed o.
Proof.
  unfold failure, listed. destruct o as [| | status [data |]]; try discriminate.
  destruct data as [| | | | | | d]; try discriminate. cbn [expected_structure].
  destruct (assoc "data" d) as [v |]; [|reflexivity].
  destruct v as [| | | | s | l | d']; try reflexivity; cbn [readable].
  destruct (forallb is_dict l) eqn:A; [intros _ | discriminate].
  induction l as [| x l IH]; [reflexivity|]. cbn [forallb] in A.
  apply andb_prop in A. destruct A as [A1 A2]. destruct x; try discriminate A1.
  cbn [leading_dicts map]. now rewrite IH.
Qed.

Lemma failed_fetch_failure (o : http_outcome) (e : exn) :
  response_json o = Raise e -> failure o = Some e /\ listed o = [].
Proof.
  destruct o as [| | status [data |]]; cbn [response_json]; intros H;
    try discriminate H; injection H as <-; now split.
Qed.

End AnswerFacts.

Import AnswerFacts.

(** C2, refuted as stated: the directory lists a business, then [null], then
    another business.  The one grid point fails, and its diagnostic is
    printed; yet the row appended before the faulty entry stays, and is handed
    to the mail server: the result holds a record of a failing point. *)
Lemma scan_keeps_rows_of_failed_point :
  exists st' : store,
    scrape_state plain_decimal broken_list_world 3 "Tamil Nadu" initial = Some (Ok tt, st') /\
    fetches (trace st') = [(8.0, 76.2)%float] /\
    errors (trace st') = [AttributeError] /\
    rows st' = [mk_row "Tamil Nadu" 8.0 76.2 (JStr "A") JNull JNull JNull JNull JNull] /\
    emails (trace st') = [("Tamil Nadu"%string, rows st')].
Proof. eexists. split; [vm_compute; reflexivity|]. repeat split. Qed.

(** C2, amended: in the scan of a state whose bounding box was found,
    whichever grid points fail, the fetch raising or the data returned
    breaking the loop over its entries: every point is requested, in order;
    one diagnostic is printed for each failing point, in order, and none for
    the others; the rows are, point by point, the records of the businesses
    listed, all of them for a succeeding point, those listed before the faulty
    entry for a failing one, none when the fetch itself failed; and the state
    is carried to its end, with the notice that no data was found when there
    is no row, the rows being handed to the mail server otherwise, as soon as
    the message is built. *)
Theorem scan_isolates_failed_points (fos : string -> option float) (w : world) (fuel : nat)
    (state_name : string) (st st2 : store) (b : bbox) (pts : list point) :
  get_state_bbox fos w state_name (announced state_name st) = Some (Ok (Some b), st2) ->
  generate_grid fuel b GRID_STEP = Some pts ->
  exists (r : result unit) (st' : store) (t : list event),
    scrape_state fos w fuel state_name st = Some (r, st') /\
    trace st' = trace st2 ++ t /\
    fetches t = pts /\
    errors t = flat_map (fun kp => diagnostics (answer w kp)) (numbered (calls st2) pts) /\
    rows st' = flat_map (fun kp => records state_name (snd kp) (answer w kp))
                 (numbered (calls st2) pts) /\
    (forall kp : nat * point,
       failure (answer w kp) = None ->
       map JObj (leading_dicts (listed (answer w kp))) = listed (answer w kp)) /\
    (forall (kp : nat * point) (e : exn),
       response_json (answer w kp) = Raise e ->
       failure (answer w kp) = Some e /\ records state_name (snd kp) (answer w kp) = []) /\
    (rows st' = [] ->
     r = Ok tt /\ emails t = [] /\
     last t (Print AllStatesCompleted) = Print (NoDataFound state_name)) /\
    (rows st' <> [] ->
     match compose w state_name (rows st') with
     | None => emails t = [(state_name, rows st')]
     | Some e => r = Raise e
     end).
Proof.
  intros Hb Hg. rewrite (scrape_state_resolved _ _ _ _ _ _ _ _ Hb Hg). cbv zeta.
  rewrite scan_rows_records.
  set (kps := numbered (calls st2) pts).
  set (scan := scan_trace w state_name (List.length pts) 0 kps).
  set (found := flat_map (fun kp => records state_name (snd kp) (answer w kp)) kps).
  assert (F : fetches scan = pts).
  { unfold scan. rewrite scan_trace_fetches. apply numbered_snd. }
  assert (E : errors scan = flat_map (fun kp => diagnostics (answer w kp)) kps)
    by apply scan_trace_errors.
  assert (Q : emails scan = []) by apply scan_trace_quiet.
  assert (A : forall kp : nat * point,
             failure (answer w kp) = None ->
             map JObj (leading_dicts (listed (answer w kp))) = listed (answer w kp))
    by (intros kp; apply listed_all_dicts).
  assert (B : forall (kp : nat * point) (e : exn),
             response_json (answer w kp) = Raise e ->
             failure (answer w kp) = Some e /\ records state_name (snd kp) (answer w kp) = []).
  { intros kp e H. destruct (failed_fetch_failure _ _ H) as [H1 H2].
    split; [exact H1|]. unfold records. now rewrite H2. }
  destruct found as [| x xs] eqn:R.
  - eexists. eexists. eexists. split; [reflexivity|]. cbn [trace rows].
    split; [rewrite <- app_assoc; reflexivity|]. cbn [app fetches errors emails].
    rewrite fetches_app, errors_app, emails_app, F, E, Q. cbn [fetches errors emails].
    rewrite !app_nil_r.
    split; [reflexivity|]. split; [reflexivity|]. split; [reflexivity|].
    split; [exact A|]. split; [exact B|]. split; [|intros H; now destruct H].
    intros _. split; [reflexivity|]. split; [reflexivity|].
    change (Print (GridPoints (List.length pts)) :: scan ++ [Print (NoDataFound state_name)])
      with ((Print (GridPoints (List.length pts)) :: scan) ++
            [Print (NoDataFound state_name)]).
    apply last_last.
  - destruct (compose w state_name (x :: xs)) as [e |] eqn:C.
    { eexists. eexists. eexists. split; [reflexivity|]. cbn [trace rows].
      split; [reflexivity|]. cbn [fetches errors].
      split; [exact F|]. split; [exact E|]. split; [reflexivity|].
      split; [exact A|]. split; [exact B|]. split; [discriminate|].
      intros _. rewrite C. reflexivity. }
    destruct (smtp w (calls st2 + List.length pts) state_name (x :: xs)) as [e |].
    + eexists. eexists. eexists. split; [reflexivity|]. cbn [trace rows].
      split; [rewrite <- app_assoc; reflexivity|]. cbn [app fetches errors emails].
      rewrite fetches_app, errors_app, emails_app, F, E, Q. cbn [fetches errors emails app].
      rewrite !app_nil_r.
      split; [reflexivity|]. split; [reflexivity|]. split; [reflexivity|].
      split; [exact A|]. split; [exact B|]. split; [discriminate|].
      intros _. rewrite C. reflexivity.
    + eexists. eexists. eexists. split; [reflexivity|]. cbn [trace rows].
      split; [rewrite <- app_assoc; reflexivity|]. cbn [app fetches errors emails].
      rewrite fetches_app, errors_app, emails_app, F, E, Q. cbn [fetches errors emails app].
      rewrite !app_nil_r.
      split; [reflexivity|]. split; [reflexivity|]. split; [reflexivity|].
      split; [exact A|]. split; [exact B|]. split; [discriminate|].
      intros _. rewrite C. reflexivity.
Qed.

Lemma scan_isolates_failed_points_witness :
  let kps := numbered 1 [(8.0, 76.2); (8.0, 76.5); (8.3, 76.2); (8.3, 76.5)]%float in
  exists (r : result unit) (st' : store) (t : list event),
    scrape_state plain_decimal patchy_world 5 "Tamil Nadu" initial = Some (r, st') /\
    trace st' = [Print (Processing "Tamil Nadu"); Geocode "Tamil Nadu, India"] ++ t /\
    fetches t = [(8.0, 76.2); (8.0, 76.5); (8.3, 76.2); (8.3, 76.5)]%float /\
    errors t = flat_map (fun kp => diagnostics (answer patchy_world kp)) kps /\
    rows st' = flat_map (fun kp => records "Tamil Nadu" (snd kp) (answer patchy_world kp)) kps /\
    (forall kp : nat * point,
       failure (answer patchy_world kp) = None ->
       map JObj (leading_dicts (listed (answer patchy_world kp))) =
       listed (answer patchy_world kp)) /\
    (forall (kp : nat * point) (e : exn),
       response_json (answer patchy_world kp) = Raise e ->
       failure (answer patchy_world kp) = Some e /\
       records "Tamil Nadu" (snd kp) (answer patchy_world kp) = []) /\
    (rows st' = [] ->
     r = Ok tt /\ emails t = [] /\
     last t (Print AllStatesCompleted) = Print (NoDataFound "Tamil Nadu")) /\
    (rows st' <> [] ->
     match compose patchy_world "Tamil Nadu" (rows st') with
     | None => emails t = [("Tamil Nadu"%string, rows st')]
     | Some e => r = Raise e
     end).
Proof.
  intros kps.
  apply (scan_isolates_failed_points plain_decimal patchy_world 5 "Tamil Nadu" initial
           (mk_store 1 [Print (Processing "Tamil Nadu"); Geocode "Tamil Nadu, India"] [])
           (mk_bbox 8.0 8.5 76.2 76.7)
           [(8.0, 76.2); (8.0, 76.5); (8.3, 76.2); (8.3, 76.5)]%float);
    vm_compute; reflexivity.
Defined.

(** C3, refuted as stated: the directory answers with status 500 and a JSON
    body; [fetch_businesses] returns the body, nothing is raised, and the scan
    of the point records no error. *)
Lemma fetch_businesses_ignores_status :
  let body := JObj [("error"%string, JStr "internal error")] in
  let w := directory_world (Response 500 (Some body)) in
  fetch_businesses w 8.0 76.2 initial = Some (Ok body, mk_store 1 [Fetch 8.0 76.2] []) /\
  scan_point w "Tamil Nadu" 1 0 (8.0, 76.2)%float initial =
    Some (Ok tt, mk_store 1 [Print (Progress "Tamil Nadu" 1 1 8.0 76.2); Fetch 8.0 76.2;
                             Sleep 0.4] []).
Proof. split; reflexivity. Qed.

(** C3, amended: at every grid point, a failure of the network and a body
    that is not JSON raise out of [fetch_businesses], and a JSON body that has
    not the expected structure is returned by it and raises in the loop of the
    coordinator over the data; in the three cases the coordinator prints the
    exception, once, and goes on.  The HTTP status is never looked at: a body
    of the expected structure is processed without an error whatever the
    status it came with. *)
Theorem fetch_failures_reach_coordinator (w : world) (state_name : string) (total i : nat)
    (lat lon : float) (st : store) :
  exists (r : result json) (st' : store) (t : list event),
    fetch_businesses w lat lon st =
      Some (r, mk_store (S (calls st)) (trace st ++ [Fetch lat lon]) (rows st)) /\
    scan_point w state_name total i (lat, lon) st = Some (Ok tt, st') /\
    trace st' = trace st ++ t /\
    errors t = diagnostics (chotu w (calls st) lat lon) /\
    match chotu w (calls st) lat lon with
    | Unreachable => r = Raise ConnectionError /\ errors t = [ConnectionError]
    | TimedOut => r = Raise Timeout /\ errors t = [Timeout]
    | Response _ None => r = Raise JSONDecodeError /\ errors t = [JSONDecodeError]
    | Response _ (Some data) =>
        r = Ok data /\
        (expected_structure data = true -> errors t = []) /\
        (expected_structure data = false -> exists e : exn, errors t = [e])
    end.
Proof.
  exists (response_json (chotu w (calls st) lat lon)).
  rewrite scan_point_spec. eexists. eexists.
  split; [unfold fetch_businesses, bind, call, lift; reflexivity|].
  split; [reflexivity|]. cbn [trace]. split; [reflexivity|].
  rewrite point_trace_errors. unfold answer. cbn [fst snd].
  split; [reflexivity|]. unfold diagnostics, failure.
  destruct (chotu w (calls st) lat lon) as [| | status [data |]]; cbn [response_json];
    try (split; reflexivity).
  split; [reflexivity|].
  destruct (expected_structure data).
  - split; [reflexivity | discriminate].
  - split; [discriminate|]. intros _.
    destruct data as [| | | | | | d]; try (eexists; reflexivity).
    destruct (assoc "data" d) as [[| | | | | |] |]; eexists; reflexivity.
Qed.

(** ** Rounding to four decimals keeps the order

    [round4] is the rounding of [|x| * 10^4] to an integer [d], then the
    division of [d] by the float 10000.  Both roundings are to nearest, ties
    to even, and so both are monotone; the second is read off the
    specification of IEEE division. *)

Module RoundFacts.
Import F64 F64Facts F64More.

Lemma rne_div_bounds (n d : Z) : n / d <= rne_div n d <= n / d + 1.
Proof.
  unfold rne_div. destruct (2 * (n mod d) ?= d); [destruct (Z.even (n / d))| |]; lia.
Qed.

Lemma rne_div_mono (n n' d : Z) : 0 < d -> n <= n' -> rne_div n d <= rne_div n' d.
Proof.
  intros Hd Hn.
  assert (Q : n / d <= n' / d) by (apply Z.div_le_mono; lia).
  destruct (Z.eq_dec (n / d) (n' / d)) as [E | NE].
  - assert (R : n mod d <= n' mod d).
    { rewrite (Z.mod_eq n d), (Z.mod_eq n' d), E by lia. lia. }
    unfold rne_div. rewrite <- E.
    destruct (Z.compare_spec (2 * (n mod d)) d); destruct (Z.compare_spec (2 * (n' mod d)) d);
      try (destruct (Z.even (n / d))); lia.
  - pose proof (rne_div_bounds n d). pose proof (rne_div_bounds n' d). lia.
Qed.

Lemma rne_div_exact (q d : Z) : 0 < d -> rne_div (q * d) d = q.
Proof.
  intros Hd. unfold rne_div. rewrite Z.mod_mul, Z.div_mul by lia.
  destruct (Z.compare_spec (2 * 0) d); [lia | reflexivity | lia].
Qed.

Lemma rne_div_scale (n d k : Z) : 0 < d -> 0 < k -> rne_div (n * k) (d * k) = rne_div n d.
Proof.
  intros Hd Hk. unfold rne_div.
  rewrite Z.div_mul_cancel_r by lia.
  rewrite Z.mul_mod_distr_r by lia.
  destruct (Z.compare_spec (2 * (n mod d * k)) (d * k));
    destruct (Z.compare_spec (2 * (n mod d)) d); try reflexivity; nia.
Qed.

Lemma rne_shr_div (n k : Z) : rne_shr n k = rne_div n (2 ^ k).
Proof. reflexivity. Qed.

(** If the rounding of [n / d] exceeds the integer [k], [n / d] is at least [k]. *)
Lemma rne_div_gt (n d k : Z) : 0 < d -> k < rne_div n d -> k * d <= n.
Proof.
  intros Hd H. pose proof (rne_div_bounds n d) as B.
  assert (k <= n / d) by lia.
  pose proof (Z.mul_div_le n d Hd). nia.
Qed.

Lemma decimal4_mag (m : positive) (e : Z) :
  - 1074 <= e -> decimal4 m e = rne_div (mag m e * scale4) (2 ^ 1074).
Proof.
  intros He. unfold decimal4, mag.
  destruct (0 <=? e) eqn:S.
  - apply Z.leb_le in S. rewrite Z.pow_add_r by lia.
    replace (Z.pos m * (2 ^ e * 2 ^ 1074) * scale4) with (Z.pos m * scale4 * 2 ^ e * 2 ^ 1074)
      by ring.
    now rewrite rne_div_exact by (apply pow2_pos; lia).
  - apply Z.leb_gt in S. rewrite rne_shr_div.
    rewrite <- (rne_div_scale (Z.pos m * scale4) (2 ^ (- e)) (2 ^ (e + 1074)))
      by (apply pow2_pos; lia).
    rewrite <- Z.pow_add_r by lia. replace (- e + (e + 1074)) with 1074 by lia.
    f_equal. ring.
Qed.

Lemma decimal4_mono (m m' : positive) (e e' : Z) :
  - 1074 <= e -> - 1074 <= e' -> mag m e <= mag m' e' -> decimal4 m e <= decimal4 m' e'.
Proof.
  intros He He' H. rewrite !decimal4_mag by assumption.
  apply rne_div_mono; [apply pow2_pos; lia|]. unfold scale4. lia.
Qed.

Lemma rne_div_nonneg (n d : Z) : 0 <= n -> 0 < d -> 0 <= rne_div n d.
Proof.
  intros Hn Hd. pose proof (rne_div_bounds n d). pose proof (Z.div_pos n d Hn Hd). lia.
Qed.

Lemma new_location_rne (q D r : Z) :
  0 < D -> Z.even D = true -> 0 <= r < D ->
  round_nearest_even q (new_location D r) = rne_div (q * D + r) D.
Proof.
  intros HD Hev Hr. unfold new_location, new_location_even, rne_div. rewrite Hev.
  rewrite Z.div_add_l by lia. rewrite Z.div_small, Z.add_0_r by lia.
  rewrite Z.add_comm, Z.mod_add, Z.mod_small by lia.
  destruct (Z.eqb_spec r 0) as [-> | NZ]; cbn [round_nearest_even].
  - destruct (Z.compare_spec (2 * 0) D); [lia | reflexivity | lia].
  - destruct (2 * r ?= D); reflexivity.
Qed.

Lemma shr_1_rne (q : positive) (D r : Z) :
  0 < D -> Z.even D = true -> 0 <= r < D ->
  round_nearest_even (shr_m (shr_1 (shr_record_of_loc (Z.pos q) (new_location D r))))
    (loc_of_shr_record (shr_1 (shr_record_of_loc (Z.pos q) (new_location D r)))) =
  rne_div (Z.pos q * D + r) (D * 2).
Proof.
  intros HD Hev Hr. unfold new_location, new_location_even, rne_div. rewrite Hev.
  assert (Q : forall p b, 0 <= b <= 1 ->
            (Z.pos q = 2 * p + b) ->
            (Z.pos q * D + r) / (D * 2) = p /\ (Z.pos q * D + r) mod (D * 2) = b * D + r).
  { intros p b Hb E. rewrite E.
    replace ((2 * p + b) * D + r) with (b * D + r + p * (D * 2)) by ring.
    rewrite Z.div_add, Z.mod_add by lia.
    rewrite Z.div_small, Z.mod_small by nia. split; lia. }
  destruct q as [p | p |].
  - destruct (Q (Z.pos p) 1 ltac:(lia) ltac:(lia)) as [-> ->].
    destruct (Z.eqb_spec r 0) as [-> | NZ].
    + destruct (Z.compare_spec (2 * (1 * D + 0)) (D * 2)); try lia. reflexivity.
    + destruct (Z.compare_spec (2 * (1 * D + r)) (D * 2)); try lia.
      destruct (2 * r ?= D); reflexivity.
  - destruct (Q (Z.pos p) 0 ltac:(lia) ltac:(lia)) as [-> ->].
    destruct (Z.compare_spec (2 * (0 * D + r)) (D * 2)); try lia.
    destruct (Z.eqb_spec r 0) as [-> | NZ]; [reflexivity|].
    destruct (2 * r ?= D); reflexivity.
  - destruct (Q 0 1 ltac:(lia) ltac:(lia)) as [-> ->].
    destruct (Z.eqb_spec r 0) as [-> | NZ].
    + destruct (Z.compare_spec (2 * (1 * D + 0)) (D * 2)); try lia. reflexivity.
    + destruct (Z.compare_spec (2 * (1 * D + r)) (D * 2)); try lia.
      destruct (2 * r ?= D); reflexivity.
Qed.

Lemma loc_shr_record (m : Z) (l : location) :
  shr_m (shr_record_of_loc m l) = m /\ loc_of_shr_record (shr_record_of_loc m l) = l.
Proof. destruct l as [| []]; split; reflexivity. Qed.

(** Rounding a quotient: [q] is the integer part of [n / d], the location
    tells where the rest lies, and at most one digit is dropped. *)
Lemma binary_round_aux_quotient (s : bool) (q : positive) (e D r k1 : Z) :
  0 < D -> Z.even D = true -> 0 <= r < D ->
  k1 = fx (Z.pos (digits2_pos q) + e) - e -> 0 <= k1 <= 1 ->
  binary_round_aux prec emax s (Z.pos q) e (new_location D r) =
    match rne_div (Z.pos q * D + r) (D * 2 ^ k1)
          / 2 ^ Z.max 0 (fx (Zdigits2 (rne_div (Z.pos q * D + r) (D * 2 ^ k1)) + (e + k1))
                         - (e + k1)) with
    | 0 => S754_zero s
    | Z.pos p =>
        if e + k1 + Z.max 0 (fx (Zdigits2 (rne_div (Z.pos q * D + r) (D * 2 ^ k1)) + (e + k1))
                             - (e + k1)) <=? 971
        then S754_finite s p
               (e + k1 + Z.max 0 (fx (Zdigits2 (rne_div (Z.pos q * D + r) (D * 2 ^ k1))
                                      + (e + k1)) - (e + k1)))
        else S754_infinity s
    | Z.neg _ => S754_nan
    end.
Proof.
  intros HD Hev Hr Hk Bk.
  set (m1 := rne_div (Z.pos q * D + r) (D * 2 ^ k1)).
  assert (P : 0 <= m1).
  { apply rne_div_nonneg; [nia|]. pose proof (pow2_pos k1 ltac:(lia)). nia. }
  unfold binary_round_aux, shr_fexp. rewrite fexp_fx. cbn [Zdigits2]. rewrite <- Hk.
  assert (E1 : exists mrs',
             shr (shr_record_of_loc (Z.pos q) (new_location D r)) e k1 = (mrs', e + k1) /\
             round_nearest_even (shr_m mrs') (loc_of_shr_record mrs') = m1).
  { assert (K : k1 = 0 \/ k1 = 1) by lia. clear Bk. destruct K as [-> | ->].
    - eexists. split; [cbn [shr]; rewrite Z.add_0_r; reflexivity|].
      destruct (loc_shr_record (Z.pos q) (new_location D r)) as [-> ->].
      unfold m1. rewrite Z.pow_0_r, Z.mul_1_r. now apply new_location_rne.
    - eexists. split; [cbn [shr iter_pos]; reflexivity|].
      unfold m1. change (2 ^ 1) with 2. now apply shr_1_rne. }
  destruct E1 as (mrs' & -> & ->).
  rewrite fexp_fx.
  set (r1 := {| shr_m := m1; shr_r := false; shr_s := false |}).
  destruct (shr_spec r1 (e + k1) (fx (Zdigits2 m1 + (e + k1)) - (e + k1)) ltac:(cbn; lia))
    as (Hm2 & He2 & _).
  change (shr_record_of_loc m1 loc_Exact) with r1.
  destruct (shr r1 (e + k1) (fx (Zdigits2 m1 + (e + k1)) - (e + k1))) as [mrs'' e''].
  cbn [fst snd] in Hm2, He2. subst e''. rewrite Hm2. cbn [shr_m r1].
  reflexivity.
Qed.

Lemma of_uint63_normal (d : Z) :
  0 < d < 2 ^ 53 ->
  exists p : positive,
    Prim2SF (of_uint63 (Uint63.of_Z d)) = S754_finite false p (Zdigits2 d - 53) /\
    Z.pos p = d * 2 ^ (53 - Zdigits2 d) /\
    2 ^ 52 <= Z.pos p < 2 ^ 53 /\ 1 <= Zdigits2 d <= 53.
Proof.
  intros Hd. rewrite of_uint63_spec, Uint63.of_Z_spec.
  rewrite Z.mod_small by (change wB with (2 ^ 63); lia).
  destruct d as [| w | w]; try lia. cbn [binary_normalize].
  destruct (Zdigits2_bounds (Z.pos w) ltac:(lia)) as (Lp & Llo & Lhi).
  cbn [Zdigits2] in *.
  set (L := Z.pos (digits2_pos w)) in *.
  assert (L53 : L <= 53).
  { assert (L - 1 < 53); [|lia]. apply (Z.pow_lt_mono_r_iff 2); lia. }
  destruct (binary_round_spec false w 0 ltac:(lia)) as (m1 & B & E1 & _ & R).
  rewrite Z.add_0_r in *. fold L in E1, R.
  assert (C : fx L = L - 53) by (unfold fx; lia).
  rewrite C in *. specialize (E1 ltac:(lia)).
  replace (0 - (L - 53)) with (53 - L) in E1 by lia.
  assert (P52 : 2 ^ 52 = 2 ^ (L - 1) * 2 ^ (53 - L)).
  { rewrite <- Z.pow_add_r by lia. f_equal. lia. }
  assert (P53 : 2 ^ 53 = 2 ^ L * 2 ^ (53 - L)).
  { rewrite <- Z.pow_add_r by lia. f_equal. lia. }
  pose proof (pow2_pos (53 - L) ltac:(lia)) as PP.
  assert (M : 2 ^ 52 <= m1 < 2 ^ 53).
  { rewrite E1, P52, P53. split.
    - apply Z.mul_le_mono_nonneg_r; lia.
    - apply Z.mul_lt_mono_pos_r; lia. }
  destruct R as [[Z0 _] | (_ & p & e & Eq & Be & Ec & ->)]; [lia|].
  specialize (Ec ltac:(lia)). subst e.
  assert (Ep : Z.pos p = m1).
  { pose proof (pow2_pos (L - 53 + 1074) ltac:(lia)). nia. }
  exists p. replace (L - 53 <=? 971) with true by (symmetry; apply Z.leb_le; lia).
  split; [reflexivity|]. split; [lia|]. split; lia.
Qed.

Lemma scale4_float :
  Prim2SF (of_uint63 (Uint63.of_Z scale4)) = S754_finite false 5497558138880000 (- 39).
Proof. vm_compute. reflexivity. Qed.

Lemma digits_53 (p : positive) : 2 ^ 52 <= Z.pos p < 2 ^ 53 -> Z.pos (digits2_pos p) = 53.
Proof.
  intros H. pose proof (digits2_pos_bounds p) as [Lo Hi].
  assert (Z.pos (digits2_pos p) - 1 < 53).
  { apply (Z.pow_lt_mono_r_iff 2); lia. }
  assert (52 < Z.pos (digits2_pos p)).
  { apply (Z.pow_lt_mono_r_iff 2); lia. }
  lia.
Qed.

(** The division of a 53-digit mantissa by the float 10000. *)
Lemma div_core_scale4 (p : positive) (e : Z) :
  2 ^ 52 <= Z.pos p < 2 ^ 53 -> - 52 <= e <= 0 ->
  SFdiv_core_binary prec emax (Z.pos p) e 5497558138880000 (- 39) =
  ((Z.pos p * 2 ^ 53) / 5497558138880000, e - 14,
   new_location 5497558138880000 ((Z.pos p * 2 ^ 53) mod 5497558138880000)).
Proof.
  intros Hp He. unfold SFdiv_core_binary. cbn [Zdigits2]. rewrite (digits_53 p Hp).
  change (Z.pos (digits2_pos 5497558138880000)) with 53.
  rewrite fexp_fx. unfold fx.
  replace (Z.min (Z.max (53 + e - (53 + - 39) - 53) (- 1074)) (e - - 39)) with (e - 14) by lia.
  replace (e - - 39 - (e - 14)) with 53 by lia.
  rewrite Z.shiftl_mul_pow2 by lia.
  unfold Z.div, Z.modulo.
  destruct (Z.div_eucl (Z.pos p * 2 ^ 53) 5497558138880000) as [q r]. reflexivity.
Qed.

Lemma digits_of_range (q k : Z) : 0 <= k -> 2 ^ k <= q < 2 ^ (k + 1) -> Zdigits2 q = k + 1.
Proof.
  intros Hk H. pose proof (pow2_pos k Hk).
  destruct (Zdigits2_bounds q ltac:(lia)) as (Dp & Lo & Hi).
  assert (Zdigits2 q - 1 < k + 1) by (apply (Z.pow_lt_mono_r_iff 2); lia).
  assert (k < Zdigits2 q) by (apply (Z.pow_lt_mono_r_iff 2); lia).
  lia.
Qed.

(** [of_decimal4 d] is [d / 10^4] rounded to nearest, ties to even: with the
    exponent [c] that brings the quotient between [2^52] and [2^53], its
    mantissa is the rounding of [d * 2^-c / 10^4]. *)
Lemma of_decimal4_rounded (d : Z) :
  0 < d < 2 ^ 53 ->
  exists c : Z,
    - 66 <= c <= - 13 /\
    2 ^ 52 * scale4 <= d * 2 ^ (- c) < 2 ^ 53 * scale4 /\
    rounded false (rne_div (d * 2 ^ (- c)) scale4) c (Prim2SF (of_decimal4 d)).
Proof.
  intros Hd. unfold of_decimal4. rewrite div_spec, scale4_float.
  destruct (of_uint63_normal d Hd) as (p & -> & Ep & Bp & BL).
  set (L := Zdigits2 d) in *.
  unfold SF64div, SFdiv. cbn [xorb].
  rewrite (div_core_scale4 p (L - 53) Bp ltac:(lia)).
  set (D0 := 5497558138880000).
  set (N := Z.pos p * 2 ^ 53).
  assert (HD : 0 < D0) by reflexivity.
  assert (Hq : 2 ^ 52 <= N / D0 < 2 ^ 54).
  { split.
    - apply Z.div_le_lower_bound; [exact HD|]. unfold N, D0. lia.
    - apply Z.div_lt_upper_bound; [exact HD|]. unfold N, D0. lia. }
  pose proof (Z.div_mod N D0 ltac:(unfold D0; lia)) as DM.
  pose proof (Z.mod_pos_bound N D0 HD) as RB.
  destruct (N / D0) as [| q | q] eqn:Q; try lia.
  assert (A : 0 < 2 ^ (53 - L)) by (apply pow2_pos; lia).
  destruct (Z_lt_le_dec (Z.pos q) (2 ^ 53)) as [Small | Big].
  - (* no digit dropped *)
    assert (Dq : Z.pos (digits2_pos q) = 53).
    { apply (digits_of_range (Z.pos q) 52); lia. }
    rewrite (binary_round_aux_quotient false q (L - 53 - 14) D0 (N mod D0) 0 HD eq_refl RB)
      by (rewrite ?Dq; unfold fx; lia).
    replace (Z.pos q * D0 + N mod D0) with N by lia.
    rewrite Z.pow_0_r, Z.mul_1_r.
    assert (EX : N = d * 2 ^ (- (L - 53 - 14 + 0)) * 2 ^ 39).
    { unfold N. rewrite Ep. replace (- (L - 53 - 14 + 0)) with (53 - L + 14) by lia.
      rewrite Z.pow_add_r by lia. lia. }
    set (c := L - 53 - 14 + 0) in *.
    set (X := d * 2 ^ (- c)) in *.
    assert (BX : 2 ^ 52 * scale4 <= X < 2 ^ 53 * scale4).
    { unfold scale4. unfold D0 in *. lia. }
    exists c. split; [unfold c; lia|]. split; [exact BX|].
    change D0 with (scale4 * 2 ^ 39). rewrite EX.
    rewrite rne_div_scale by (unfold scale4; lia).
    apply second_shift; [|unfold c; lia].
    split; [apply rne_div_nonneg; unfold scale4; lia|].
    rewrite <- (rne_div_exact (2 ^ 53) scale4) by (unfold scale4; lia).
    apply rne_div_mono; [unfold scale4; lia | lia].
  - (* one digit dropped *)
    assert (Dq : Z.pos (digits2_pos q) = 54).
    { apply (digits_of_range (Z.pos q) 53); lia. }
    rewrite (binary_round_aux_quotient false q (L - 53 - 14) D0 (N mod D0) 1 HD eq_refl RB)
      by (rewrite ?Dq; unfold fx; lia).
    replace (Z.pos q * D0 + N mod D0) with N by lia.
    assert (EX : N = d * 2 ^ (- (L - 53 - 14 + 1)) * 2 ^ 40).
    { unfold N. rewrite Ep. replace (- (L - 53 - 14 + 1)) with (53 - L + 13) by lia.
      rewrite Z.pow_add_r by lia. lia. }
    set (c := L - 53 - 14 + 1) in *.
    set (X := d * 2 ^ (- c)) in *.
    assert (BX : 2 ^ 52 * scale4 <= X < 2 ^ 53 * scale4).
    { unfold scale4. unfold D0 in *. lia. }
    exists c. split; [unfold c; lia|]. split; [exact BX|].
    change (D0 * 2 ^ 1) with (scale4 * 2 ^ 40). rewrite EX.
    rewrite rne_div_scale by (unfold scale4; lia).
    apply second_shift; [|unfold c; lia].
    split; [apply rne_div_nonneg; unfold scale4; lia|].
    rewrite <- (rne_div_exact (2 ^ 53) scale4) by (unfold scale4; lia).
    apply rne_div_mono; [unfold scale4; lia | lia].
Qed.

Lemma rounded_rank (m1 c : Z) (r : spec_float) :
  rounded false m1 c r -> valid_binary r = true ->
  2 ^ 52 <= m1 <= 2 ^ 53 -> - 1074 <= c <= 970 ->
  is_nan r = false /\
  rank r = if m1 <? 2 ^ 53 then (c + 1075) * 2 ^ 53 + m1 else (c + 1076) * 2 ^ 53 + 2 ^ 52.
Proof.
  intros R V Hm Hc. destruct R as [[Z0 _] | (_ & p & e & Eq & Be & Ec & ->)]; [lia|].
  replace (e <=? 971) with true in * by (symmetry; apply Z.leb_le; lia).
  split; [reflexivity|]. cbn [rank].
  destruct (bounded_inv p e V) as (_ & _ & Bp & _).
  pose proof (pow2_pos (c + 1074) ltac:(lia)) as PP.
  destruct (Z.ltb_spec m1 (2 ^ 53)) as [Lt | Ge].
  - specialize (Ec Lt). subst e. assert (Z.pos p = m1) by nia. lia.
  - assert (m1 = 2 ^ 53) by lia. subst m1.
    assert (e = c \/ e = c + 1) by lia. destruct H as [-> | ->].
    + assert (Z.pos p = 2 ^ 53) by nia. lia.
    + replace (c + 1 + 1074) with (1 + (c + 1074)) in Eq by lia.
      rewrite Z.pow_add_r in Eq by lia. change (2 ^ 1) with 2 in Eq.
      assert (Z.pos p = 2 ^ 52) by nia. lia.
Qed.

Lemma of_decimal4_zero : Prim2SF (of_decimal4 0) = S754_zero false.
Proof. vm_compute. reflexivity. Qed.

(** The rank of [of_decimal4 d], by the exponent and the mantissa of the
    quotient. *)
Lemma of_decimal4_rank (d : Z) :
  0 < d < 2 ^ 53 ->
  exists c m1 : Z,
    - 66 <= c <= - 13 /\
    2 ^ 52 * scale4 <= d * 2 ^ (- c) < 2 ^ 53 * scale4 /\
    m1 = rne_div (d * 2 ^ (- c)) scale4 /\ 2 ^ 52 <= m1 <= 2 ^ 53 /\
    fnan (of_decimal4 d) = false /\
    frank (of_decimal4 d) =
      if m1 <? 2 ^ 53 then (c + 1075) * 2 ^ 53 + m1 else (c + 1076) * 2 ^ 53 + 2 ^ 52.
Proof.
  intros Hd. destruct (of_decimal4_rounded d Hd) as (c & Bc & BX & R).
  exists c, (rne_div (d * 2 ^ (- c)) scale4).
  assert (Bm : 2 ^ 52 <= rne_div (d * 2 ^ (- c)) scale4 <= 2 ^ 53).
  { split.
    - rewrite <- (rne_div_exact (2 ^ 52) scale4) at 1 by (unfold scale4; lia).
      apply rne_div_mono; [unfold scale4; lia | lia].
    - rewrite <- (rne_div_exact (2 ^ 53) scale4) by (unfold scale4; lia).
      apply rne_div_mono; [unfold scale4; lia | lia]. }
  destruct (rounded_rank _ _ _ R (Prim2SF_valid _) Bm ltac:(lia)) as [N K].
  repeat split; try lia; assumption.
Qed.

Lemma of_decimal4_mono (d d' : Z) :
  0 <= d <= d' -> d' < 2 ^ 53 ->
  fnan (of_decimal4 d) = false /\ fnan (of_decimal4 d') = false /\
  0 <= frank (of_decimal4 d) <= frank (of_decimal4 d').
Proof.
  intros Hd Hd'.
  assert (Z0 : fnan (of_decimal4 0) = false /\ frank (of_decimal4 0) = 0).
  { unfold fnan, frank. rewrite of_decimal4_zero. split; reflexivity. }
  assert (P : forall x, 0 < x < 2 ^ 53 ->
            fnan (of_decimal4 x) = false /\ 0 < frank (of_decimal4 x)).
  { intros x Hx. destruct (of_decimal4_rank x Hx) as (c & m1 & Bc & _ & _ & Bm & N & K).
    split; [exact N|]. rewrite K. destruct (m1 <? 2 ^ 53); nia. }
  destruct (Z.eq_dec d 0) as [-> | NZ].
  { destruct Z0 as [N0 R0]. rewrite R0. split; [exact N0|].
    destruct (Z.eq_dec d' 0) as [-> | NZ']; [rewrite R0; repeat split; (exact N0 || lia)|].
    destruct (P d' ltac:(lia)) as [N' R']. repeat split; (exact N' || lia). }
  destruct (of_decimal4_rank d ltac:(lia)) as (c & m1 & Bc & BX & Em & Bm & N & K).
  destruct (of_decimal4_rank d' ltac:(lia)) as (c' & m1' & Bc' & BX' & Em' & Bm' & N' & K').
  split; [exact N|]. split; [exact N'|]. rewrite K, K'.
  assert (Cle : c <= c').
  { destruct (Z_le_gt_dec c c') as [? | Gt]; [assumption | exfalso].
    assert (E : 2 ^ (- c') = 2 ^ (c - c') * 2 ^ (- c)).
    { rewrite <- Z.pow_add_r by lia. f_equal. lia. }
    assert (2 <= 2 ^ (c - c')).
    { change 2 with (2 ^ 1) at 1. apply Z.pow_le_mono_r; lia. }
    pose proof (pow2_pos (- c) ltac:(lia)).
    assert (2 * (d * 2 ^ (- c)) <= d' * 2 ^ (- c')).
    { rewrite E. nia. }
    lia. }
  split.
  { destruct (m1 <? 2 ^ 53); nia. }
  destruct (Z.eq_dec c c') as [<- | NE].
  - assert (m1 <= m1').
    { subst m1 m1'. apply rne_div_mono; [unfold scale4; lia|].
      pose proof (pow2_pos (- c) ltac:(lia)). nia. }
    destruct (Z.ltb_spec m1 (2 ^ 53)); destruct (Z.ltb_spec m1' (2 ^ 53)); lia.
  - assert (c + 1 <= c') by lia.
    destruct (Z.ltb_spec m1 (2 ^ 53)); destruct (Z.ltb_spec m1' (2 ^ 53)); nia.
Qed.

(** [of_decimal4 d] does not exceed a float that [d / 10^4] does not exceed. *)
Lemma of_decimal4_le_float (d : Z) (m : positive) (e : Z) :
  0 < d < 2 ^ 53 -> bounded prec emax m e = true ->
  d * 2 ^ 1074 <= mag m e * scale4 ->
  frank (of_decimal4 d) <= (e + 1075) * 2 ^ 53 + Z.pos m.
Proof.
  intros Hd Bd H.
  destruct (of_decimal4_rank d Hd) as (c & m1 & Bc & BX & Em & Bm & _ & K).
  destruct (bounded_inv m e Bd) as (Be & _ & Bp & Norm).
  rewrite K. unfold mag in H.
  pose proof (pow2_pos (- c) ltac:(lia)) as P1.
  pose proof (pow2_pos (c + 1074) ltac:(lia)) as P2.
  assert (S1 : 2 ^ 1074 = 2 ^ (- c) * 2 ^ (c + 1074)).
  { rewrite <- Z.pow_add_r by lia. f_equal. lia. }
  destruct (Z.lt_trichotomy c e) as [Lt | [<- | Gt]].
  - specialize (Norm ltac:(lia)). destruct Norm as [_ Lo].
    destruct (Z.ltb_spec m1 (2 ^ 53)); nia.
  - assert (X : d * 2 ^ (- c) <= Z.pos m * scale4).
    { rewrite S1 in H.
      replace (d * (2 ^ (- c) * 2 ^ (c + 1074))) with (d * 2 ^ (- c) * 2 ^ (c + 1074)) in H
        by ring.
      replace (Z.pos m * 2 ^ (c + 1074) * scale4) with (Z.pos m * scale4 * 2 ^ (c + 1074)) in H
        by ring.
      apply Z.mul_le_mono_pos_r in H; assumption. }
    assert (m1 <= Z.pos m).
    { subst m1. rewrite <- (rne_div_exact (Z.pos m) scale4) by (unfold scale4; lia).
      apply rne_div_mono; [unfold scale4; lia | exact X]. }
    destruct (Z.ltb_spec m1 (2 ^ 53)); lia.
  - exfalso.
    assert (S2 : 2 ^ (c + 1074) = 2 ^ (c - e) * 2 ^ (e + 1074)).
    { rewrite <- Z.pow_add_r by lia. f_equal. lia. }
    assert (2 <= 2 ^ (c - e)).
    { change 2 with (2 ^ 1) at 1. apply Z.pow_le_mono_r; lia. }
    pose proof (pow2_pos (e + 1074) ltac:(lia)) as P3.
    assert (T : 2 ^ 53 * scale4 * 2 ^ (e + 1074) <= d * 2 ^ 1074).
    { rewrite S1, S2.
      replace (d * (2 ^ (- c) * (2 ^ (c - e) * 2 ^ (e + 1074))))
        with (d * 2 ^ (- c) * 2 ^ (c - e) * 2 ^ (e + 1074)) by ring.
      apply Z.mul_le_mono_nonneg_r; [lia|]. unfold scale4 in *. nia. }
    assert (Z.pos m * 2 ^ (e + 1074) * scale4 < 2 ^ 53 * scale4 * 2 ^ (e + 1074)).
    { unfold scale4. nia. }
    lia.
Qed.

Lemma opp_involutive (x : float) : PrimFloat.opp (PrimFloat.opp x) = x.
Proof.
  apply Prim2SF_inj. rewrite !opp_spec. destruct (Prim2SF x) as [s | s | | s m e]; cbn;
    rewrite ?Bool.negb_involutive; reflexivity.
Qed.

Lemma round4_opp (x : float) : round4 (PrimFloat.opp x) = PrimFloat.opp (round4 x).
Proof.
  unfold round4. rewrite opp_spec.
  destruct (Prim2SF x) as [s | s | | s m e]; cbn [SFopp]; try reflexivity.
  destruct (decimal4 m e <? 2 ^ 53); [|reflexivity].
  destruct s; cbn [negb]; [now rewrite opp_involutive | reflexivity].
Qed.

Lemma rank_le_mag (m m' : positive) (e e' : Z) :
  bounded prec emax m e = true -> bounded prec emax m' e' = true ->
  (e + 1075) * 2 ^ 53 + Z.pos m <= (e' + 1075) * 2 ^ 53 + Z.pos m' ->
  mag m e <= mag m' e'.
Proof.
  intros B B' H. destruct (Z_le_gt_dec (mag m e) (mag m' e')) as [? | Gt]; [assumption|].
  pose proof (rank_mag_le m' m e' e B' B ltac:(lia)) as R.
  assert (E : S754_finite false m e = S754_finite false m' e').
  { apply rank_inj; try reflexivity; try assumption.
    - cbn [rank]. lia.
    - cbn [rank]. destruct (bounded_inv m e B) as (? & _ & ? & _). nia. }
  injection E as -> ->. lia.
Qed.

Lemma decimal4_nonneg (m : positive) (e : Z) : - 1074 <= e -> 0 <= decimal4 m e.
Proof.
  intros He. rewrite decimal4_mag by exact He. apply rne_div_nonneg.
  - unfold mag, scale4. pose proof (pow2_pos (e + 1074) ltac:(lia)). nia.
  - apply pow2_pos. lia.
Qed.

Lemma round4_mono_finite (x y : float) (m m' : positive) (e e' : Z) :
  Prim2SF x = S754_finite false m e -> Prim2SF y = S754_finite false m' e' ->
  frank x <= frank y ->
  fnan (round4 x) = false /\ fnan (round4 y) = false /\
  0 <= frank (round4 x) <= frank (round4 y).
Proof.
  intros Ex Ey H.
  pose proof (Prim2SF_valid x) as B. rewrite Ex in B. cbn in B.
  pose proof (Prim2SF_valid y) as B'. rewrite Ey in B'. cbn in B'.
  assert (Rx : frank x = (e + 1075) * 2 ^ 53 + Z.pos m) by (unfold frank; now rewrite Ex).
  assert (Ry : frank y = (e' + 1075) * 2 ^ 53 + Z.pos m') by (unfold frank; now rewrite Ey).
  assert (Nx : fnan x = false) by (unfold fnan; now rewrite Ex).
  assert (Ny : fnan y = false) by (unfold fnan; now rewrite Ey).
  destruct (bounded_inv m e B) as (Be & _ & Bm & _).
  destruct (bounded_inv m' e' B') as (Be' & _ & Bm' & _).
  assert (M : mag m e <= mag m' e') by (apply rank_le_mag; try assumption; lia).
  pose proof (decimal4_mono m m' e e' ltac:(lia) ltac:(lia) M) as D.
  pose proof (decimal4_nonneg m e ltac:(lia)) as D0.
  unfold round4. rewrite Ex, Ey.
  destruct (Z.ltb_spec (decimal4 m' e') (2 ^ 53)) as [S' | L'].
  - replace (decimal4 m e <? 2 ^ 53) with true by (symmetry; apply Z.ltb_lt; lia).
    apply of_decimal4_mono; lia.
  - destruct (Z.ltb_spec (decimal4 m e) (2 ^ 53)) as [S | L].
    + destruct (of_decimal4_mono (decimal4 m e) (decimal4 m e) ltac:(lia) S) as (N & _ & P & _).
      split; [exact N|]. split; [exact Ny|]. split; [exact P|]. rewrite Ry.
      destruct (Z.eq_dec (decimal4 m e) 0) as [Z0 | NZ].
      * rewrite Z0. unfold frank. rewrite of_decimal4_zero. cbn [rank]. nia.
      * apply of_decimal4_le_float; [lia | exact B' |].
        apply rne_div_gt; [apply pow2_pos; lia|].
        rewrite <- decimal4_mag by lia. lia.
    + split; [exact Nx|]. split; [exact Ny|]. rewrite Rx. split; [nia|]. lia.
Qed.

Lemma round4_mono_nonneg (x y : float) :
  fnan x = false -> fnan y = false -> 0 <= frank x <= frank y ->
  fnan (round4 x) = false /\ fnan (round4 y) = false /\
  0 <= frank (round4 x) <= frank (round4 y).
Proof.
  intros Nx Ny H.
  assert (Self : forall z, fnan z = false -> 0 <= frank z ->
                 fnan (round4 z) = false /\ 0 <= frank (round4 z) /\
                 (forall s, Prim2SF z = S754_zero s -> frank (round4 z) = 0) /\
                 (Prim2SF z = S754_infinity false -> frank (round4 z) = 2 ^ 64)).
  { intros z Nz Pz. unfold fnan, frank in Nz, Pz.
    destruct (Prim2SF z) as [s | s | | s m e] eqn:Ez; try discriminate Nz.
    - unfold round4, fnan, frank. rewrite Ez, Ez. cbn.
      repeat split; try lia; intros; discriminate.
    - unfold round4, fnan, frank. rewrite Ez, Ez. cbn [is_nan rank] in *.
      destruct s; [lia|]. repeat split; try lia; intros; discriminate.
    - pose proof (Prim2SF_valid z) as B. rewrite Ez in B.
      destruct s.
      + cbn [rank] in Pz. pose proof (valid_finite_rank true m e B). lia.
      + destruct (round4_mono_finite z z m m e e Ez Ez ltac:(lia)) as (N & _ & P & _).
        repeat split; try assumption; intros; discriminate. }
  destruct (Self x Nx ltac:(lia)) as (Rx & Px & Zx & Ix).
  destruct (Self y Ny ltac:(lia)) as (Ry & Py & Zy & Iy).
  split; [exact Rx|]. split; [exact Ry|]. split; [exact Px|].
  unfold fnan, frank in Nx, Ny, H.
  destruct (Prim2SF x) as [s | s | | s m e] eqn:Ex; try discriminate Nx.
  - rewrite (Zx s eq_refl). exact Py.
  - destruct s; cbn [rank] in H; [lia|].
    destruct (Prim2SF y) as [s' | s' | | s' m' e'] eqn:Ey; try discriminate Ny.
    + cbn [rank] in H. lia.
    + destruct s'; cbn [rank] in H; [lia|]. rewrite (Ix eq_refl), (Iy eq_refl). lia.
    + pose proof (Prim2SF_valid y) as B. rewrite Ey in B.
      pose proof (valid_finite_rank s' m' e' B). cbn [rank] in H. destruct s'; lia.
  - destruct s.
    { pose proof (Prim2SF_valid x) as B. rewrite Ex in B.
      pose proof (valid_finite_rank true m e B). cbn [rank] in H. lia. }
    destruct (Prim2SF y) as [s' | s' | | s' m' e'] eqn:Ey; try discriminate Ny.
    + pose proof (Prim2SF_valid x) as B. rewrite Ex in B.
      pose proof (valid_finite_rank false m e B). cbn [rank] in H. lia.
    + destruct s'; cbn [rank] in H.
      { pose proof (Prim2SF_valid x) as B. rewrite Ex in B.
        pose proof (valid_finite_rank false m e B). lia. }
      rewrite (Iy eq_refl).
      assert (V : valid_binary (Prim2SF (round4 x)) = true) by apply Prim2SF_valid.
      unfold fnan, frank in Rx |- *.
      destruct (Prim2SF (round4 x)) as [s | s | | s m1 e1]; cbn [rank]; try lia.
      * destruct s; lia.
      * pose proof (valid_finite_rank s m1 e1 V). destruct s; lia.
    + destruct s'.
      { pose proof (Prim2SF_valid y) as B. rewrite Ey in B.
        pose proof (valid_finite_rank true m' e' B). cbn [rank] in H. lia. }
      apply (round4_mono_finite x y m m' e e' Ex Ey).
      unfold frank. rewrite Ex, Ey. exact (proj2 H).
Qed.

(** [round(., 4)] keeps the order of floats. *)
Lemma round4_mono (x y : float) :
  PrimFloat.leb x y = true -> PrimFloat.leb (round4 x) (round4 y) = true.
Proof.
  intros H. apply leb_iff in H. destruct H as (Nx & Ny & H). apply leb_iff.
  destruct (Z_le_gt_dec 0 (frank x)) as [Px | Mx].
  { destruct (round4_mono_nonneg x y Nx Ny ltac:(lia)) as (A & B & C). repeat split; tauto || lia. }
  destruct (Z_le_gt_dec (frank y) 0) as [My | Py].
  { destruct (round4_mono_nonneg (PrimFloat.opp y) (PrimFloat.opp x)) as (A & B & C).
    - now rewrite fnan_opp.
    - now rewrite fnan_opp.
    - rewrite !frank_opp. lia.
    - rewrite !round4_opp, !fnan_opp, !frank_opp in *. repeat split; tauto || lia. }
  destruct (round4_mono_nonneg 0%float y eq_refl Ny) as (_ & B & C).
  { change (frank 0) with 0. lia. }
  destruct (round4_mono_nonneg 0%float (PrimFloat.opp x) eq_refl) as (_ & B' & C').
  { now rewrite fnan_opp. }
  { change (frank 0) with 0. rewrite frank_opp. lia. }
  rewrite round4_opp, fnan_opp, frank_opp in *. repeat split; tauto || lia.
Qed.

End RoundFacts.

(** ** The order of the grid *)

Module GridOrder.
Import F64 F64Facts GridFacts RoundFacts.

(** Before the rounding: from one point to the next, one of the two
    coordinates has advanced by one step. *)
Lemma raw_row_major (b : bbox) (step : float) (fuel : nat) (pts : list point) :
  PrimFloat.ltb 0 step = true ->
  generate_grid fuel b step = Some pts ->
  exists raw : list point,
    pts = map round_point raw /\
    forall (i : nat) (p q : point),
      nth_error raw i = Some p -> nth_error raw (S i) = Some q ->
      (fst q = fst p /\ snd q = PrimFloat.add (snd p) step /\
       PrimFloat.leb (snd p) (snd q) = true /\
       (PrimFloat.add (snd p) step <> snd p -> PrimFloat.ltb (snd p) (snd q) = true)) \/
      (fst q = PrimFloat.add (fst p) step /\ snd q = min_lon b /\
       PrimFloat.leb (fst p) (fst q) = true /\
       (PrimFloat.add (fst p) step <> fst p -> PrimFloat.ltb (fst p) (fst q) = true)).
Proof.
  intros Hs H. unfold generate_grid in H.
  destruct (lat_loop_spec _ _ _ _ _ _ H) as (lats & Hlat & Hr).
  destruct Hr as [[-> ->] | (_ & lons & Hlon & ->)].
  { exists []. split; [reflexivity|]. intros [|i] p q Hp; discriminate Hp. }
  exists (raw_grid lats lons). split; [reflexivity|].
  intros i p q Hp Hq.
  destruct (in_raw_grid _ _ _ (nth_error_In _ _ Hp)) as [Plat Plon].
  destruct (in_raw_grid _ _ _ (nth_error_In _ _ Hq)) as [Qlat Qlon].
  assert (N : forall hi n x l y, sweep n hi step x = Some l -> In y l -> fnan y = false).
  { intros hi n x l y Hl Hy. pose proof (sweep_below _ _ _ _ _ _ Hl Hy) as L.
    apply leb_iff in L. tauto. }
  destruct (raw_grid_adjacent _ _ _ _ _ _ _ _ _ _ _ _ Hlat Hlon Hp Hq) as [[E1 E2] | [E1 E2]].
  - left. split; [exact E1|]. split; [exact E2|].
    pose proof (N _ _ _ _ _ Hlon Plon) as Np. pose proof (N _ _ _ _ _ Hlon Qlon) as Nq.
    rewrite E2 in Nq |- *. split.
    + now apply add_nondecreasing.
    + intros Hne. now apply add_increasing.
  - right. split; [exact E1|]. split; [exact E2|].
    pose proof (N _ _ _ _ _ Hlat Plat) as Np. pose proof (N _ _ _ _ _ Hlat Qlat) as Nq.
    rewrite E1 in Nq |- *. split.
    + now apply add_nondecreasing.
    + intros Hne. now apply add_increasing.
Qed.

Lemma nth_error_rounded (raw : list point) (i : nat) (p : point) :
  nth_error (map round_point raw) i = Some p ->
  exists p0 : point, nth_error raw i = Some p0 /\ p = round_point p0.
Proof.
  rewrite nth_error_map. destruct (nth_error raw i) as [p0 |]; [|discriminate].
  intros [= <-]. now exists p0.
Qed.

End GridOrder.

Import RoundFacts GridOrder.

(** C6, refuted as stated: with a step of 0.00004 the grid of
    [8.0, 8.00005] x [76.2, 76.2001] has two rows of three points, and the
    rounding to 4 decimals merges the first two longitudes of a row and the
    two latitudes.  From the first point to the second, (8.0, 76.2) twice,
    nothing increases strictly; from the third to the fourth, where the second
    row begins, the latitude does not increase though the longitude restarts. *)
Lemma generate_grid_rounding_merges_neighbours :
  let b := mk_bbox 8.0 8.00005 76.2 76.2001 in
  valid_bbox b /\ PrimFloat.ltb 0 0.00004 = true /\
  exists pts : list point,
    generate_grid 8 b 0.00004 = Some pts /\
    pts = [(8.0, 76.2); (8.0, 76.2); (8.0, 76.2001);
           (8.0, 76.2); (8.0, 76.2); (8.0, 76.2001)]%float /\
    forall i : nat, i = 0%nat \/ i = 2%nat ->
      exists p q : point,
        nth_error pts i = Some p /\ nth_error pts (S i) = Some q /\
        ~ ((fst q = fst p /\ PrimFloat.ltb (snd p) (snd q) = true) \/
           (PrimFloat.ltb (fst p) (fst q) = true /\
            (snd q = min_lon b \/ snd q = round4 (min_lon b)))).
Proof.
  intros b. split; [split; reflexivity|]. split; [reflexivity|].
  eexists. split; [vm_compute; reflexivity|]. split; [reflexivity|].
  intros i [-> | ->]; eexists; eexists; (split; [reflexivity|]); (split; [reflexivity|]);
    cbn [fst snd]; intros [[_ H] | [H _]]; vm_compute in H; discriminate H.
Qed.

(** C6, amended: for every bounding box and every step > 0, any two
    consecutive points of the grid either share the latitude, the longitude of
    the second being no smaller, or the latitude of the second is no smaller
    and its longitude is back at [min_lon], rounded.  The order is the one of
    the claim but for the strictness, which the rounding to 4 decimals does
    not keep; it holds strictly before the rounding, where from one point to
    the next one coordinate has advanced by one step, unless the step is
    absorbed. *)
Theorem generate_grid_row_major (b : bbox) (step : float) (fuel : nat) (pts : list point) :
  PrimFloat.ltb 0 step = true ->
  generate_grid fuel b step = Some pts ->
  (forall (i : nat) (p q : point),
     nth_error pts i = Some p -> nth_error pts (S i) = Some q ->
     (fst q = fst p /\ PrimFloat.leb (snd p) (snd q) = true) \/
     (PrimFloat.leb (fst p) (fst q) = true /\ snd q = round4 (min_lon b))) /\
  exists raw : list point,
    pts = map round_point raw /\
    forall (i : nat) (p q : point),
      nth_error raw i = Some p -> nth_error raw (S i) = Some q ->
      (fst q = fst p /\ snd q = PrimFloat.add (snd p) step /\
       (PrimFloat.add (snd p) step <> snd p -> PrimFloat.ltb (snd p) (snd q) = true)) \/
      (fst q = PrimFloat.add (fst p) step /\ snd q = min_lon b /\
       (PrimFloat.add (fst p) step <> fst p -> PrimFloat.ltb (fst p) (fst q) = true)).
Proof.
  intros Hs H. destruct (raw_row_major b step fuel pts Hs H) as (raw & -> & Hraw). split.
  - intros i p q Hp Hq.
    destruct (nth_error_rounded _ _ _ Hp) as (p0 & Hp0 & ->).
    destruct (nth_error_rounded _ _ _ Hq) as (q0 & Hq0 & ->).
    unfold round_point. cbn [fst snd].
    destruct (Hraw i p0 q0 Hp0 Hq0) as [(E1 & _ & L & _) | (_ & E2 & L & _)].
    + left. split; [now rewrite E1 | now apply round4_mono].
    + right. split; [now apply round4_mono | now rewrite E2].
  - exists raw. split; [reflexivity|]. intros i p q Hp Hq.
    destruct (Hraw i p q Hp Hq) as [(E1 & E2 & _ & S) | (E1 & E2 & _ & S)];
      [left | right]; repeat split; assumption.
Qed.

Lemma generate_grid_row_major_witness :
  let pts := [(8.0, 76.2); (8.0, 76.5); (8.3, 76.2); (8.3, 76.5)]%float in
  PrimFloat.ltb 0 GRID_STEP = true /\
  (forall (i : nat) (p q : point),
     nth_error pts i = Some p -> nth_error pts (S i) = Some q ->
     (fst q = fst p /\ PrimFloat.leb (snd p) (snd q) = true) \/
     (PrimFloat.leb (fst p) (fst q) = true /\ snd q = round4 76.2)) /\
  exists raw : list point,
    pts = map round_point raw /\
    forall (i : nat) (p q : point),
      nth_error raw i = Some p -> nth_error raw (S i) = Some q ->
      (fst q = fst p /\ snd q = PrimFloat.add (snd p) GRID_STEP /\
       (PrimFloat.add (snd p) GRID_STEP <> snd p -> PrimFloat.ltb (snd p) (snd q) = true)) \/
      (fst q = PrimFloat.add (fst p) GRID_STEP /\ snd q = 76.2%float /\
       (PrimFloat.add (fst p) GRID_STEP <> fst p -> PrimFloat.ltb (fst p) (fst q) = true)).
Proof.
  intros pts. split; [reflexivity|].
  apply (generate_grid_row_major (mk_bbox 8.0 8.5 76.2 76.7) GRID_STEP 5);
    [reflexivity | vm_compute; reflexivity].
Defined.
